(** * agate.Table: the immutable table and its transformation operators

    A shallow embedding of [agate/table/__init__.py]: the validated
    constructor [Table.__init__], [_fork], [find], and the operators
    [rename], [select], [exclude], [where], [order_by], [limit] and
    [distinct].

    Python values are a small inductive type, exceptions are an explicit
    result type, and the observable side effects of construction (warnings,
    calls to a column's [cast], calls to the type tester) are recorded in an
    event log threaded through a state-and-error monad.  The methods are
    given twice: as functions from the attributes of the receiver to the
    attributes of the result, and as method bodies on a store of Table
    objects, where creating an object and assigning to attributes are
    explicit. *)

From Stdlib Require Import ZArith String Ascii Bool Lia Arith PeanoNat.
From Stdlib Require Import OrderedTypeEx DecimalString DecimalNat.
From Stdlib Require Import List Permutation Sorted.
Import ListNotations.


(* ------------------------------------------------------------------ *)
(** ** Python values *)

(** The cell values the model covers: [None], [int], [str] and tuples of
    values (tuples arise as composite keys and as [tuple(row)]). *)
#[local] Set Warnings "-register-all".
Inductive value : Type :=
| VNone
| VInt (z : Z)
| VStr (s : string)
| VTuple (items : list value).

(** Induction over values that also descends into tuples. *)
Section value_induction.
Variable P : value -> Prop.
Hypothesis HNone : P VNone.
Hypothesis HInt : forall z, P (VInt z).
Hypothesis HStr : forall s, P (VStr s).
Hypothesis HTuple : forall items, Forall P items -> P (VTuple items).

Fixpoint value_ind' (v : value) : P v :=
  match v with
  | VNone => HNone
  | VInt z => HInt z
  | VStr s => HStr s
  | VTuple items =>
      HTuple items ((fix all (l : list value) : Forall P l :=
                 match l with
                 | [] => Forall_nil P
                 | x :: l' => Forall_cons x (value_ind' x) (all l')
                 end) items)
  end.
End value_induction.

(** [a == b] on values: structural, never raises. *)
Fixpoint py_eq (a b : value) : bool :=
  match a, b with
  | VNone, VNone => true
  | VInt x, VInt y => Z.eqb x y
  | VStr x, VStr y => String.eqb x y
  | VTuple xs, VTuple ys =>
      (fix items_eq (xs ys : list value) : bool :=
         match xs, ys with
         | [], [] => true
         | x :: xs', y :: ys' => py_eq x y && items_eq xs' ys'
         | _, _ => false
         end) xs ys
  | _, _ => false
  end.

(** [a < b] on values, Python 3 semantics: ints and strings are ordered among
    themselves, tuples lexicographically (the first position where the items
    are not [==] decides, by [<] on those items), and every other pairing,
    [None] included, raises [TypeError], here [None]. *)
Fixpoint py_lt (a b : value) : option bool :=
  match a, b with
  | VInt x, VInt y => Some (Z.ltb x y)
  | VStr x, VStr y => Some (String.ltb x y)
  | VTuple xs, VTuple ys =>
      (fix items_lt (xs ys : list value) : option bool :=
         match xs, ys with
         | [], [] => Some false
         | [], _ :: _ => Some true
         | _ :: _, [] => Some false
         | x :: xs', y :: ys' =>
             if py_eq x y then items_lt xs' ys' else py_lt x y
         end) xs ys
  | _, _ => None
  end.

(** [isinstance(v, int)]. *)
Definition is_int (v : value) : bool :=
  match v with VInt _ => true | _ => false end.

(** Membership [v in l], by [==]. *)
Definition py_in (v : value) (l : list value) : bool := existsb (py_eq v) l.

Definition str_in (s : string) (l : list string) : bool :=
  existsb (String.eqb s) l.

(* ------------------------------------------------------------------ *)
(** ** Exceptions, events and the construction monad *)

(** The reasons for which the table code raises [ValueError], one per
    [raise] site, plus the one raised by slicing with a zero step. *)
Inductive value_error : Type :=
| RowsIsString
| BadColumnName
| BadColumnType
| LengthMismatch
| RowTooLong (i len_row len_column_names : nat)
| BadRowNames
| IntRowName
| SliceStepZero.

Inductive exn : Type :=
| ValueError (why : value_error)
| KeyError (key : value)
| IndexError
| TypeError
| AttributeError
| CastError (d : value)
| UserError (code : nat).

Inductive result (A : Type) : Type :=
| Ok (a : A)
| Raise (e : exn).
Arguments Ok {A} a.
Arguments Raise {A} e.

Definition rbind {A B} (c : result A) (k : A -> result B) : result B :=
  match c with
  | Ok a => k a
  | Raise e => Raise e
  end.

Notation "'let?' x ':=' c 'in' k" := (rbind c (fun x => k))
  (at level 10, x name, c at level 100, k at level 200).

Fixpoint rmap {A B} (f : A -> result B) (l : list A) : result (list B) :=
  match l with
  | [] => Ok []
  | x :: l' =>
      let? y := f x in
      let? ys := rmap f l' in
      Ok (y :: ys)
  end.

(** A row: a sequence of values addressable by position and, through
    [keys], by column name.  A plain list or tuple of cells handed to the
    constructor is a row without keys ([keys = []]). *)
Record Row : Type := mkRow { values : list value; keys : list string }.

Definition raw (cells : list value) : Row := mkRow cells [].

(** Lookup of a name in a name-to-item mapping given as a list of pairs. *)
Fixpoint assoc {A} (n : string) (l : list (string * A)) : option A :=
  match l with
  | [] => None
  | (k, v) :: l' => if String.eqb n k then Some v else assoc n l'
  end.

(** Modelled from the spec: [row[n]] for a column name [n] (class [Row] is
    defined in [agate.rows], outside the table module): the value at the
    position the name has among the row's keys, [KeyError] when absent. *)
Definition row_get (row : Row) (n : string) : result value :=
  match assoc n (combine (keys row) (values row)) with
  | Some v => Ok v
  | None => Raise (KeyError (VStr n))
  end.

(** A column type: only its [cast] operation matters to the table. *)
Record DataType : Type := mkDataType {
  type_name : string;
  cast : value -> result value
}.

(** A type tester: [run(rows, column_names)] infers the column types. *)
Record TypeTester : Type := mkTypeTester {
  run : list Row -> list string -> result (list DataType)
}.

Inductive warning : Type :=
| UnnamedColumn (new_column_name : string)
| DuplicateColumn (new_column_name final_column_name : string)
| NoColumnNames (column_names : list string).

(** What construction does besides computing: warnings, calls of a column's
    [cast] (column index and argument) and calls of a tester's [run]. *)
Inductive event : Type :=
| Warn (w : warning)
| CastCall (i : nat) (d : value)
| TesterRun (rows : list Row) (column_names : list string).

Definition M (A : Type) : Type := list event -> result A * list event.

Definition ret {A} (a : A) : M A := fun tr => (Ok a, tr).

Definition raise {A} (e : exn) : M A := fun tr => (Raise e, tr).

Definition bind {A B} (c : M A) (k : A -> M B) : M B :=
  fun tr =>
    match c tr with
    | (Ok a, tr') => k a tr'
    | (Raise e, tr') => (Raise e, tr')
    end.

Definition emit (ev : event) : M unit := fun tr => (Ok tt, tr ++ [ev]).

Definition lift {A} (c : result A) : M A := fun tr => (c, tr).

Notation "'let*' x ':=' c 'in' k" := (bind c (fun x => k))
  (at level 10, x name, c at level 100, k at level 200).

(* ------------------------------------------------------------------ *)
(** ** Slices *)

(** [bool(x)] for a slice bound: [None] and [0] are false. *)
Definition truthy (x : option Z) : bool :=
  match x with
  | None => false
  | Some z => negb (Z.eqb z 0)
  end.

Record slice : Type := mkSlice {
  slice_start : option Z; slice_stop : option Z; slice_step : option Z
}.

(** [slice(stop)] *)
Definition slice1 (stop : option Z) : slice := mkSlice None stop None.

(** One bound of [slice.indices]: negative bounds count from the end, and
    the result is clipped to [lower..upper]. *)
Definition clip_bound (x len lower upper : Z) : Z :=
  if Z.ltb x 0 then Z.max (x + len) lower else Z.min x upper.

(** [s.indices(len)] *)
Definition slice_indices (s : slice) (len : Z) : result (Z * Z * Z) :=
  let step := match slice_step s with None => 1%Z | Some z => z end in
  if Z.eqb step 0 then Raise (ValueError SliceStepZero) else
  let lower := if Z.ltb step 0 then (-1)%Z else 0%Z in
  let upper := if Z.ltb step 0 then (len - 1)%Z else len in
  let start := match slice_start s with
               | None => if Z.ltb step 0 then upper else lower
               | Some x => clip_bound x len lower upper
               end in
  let stop := match slice_stop s with
              | None => if Z.ltb step 0 then lower else upper
              | Some x => clip_bound x len lower upper
              end in
  Ok (start, stop, step).

(** [len(range(start, stop, step))] for a non-zero step. *)
Definition range_len (start stop step : Z) : nat :=
  if Z.ltb 0 step then
    if Z.ltb start stop then Z.to_nat ((stop - start - 1) / step + 1) else 0
  else
    if Z.ltb stop start then Z.to_nat ((start - stop - 1) / (- step) + 1) else 0.

Definition py_range (start stop step : Z) : list Z :=
  map (fun k => (start + Z.of_nat k * step)%Z) (seq 0 (range_len start stop step)).

(** Modelled from the spec: slicing of the row sequence (class
    [MappedSequence] is defined in [agate.mapped_sequence], outside the table
    module) is generic sequence slicing, [seq[s]]: the items at the positions
    of the range that [s.indices(len(seq))] describes. *)
Definition py_slice {A} (s : slice) (l : list A) : result (list A) :=
  let? ix := slice_indices s (Z.of_nat (length l)) in
  let '(start, stop, step) := ix in
  rmap (fun i => match nth_error l (Z.to_nat i) with
                 | Some x => Ok x
                 | None => Raise IndexError
                 end) (py_range start stop step).

(* ------------------------------------------------------------------ *)
(** ** Tables *)

(** A column is a view: its position, name and type, and a reference to the
    owning table's rows and row names. *)
Record Column : Type := mkColumn {
  _index : nat;
  _name : string;
  _data_type : DataType;
  _column_rows : list Row;
  _column_row_names : option (list value)
}.

Record Table : Type := mkTable {
  _column_names : list string;
  _column_types : list DataType;
  _row_names : option (list value);
  _rows : list Row;
  _columns : list Column
}.

(** The arguments of [Table(...)], one constructor per kind of object the
    code tells apart with [isinstance], [hasattr] or [is None]. *)
Inductive rows_arg : Type :=
| RowsString (s : string)
| RowsSeq (l : list Row).

Inductive name_arg : Type :=
| NameStr (s : string)
| NameNone
| NameOther.

Inductive type_obj : Type :=
| IsDataType (dt : DataType)
| NotDataType.

Inductive types_arg : Type :=
| TypesNone
| TypesDict (d : list (string * type_obj))
| TypesTester (tester : TypeTester)
| TypesSeq (l : list type_obj).

Inductive row_names_arg : Type :=
| RowNamesNone
| RowNamesColumn (s : string)
| RowNamesFunc (f : Row -> result value)
| RowNamesSeq (l : list value)
| RowNamesOther (truth : bool).

(** [bool(row_names)] *)
Definition row_names_truthy (row_names : row_names_arg) : bool :=
  match row_names with
  | RowNamesNone => false
  | RowNamesColumn s => negb (String.eqb s "")
  | RowNamesFunc _ => true
  | RowNamesSeq l => negb (Nat.eqb (length l) 0)
  | RowNamesOther truth => truth
  end.

(** [str(n)] for a natural number. *)
Definition str (n : nat) : string := NilEmpty.string_of_uint (Nat.to_uint n).

Definition enumerate {A} (l : list A) : list (nat * A) :=
  combine (seq 0 (length l)) l.

(** The loop
    [while final_column_name in final_column_names: ...]
    of the constructor.  [fuel] bounds the number of times the body runs;
    with [fuel = len(final_column_names)] the loop always leaves through its
    condition ([dedup_loop_exit] below). *)
Fixpoint dedup_loop (fuel : nat) (new_column_name final_column_name : string)
    (duplicates : nat) (final_column_names : list string) : string * nat :=
  if str_in final_column_name final_column_names then
    match fuel with
    | 0 => (final_column_name, duplicates)
    | S fuel' =>
        dedup_loop fuel' new_column_name
          (new_column_name ++ "_" ++ str (duplicates + 2))%string
          (duplicates + 1) final_column_names
    end
  else (final_column_name, duplicates).

Definition check_type (o : type_obj) : result DataType :=
  match o with
  | IsDataType dt => Ok dt
  | NotDataType => Raise (ValueError BadColumnType)
  end.

(** [cast_funcs[i](d) for i, d in enumerate(row)], consumed by [Row(...)]. *)
Fixpoint cast_cells (cast_funcs : list DataType) (i : nat) (row : list value)
  : M (list value) :=
  match row with
  | [] => ret []
  | d :: rest =>
      match nth_error cast_funcs i with
      | None => raise IndexError
      | Some c =>
          let* _ := emit (CastCall i d) in
          let* v := lift (cast c d) in
          let* vs := cast_cells cast_funcs (S i) rest in
          ret (v :: vs)
      end
  end.

(** The casting loop [for i, row in enumerate(rows)] of the constructor; the
    rows already appended to [new_rows] are the ones in front of the result. *)
Fixpoint cast_rows (cast_funcs : list DataType) (column_names : list string)
    (i : nat) (rows : list Row) : M (list Row) :=
  match rows with
  | [] => ret []
  | row :: rest =>
      let len_row := length (values row) in
      let len_column_names := length column_names in
      if Nat.ltb len_column_names len_row then
        raise (ValueError (RowTooLong i len_row len_column_names))
      else
        let cells :=
          if Nat.ltb len_row len_column_names
          then values row ++ repeat VNone (len_column_names - len_row)
          else values row in
        let* vs := cast_cells cast_funcs 0 cells in
        let* new_rows := cast_rows cast_funcs column_names (S i) rest in
        ret (mkRow vs column_names :: new_rows)
  end.

(** The [if row_names:] block of the constructor. *)
Definition compute_row_names (row_names : row_names_arg) (new_rows : list Row)
  : result (option (list value)) :=
  if row_names_truthy row_names then
    let? computed_row_names :=
      match row_names with
      | RowNamesColumn s => rmap (fun row => row_get row s) new_rows
      | RowNamesFunc f => rmap f new_rows
      | RowNamesSeq l => Ok l
      | _ => Raise (ValueError BadRowNames)
      end in
    if existsb is_int computed_row_names
    then Raise (ValueError IntRowName)
    else Ok (Some computed_row_names)
  else Ok None.

(** The [# Build columns] loop. *)
Definition build_columns (column_names : list string)
    (column_types : list DataType) (rows : list Row)
    (row_names : option (list value)) : list Column :=
  map (fun '(i, (name, data_type)) => mkColumn i name data_type rows row_names)
      (enumerate (combine column_names column_types)).

(** The key of [select] and [exclude]: one column name or a sequence. *)
Inductive column_key : Type :=
| OneName (s : string)
| Names (l : list string).

(** [if not utils.issequence(key): key = [key]] *)
Definition key_list (key : column_key) : list string :=
  match key with
  | OneName s => [s]
  | Names l => l
  end.

(** The key of [order_by] and [distinct]: a column name, a sequence of
    column names, a function of the row, or [None]. *)
Inductive row_key : Type :=
| ByName (s : string)
| ByNames (l : list string)
| ByFunction (f : Row -> result value)
| ByNone.

(** What [sort_key] returns: the key, or the null-ordering sentinel. *)
Inductive sort_key_value : Type :=
| NullOrder
| Key (k : value).

(** What [distinct] computes as [k]: a value, or, for a sequence key, the
    generator object of [(row[j] for j in key)], which is never consumed
    and equals only itself; [id] is the loop iteration that created it. *)
Inductive distinct_key : Type :=
| Val (v : value)
| Generator (id : nat).

(** An argument of [rename]: a sequence (a tuple or a list) or a dict from
    old to new names. *)
Inductive renaming (K V : Type) : Type :=
| RenameSeq (is_tuple : bool) (l : list V)
| RenameDict (d : list (K * V)).
Arguments RenameSeq {K V} is_tuple l.
Arguments RenameDict {K V} d.

Section Table.

(** [utils.letter_name], [TypeTester()] and [TypeTester(force=...)] are
    defined outside the table module; the table code only calls them. *)
Variable letter_name : nat -> string.
Variable default_tester : TypeTester.
Variable forced_tester : list (string * DataType) -> TypeTester.

(** The loop [for i, column_name in enumerate(column_names)]. *)
Fixpoint validate_column_names (i : nat) (column_names : list name_arg)
    (final_column_names : list string) : M (list string) :=
  match column_names with
  | [] => ret final_column_names
  | column_name :: rest =>
      let* new_column_name :=
        match column_name with
        | NameNone =>
            let* _ := emit (Warn (UnnamedColumn (letter_name i))) in
            ret (letter_name i)
        | NameStr s => ret s
        | NameOther => raise (ValueError BadColumnName)
        end in
      let '(final_column_name, duplicates) :=
        dedup_loop (length final_column_names) new_column_name
          new_column_name 0 final_column_names in
      let* _ :=
        if Nat.ltb 0 duplicates
        then emit (Warn (DuplicateColumn new_column_name final_column_name))
        else ret tt in
      validate_column_names (S i) rest
        (final_column_names ++ [final_column_name])
  end.

(** [# Validate column names] *)
Definition resolve_column_names (column_names : option (list name_arg))
    (rows : list Row) : M (list string) :=
  match column_names with
  | Some (n :: l) => validate_column_names 0 (n :: l) []
  | _ =>
      match rows with
      | row0 :: _ =>
          let names := map letter_name (seq 0 (length (values row0))) in
          let* _ := emit (Warn (NoColumnNames names)) in
          ret names
      | [] => ret []
      end
  end.

Definition run_tester (tester : TypeTester) (rows : list Row)
    (column_names : list string) : M (list DataType) :=
  let* _ := emit (TesterRun rows column_names) in
  lift (run tester rows column_names).

(** [# Validate column_types] *)
Definition resolve_column_types (column_types : types_arg)
    (rows : list Row) (column_names : list string) : M (list DataType) :=
  match column_types with
  | TypesNone => run_tester default_tester rows column_names
  | TypesDict d =>
      let* force :=
        lift (rmap (fun kv => let? dt := check_type (snd kv) in
                              Ok (fst kv, dt)) d) in
      run_tester (forced_tester force) rows column_names
  | TypesTester tester => run_tester tester rows column_names
  | TypesSeq l => lift (rmap check_type l)
  end.

(** [Table.__init__] *)
Definition Table_init (rows : rows_arg) (column_names : option (list name_arg))
    (column_types : types_arg) (row_names : row_names_arg) (_is_fork : bool)
  : M Table :=
  match rows with
  | RowsString _ => raise (ValueError RowsIsString)
  | RowsSeq rows =>
      let* names := resolve_column_names column_names rows in
      let* types := resolve_column_types column_types rows names in
      if negb (Nat.eqb (length names) (length types))
      then raise (ValueError LengthMismatch)
      else
        let* new_rows :=
          if _is_fork then ret rows else cast_rows types names 0 rows in
        let* computed := lift (compute_row_names row_names new_rows) in
        ret (mkTable names types computed new_rows
               (build_columns names types new_rows computed))
  end.

(** [Table._fork] *)
Definition _fork (self : Table) (rows : list Row)
    (column_names : option (list name_arg))
    (column_types : option (list type_obj))
    (row_names : option (list value)) : M Table :=
  let column_names :=
    match column_names with
    | None => map NameStr (_column_names self)
    | Some l => l
    end in
  let column_types :=
    match column_types with
    | None => map IsDataType (_column_types self)
    | Some l => l
    end in
  let row_names :=
    match row_names with
    | None => _row_names self
    | Some l => Some l
    end in
  Table_init (RowsSeq rows) (Some column_names) (TypesSeq column_types)
    (match row_names with
     | None => RowNamesNone
     | Some l => RowNamesSeq l
     end) true.

(** Modelled from the spec: [self.columns[name]], the lookup by name in the
    column sequence (class [MappedSequence]): the column at the position the
    name has among the column names, [KeyError] when absent. *)
Definition columns_get (self : Table) (n : string) : result Column :=
  match assoc n (combine (_column_names self) (_columns self)) with
  | Some c => Ok c
  | None => Raise (KeyError (VStr n))
  end.

(** [Table.select] *)
Definition select (self : Table) (key : column_key) : M Table :=
  let key := key_list key in
  let* column_types :=
    lift (rmap (fun n => let? c := columns_get self n in
                         Ok (_data_type c)) key) in
  let* new_rows :=
    lift (rmap (fun row => let? vs := rmap (row_get row) key in
                           Ok (mkRow vs key)) (_rows self)) in
  _fork self new_rows (Some (map NameStr key))
    (Some (map IsDataType column_types)) None.

(** [Table.exclude] *)
Definition exclude (self : Table) (key : column_key) : M Table :=
  let key := key_list key in
  let selected_column_names :=
    filter (fun n => negb (str_in n key)) (_column_names self) in
  select self (Names selected_column_names).

(** [self._row_names[i]] *)
Definition row_name_at (names : list value) (i : nat) : result value :=
  match nth_error names i with
  | Some n => Ok n
  | None => Raise IndexError
  end.

(** The loop of [Table.where]: [rows] and [row_names] are the lists built
    so far. *)
Fixpoint where_loop (self : Table) (test : Row -> result bool)
    (items : list (nat * Row)) (rows : list Row)
    (row_names : option (list value))
  : result (list Row * option (list value)) :=
  match items with
  | [] => Ok (rows, row_names)
  | (i, row) :: rest =>
      let? keep := test row in
      if keep then
        let? row_names :=
          match _row_names self, row_names with
          | Some names, Some acc =>
              let? n := row_name_at names i in Ok (Some (acc ++ [n]))
          | _, _ => Ok row_names
          end in
        where_loop self test rest (rows ++ [row]) row_names
      else where_loop self test rest rows row_names
  end.

(** [Table.where] *)
Definition where_ (self : Table) (test : Row -> result bool) : M Table :=
  let row_names :=
    match _row_names self with
    | Some _ => Some []
    | None => None
    end in
  let* out := lift (where_loop self test (enumerate (_rows self)) [] row_names) in
  _fork self (fst out) None None (snd out).

(** The loop of [Table.find]: the first row that passes, or [None]. *)
Fixpoint find_loop (test : Row -> result bool) (rows : list Row)
  : result (option Row) :=
  match rows with
  | [] => Ok None
  | row :: rest =>
      let? found := test row in
      if found then Ok (Some row) else find_loop test rest
  end.

(** [Table.find] *)
Definition find (self : Table) (test : Row -> result bool)
  : result (option Row) :=
  find_loop test (_rows self).

(** Modelled from the spec: [utils.NullOrder] (defined in [agate.utils],
    outside the table module), a sentinel that compares less than all other
    values and equal only to itself.  Other keys compare by [<]. *)
Definition key_lt (a b : sort_key_value) : result bool :=
  match a, b with
  | NullOrder, NullOrder => Ok false
  | NullOrder, Key _ => Ok true
  | Key _, NullOrder => Ok false
  | Key x, Key y =>
      match py_lt x y with
      | Some r => Ok r
      | None => Raise TypeError
      end
  end.

(** [sort_key], the closure of [order_by]. *)
Definition sort_key (key : row_key) (data : nat * Row)
  : result sort_key_value :=
  let row := snd data in
  let? k :=
    match key with
    | ByFunction f => f row
    | ByNames l => let? vs := rmap (row_get row) l in Ok (VTuple vs)
    | ByName s => row_get row s
    | ByNone => Raise (KeyError VNone)
    end in
  match k with
  | VNone => Ok NullOrder
  | _ => Ok (Key k)
  end.

(** The builtin [sorted(items, key=key, reverse=reverse)]: the keys are
    computed first, one call per item in order; the sort is stable and uses
    only [<] on keys; [reverse] sorts the reversed list and reverses the
    result, which keeps equal items in their original order.  The sort is
    written as an insertion sort that works from the last item to the
    first: an item is placed among the sorted items that followed it,
    behind those that are less than it. *)
Fixpoint insort {A} (x : sort_key_value * A) (s : list (sort_key_value * A))
  : result (list (sort_key_value * A)) :=
  match s with
  | [] => Ok [x]
  | y :: s' =>
      let? lt := key_lt (fst y) (fst x) in
      if lt then let? r := insort x s' in Ok (y :: r)
      else Ok (x :: y :: s')
  end.

Fixpoint stable_sort {A} (l : list (sort_key_value * A))
  : result (list (sort_key_value * A)) :=
  match l with
  | [] => Ok []
  | x :: l' => let? s := stable_sort l' in insort x s
  end.

Definition sorted {A} (items : list A) (key : A -> result sort_key_value)
    (reverse : bool) : result (list A) :=
  let? keyed := rmap (fun x => let? k := key x in Ok (k, x)) items in
  let? out :=
    if reverse
    then let? r := stable_sort (rev keyed) in Ok (rev r)
    else stable_sort keyed in
  Ok (map snd out).

(** [Table.order_by] *)
Definition order_by (self : Table) (key : row_key) (reverse : bool)
  : M Table :=
  if Nat.eqb (length (_rows self)) 0 then
    _fork self (_rows self) None None None
  else
    let* results :=
      lift (sorted (enumerate (_rows self)) (sort_key key) reverse) in
    let indices := map fst results in
    let rows := map snd results in
    let* row_names :=
      match _row_names self with
      | Some names =>
          let* l := lift (rmap (row_name_at names) indices) in ret (Some l)
      | None => ret None
      end in
    _fork self rows None None row_names.

(** [Table.limit] *)
Definition limit (self : Table) (start_or_stop stop step : option Z)
  : M Table :=
  let s :=
    if truthy stop || truthy step
    then mkSlice start_or_stop stop step
    else slice1 start_or_stop in
  let* rows := lift (py_slice s (_rows self)) in
  let* row_names :=
    match _row_names self with
    | Some names => let* l := lift (py_slice s names) in ret (Some l)
    | None => ret None
    end in
  _fork self rows None None row_names.

Definition distinct_key_eq (a b : distinct_key) : bool :=
  match a, b with
  | Val x, Val y => py_eq x y
  | Generator i, Generator j => Nat.eqb i j
  | _, _ => false
  end.

(** The loop of [Table.distinct]. *)
Fixpoint distinct_loop (self : Table) (key : row_key)
    (items : list (nat * Row)) (uniques : list distinct_key)
    (rows : list Row) (row_names : option (list value))
  : result (list Row * option (list value)) :=
  match items with
  | [] => Ok (rows, row_names)
  | (i, row) :: rest =>
      let? k :=
        match key with
        | ByFunction f => let? v := f row in Ok (Val v)
        | ByNames _ => Ok (Generator i)
        | ByNone => Ok (Val (VTuple (values row)))
        | ByName s => let? v := row_get row s in Ok (Val v)
        end in
      if negb (existsb (distinct_key_eq k) uniques) then
        let? row_names :=
          match _row_names self, row_names with
          | Some names, Some acc =>
              let? n := row_name_at names i in Ok (Some (acc ++ [n]))
          | _, _ => Ok row_names
          end in
        distinct_loop self key rest (uniques ++ [k]) (rows ++ [row]) row_names
      else distinct_loop self key rest uniques rows row_names
  end.

(** [Table.distinct] *)
Definition distinct (self : Table) (key : row_key) : M Table :=
  let row_names :=
    match _row_names self with
    | Some _ => Some []
    | None => None
    end in
  let* out :=
    lift (distinct_loop self key (enumerate (_rows self)) [] [] row_names) in
  _fork self (fst out) None None (snd out).

Definition name_arg_eqb (a : name_arg) (s : string) : bool :=
  match a with
  | NameStr x => String.eqb x s
  | _ => false
  end.

Fixpoint names_eqb (l : list name_arg) (names : list string) : bool :=
  match l, names with
  | [], [] => true
  | a :: l', s :: names' => name_arg_eqb a s && names_eqb l' names'
  | _, _ => false
  end.

Fixpoint value_assoc (n : value) (d : list (value * value)) : option value :=
  match d with
  | [] => None
  | (k, v) :: d' => if py_eq n k then Some v else value_assoc n d'
  end.

(** [Table.rename].  The stored column names are a tuple, so a list
    argument, and the list a dict argument is turned into, is never [==]
    to them. *)
Definition rename (self : Table)
    (column_names : option (renaming string name_arg))
    (row_names : option (renaming value value)) : M Table :=
  let column_names :=
    match column_names with
    | Some (RenameDict d) =>
        Some (false,
              map (fun n => match assoc n d with
                            | Some n' => n'
                            | None => NameStr n
                            end) (_column_names self))
    | Some (RenameSeq is_tuple l) => Some (is_tuple, l)
    | None => None
    end in
  let* row_names :=
    match row_names with
    | Some (RenameDict d) =>
        match _row_names self with
        | Some names =>
            ret (Some (map (fun n => match value_assoc n d with
                                     | Some n' => n'
                                     | None => n
                                     end) names))
        | None => raise TypeError
        end
    | Some (RenameSeq _ l) => ret (Some l)
    | None => ret None
    end in
  match column_names with
  | Some (is_tuple, l) =>
      if negb (is_tuple && names_eqb l (_column_names self)) then
        let row_names :=
          match row_names with
          | None => _row_names self
          | Some l => Some l
          end in
        Table_init (RowsSeq (_rows self)) (Some l)
          (TypesSeq (map IsDataType (_column_types self)))
          (match row_names with
           | None => RowNamesNone
           | Some l => RowNamesSeq l
           end) false
      else
        _fork self (_rows self) (Some l)
          (Some (map IsDataType (_column_types self))) row_names
  | None =>
      _fork self (_rows self) None
        (Some (map IsDataType (_column_types self))) row_names
  end.

(** *** The operators, with their arguments *)

(** A call of one of the transformation operators, with its arguments. *)
Inductive operator : Type :=
| Select (key : column_key)
| Exclude (key : column_key)
| Where (test : Row -> result bool)
| OrderBy (key : row_key) (reverse : bool)
| Limit (start_or_stop stop step : option Z)
| Distinct (key : row_key)
| Rename (column_names : option (renaming string name_arg))
         (row_names : option (renaming value value)).

Definition apply_operator (op : operator) (self : Table) : M Table :=
  match op with
  | Select key => select self key
  | Exclude key => exclude self key
  | Where test => where_ self test
  | OrderBy key reverse => order_by self key reverse
  | Limit start_or_stop stop step => limit self start_or_stop stop step
  | Distinct key => distinct self key
  | Rename column_names row_names => rename self column_names row_names
  end.

End Table.

(* ------------------------------------------------------------------ *)
(** ** Table objects *)

(** The definitions above compute the attributes of a Table from the
    arguments of the constructor, and those of the Table an operator returns
    from the attributes of its receiver.  Below are the same methods on
    objects.  Table objects live in a store and are addressed by reference
    (their position in the store); an object has no attributes until
    [__init__] assigns them.  A method body runs on the store and the event
    log: it can create an object, read the attributes of an object and assign
    to them, and it returns a value or raises, leaving the store as it is at
    that point. *)
Definition ref : Type := nat.

Definition store : Type := list (option Table).

Definition Method (A : Type) : Type :=
  store -> list event -> result A * store * list event.

Definition mret {A} (a : A) : Method A := fun h tr => (Ok a, h, tr).

Definition mbind {A B} (c : Method A) (k : A -> Method B) : Method B :=
  fun h tr =>
    match c h tr with
    | (Ok a, h', tr') => k a h' tr'
    | (Raise e, h', tr') => (Raise e, h', tr')
    end.

Notation "'let!' x ':=' c 'in' k" := (mbind c (fun x => k))
  (at level 10, x name, c at level 100, k at level 200).

(** A computation that touches no object. *)
Definition compute {A} (c : M A) : Method A :=
  fun h tr => let '(r, tr') := c tr in (r, h, tr').

(** [object.__new__(cls)]: a new object, without attributes. *)
Definition new_object : Method ref :=
  fun h tr => (Ok (length h), h ++ [None], tr).

(** Reading the attributes of [self]: [self._rows], [self._column_names],
    ... *)
Definition getattrs (self : ref) : Method Table :=
  fun h tr =>
    match nth_error h self with
    | Some (Some t) => (Ok t, h, tr)
    | _ => (Raise AttributeError, h, tr)
    end.

Fixpoint update {A} (i : nat) (x : A) (l : list A) : list A :=
  match l, i with
  | [], _ => []
  | _ :: l', 0 => x :: l'
  | y :: l', S i' => y :: update i' x l'
  end.

(** The assignments [self._column_names = ...], [self._column_types = ...],
    [self._row_names = ...], [self._rows = ...], [self._columns = ...]. *)
Definition setattrs (self : ref) (t : Table) : Method unit :=
  fun h tr => (Ok tt, update self (Some t) h, tr).

Module Obj.
Section Methods.

Variable letter_name : nat -> string.
Variable default_tester : TypeTester.
Variable forced_tester : list (string * DataType) -> TypeTester.

(** [Table.__init__(self, rows, ...)]: the values [Table_init] computes are
    assigned to the attributes of [self]; nothing is assigned when it
    raises. *)
Definition init (self : ref) (rows : rows_arg)
    (column_names : option (list name_arg)) (column_types : types_arg)
    (row_names : row_names_arg) (_is_fork : bool) : Method unit :=
  let! t := compute (Table_init letter_name default_tester forced_tester rows
                       column_names column_types row_names _is_fork) in
  setattrs self t.

(** The call [Table(rows, column_names, column_types, row_names, _is_fork)]:
    a new object, initialised by [__init__]. *)
Definition new (rows : rows_arg) (column_names : option (list name_arg))
    (column_types : types_arg) (row_names : row_names_arg) (_is_fork : bool)
  : Method ref :=
  let! r := new_object in
  let! _ := init r rows column_names column_types row_names _is_fork in
  mret r.

(** [Table._fork] *)
Definition _fork (self : ref) (rows : list Row)
    (column_names : option (list name_arg))
    (column_types : option (list type_obj))
    (row_names : option (list value)) : Method ref :=
  let! t := getattrs self in
  let column_names :=
    match column_names with
    | None => map NameStr (_column_names t)
    | Some l => l
    end in
  let column_types :=
    match column_types with
    | None => map IsDataType (_column_types t)
    | Some l => l
    end in
  let row_names :=
    match row_names with
    | None => _row_names t
    | Some l => Some l
    end in
  new (RowsSeq rows) (Some column_names) (TypesSeq column_types)
    (match row_names with
     | None => RowNamesNone
     | Some l => RowNamesSeq l
     end) true.

(** [Table.select] *)
Definition select (self : ref) (key : column_key) : Method ref :=
  let key := key_list key in
  let! t := getattrs self in
  let! column_types :=
    compute (lift (rmap (fun n => let? c := columns_get t n in
                                  Ok (_data_type c)) key)) in
  let! new_rows :=
    compute (lift (rmap (fun row => let? vs := rmap (row_get row) key in
                                    Ok (mkRow vs key)) (_rows t))) in
  _fork self new_rows (Some (map NameStr key))
    (Some (map IsDataType column_types)) None.

(** [Table.exclude] *)
Definition exclude (self : ref) (key : column_key) : Method ref :=
  let key := key_list key in
  let! t := getattrs self in
  let selected_column_names :=
    filter (fun n => negb (str_in n key)) (_column_names t) in
  select self (Names selected_column_names).

(** [Table.where] *)
Definition where_ (self : ref) (test : Row -> result bool) : Method ref :=
  let! t := getattrs self in
  let row_names :=
    match _row_names t with
    | Some _ => Some []
    | None => None
    end in
  let! out :=
    compute (lift (where_loop t test (enumerate (_rows t)) [] row_names)) in
  _fork self (fst out) None None (snd out).

(** [Table.order_by] *)
Definition order_by (self : ref) (key : row_key) (reverse : bool)
  : Method ref :=
  let! t := getattrs self in
  if Nat.eqb (length (_rows t)) 0 then
    _fork self (_rows t) None None None
  else
    let! results :=
      compute (lift (sorted (enumerate (_rows t)) (sort_key key) reverse)) in
    let indices := map fst results in
    let rows := map snd results in
    let! row_names :=
      match _row_names t with
      | Some names =>
          let! l := compute (lift (rmap (row_name_at names) indices)) in
          mret (Some l)
      | None => mret None
      end in
    _fork self rows None None row_names.

(** [Table.limit] *)
Definition limit (self : ref) (start_or_stop stop step : option Z)
  : Method ref :=
  let! t := getattrs self in
  let s :=
    if truthy stop || truthy step
    then mkSlice start_or_stop stop step
    else slice1 start_or_stop in
  let! rows := compute (lift (py_slice s (_rows t))) in
  let! row_names :=
    match _row_names t with
    | Some names => let! l := compute (lift (py_slice s names)) in
                    mret (Some l)
    | None => mret None
    end in
  _fork self rows None None row_names.

(** [Table.distinct] *)
Definition distinct (self : ref) (key : row_key) : Method ref :=
  let! t := getattrs self in
  let row_names :=
    match _row_names t with
    | Some _ => Some []
    | None => None
    end in
  let! out :=
    compute (lift (distinct_loop t key (enumerate (_rows t)) [] []
                     row_names)) in
  _fork self (fst out) None None (snd out).

(** [Table.rename] *)
Definition rename (self : ref)
    (column_names : option (renaming string name_arg))
    (row_names : option (renaming value value)) : Method ref :=
  let! t := getattrs self in
  let column_names :=
    match column_names with
    | Some (RenameDict d) =>
        Some (false,
              map (fun n => match assoc n d with
                            | Some n' => n'
                            | None => NameStr n
                            end) (_column_names t))
    | Some (RenameSeq is_tuple l) => Some (is_tuple, l)
    | None => None
    end in
  let! row_names :=
    match row_names with
    | Some (RenameDict d) =>
        match _row_names t with
        | Some names =>
            mret (Some (map (fun n => match value_assoc n d with
                                      | Some n' => n'
                                      | None => n
                                      end) names))
        | None => compute (raise TypeError)
        end
    | Some (RenameSeq _ l) => mret (Some l)
    | None => mret None
    end in
  match column_names with
  | Some (is_tuple, l) =>
      if negb (is_tuple && names_eqb l (_column_names t)) then
        let row_names :=
          match row_names with
          | None => _row_names t
          | Some l => Some l
          end in
        new (RowsSeq (_rows t)) (Some l)
          (TypesSeq (map IsDataType (_column_types t)))
          (match row_names with
           | None => RowNamesNone
           | Some l => RowNamesSeq l
           end) false
      else
        _fork self (_rows t) (Some l)
          (Some (map IsDataType (_column_types t))) row_names
  | None =>
      _fork self (_rows t) None
        (Some (map IsDataType (_column_types t))) row_names
  end.

Definition apply_operator (op : operator) (self : ref) : Method ref :=
  match op with
  | Select key => select self key
  | Exclude key => exclude self key
  | Where test => where_ self test
  | OrderBy key reverse => order_by self key reverse
  | Limit start_or_stop stop step => limit self start_or_stop stop step
  | Distinct key => distinct self key
  | Rename column_names row_names => rename self column_names row_names
  end.

End Methods.
End Obj.

(* ------------------------------------------------------------------ *)
(** ** Sample data *)

(** A column type whose [cast] returns its argument, and one whose [cast]
    turns the empty string into [None]. *)
Definition Text : DataType := mkDataType "Text" (fun d => Ok d).

Definition Nullable : DataType :=
  mkDataType "Nullable"
    (fun d => match d with
              | VStr s => if String.eqb s "" then Ok VNone else Ok d
              | _ => Ok d
              end).

(** A stand-in for [utils.letter_name]: single letters for the first few
    columns, then the index in decimal. *)
Definition sample_letter_name (i : nat) : string :=
  match i with
  | 0 => "a"
  | 1 => "b"
  | 2 => "c"
  | _ => str i
  end.

(** A stand-in for [TypeTester]: every column is [Text]. *)
Definition sample_tester : TypeTester :=
  mkTypeTester (fun _ column_names => Ok (map (fun _ => Text) column_names)).

Definition sample_forced_tester (force : list (string * DataType)) : TypeTester :=
  sample_tester.

Definition sample_row (cells : list value) : Row :=
  mkRow cells ["id"%string; "name"%string].

(** The table of the example scenarios: ids 1, 2, 3 and names a, b, a. *)
Definition sample_table : Table :=
  let rows := [sample_row [VInt 1; VStr "a"];
               sample_row [VInt 2; VStr "b"];
               sample_row [VInt 3; VStr "a"]] in
  let names := ["id"%string; "name"%string] in
  mkTable names [Text; Text] None rows (build_columns names [Text; Text] rows None).

(** The same table with row names x, y, z. *)
Definition sample_named_table : Table :=
  let rows := _rows sample_table in
  let names := _column_names sample_table in
  let row_names := Some [VStr "x"; VStr "y"; VStr "z"] in
  mkTable names [Text; Text] row_names rows
    (build_columns names [Text; Text] rows row_names).

(** Two rows that agree on [id]; the second has a null [name]. *)
Definition null_table : Table :=
  let rows := [sample_row [VInt 1; VStr "a"]; sample_row [VInt 1; VNone]] in
  let names := ["id"%string; "name"%string] in
  mkTable names [Text; Text] None rows (build_columns names [Text; Text] rows None).

(** Raw input: a full row, a short row, and a row that is too long. *)
Definition raw_rows : list Row := [raw [VStr "x"; VStr ""]; raw [VStr "y"]].

Definition raw_rows_long : list Row :=
  [raw [VStr "x"; VStr ""]; raw [VStr "y"; VStr "z"; VStr "w"]].

Definition sample_types : types_arg :=
  TypesSeq [IsDataType Text; IsDataType Nullable].

Definition sample_names : option (list name_arg) :=
  Some [NameStr "id"; NameStr "name"].

(** Supplied column names with a duplicate and a missing name. *)
Definition duplicate_names : list name_arg :=
  [NameStr "a"; NameStr "a"; NameNone].

(** A test on rows: the id is greater than 1. *)
Definition id_above_one (row : Row) : result bool :=
  match row_get row "id" with
  | Ok (VInt z) => Ok (Z.ltb 1 z)
  | Ok _ => Raise TypeError
  | Raise e => Raise e
  end.

(** A test on rows: the name is a. *)
Definition name_is_a (row : Row) : result bool :=
  let? v := row_get row "name" in Ok (py_eq v (VStr "a")).

(** A test on rows that accepts the id 2 and raises on the id 3. *)
Definition id_is_two (row : Row) : result bool :=
  match row_get row "id" with
  | Ok (VInt z) =>
      if Z.eqb z 2 then Ok true
      else if Z.eqb z 3 then Raise (UserError 0) else Ok false
  | Ok _ => Raise TypeError
  | Raise e => Raise e
  end.

(* ------------------------------------------------------------------ *)
(** ** Vocabulary of the properties *)

(** The [d]-th name the loop tries for [new_column_name]. *)
Definition candidate (new_column_name : string) (d : nat) : string :=
  match d with
  | 0 => new_column_name
  | S _ => (new_column_name ++ "_" ++ str (d + 1))%string
  end.

(** [before a b l]: some occurrence of [a] in [l] comes in front of some
    occurrence of [b]. *)
Inductive before {A} (a b : A) : list A -> Prop :=
| before_here l : In b l -> before a b (a :: l)
| before_later x l : before a b l -> before a b (x :: l).



(** The invariants of a Table: distinct column names, one type and one
    column per name, every row keyed by the column names with one value per
    column, and no integer among the row names. *)
Record table_invariant (t : Table) : Prop := {
  inv_names : NoDup (_column_names t);
  inv_types : length (_column_names t) = length (_column_types t);
  inv_columns :
    _columns t = build_columns (_column_names t) (_column_types t)
                   (_rows t) (_row_names t);
  inv_rows :
    forall row, In row (_rows t) ->
      keys row = _column_names t
      /\ length (values row) = length (_column_names t);
  inv_row_names :
    forall names, _row_names t = Some names -> existsb is_int names = false
}.

(** A row filled out with nulls to [n] cells. *)
Definition padded (n : nat) (row : Row) : list value :=
  values row ++ repeat VNone (n - length (values row)).

(** One [cast] call per cell, in order, the [k]-th cell with the type of
    column [i + k]. *)
Definition cast_events (i : nat) (cells : list value) : list event :=
  map (fun jd => CastCall (fst jd) (snd jd))
      (combine (seq i (length cells)) cells).

(** The values that [cast_cells] computes, without the event log. *)
Fixpoint cast_all (cast_funcs : list DataType) (i : nat) (cells : list value)
  : result (list value) :=
  match cells with
  | [] => Ok []
  | d :: rest =>
      match nth_error cast_funcs i with
      | None => Raise IndexError
      | Some c =>
          let? v := cast c d in
          let? vs := cast_all cast_funcs (S i) rest in
          Ok (v :: vs)
      end
  end.

(** Every cell of [cells] is accepted by the [cast] of its column. *)
Definition casts_succeed (cast_funcs : list DataType) (cells : list value)
  : Prop :=
  forall j d c,
    nth_error cells j = Some d -> nth_error cast_funcs j = Some c ->
    exists v, cast c d = Ok v.

(** The event log of the casting loop over [rows]. *)
Definition casting_events (n : nat) (rows : list Row) : list event :=
  flat_map (fun row => cast_events 0 (padded n row)) rows.

(** The names [resolve_column_names] gives when none are supplied: one
    placeholder per value of the first row. *)
Definition placeholder_names (letter_name : nat -> string) (row0 : Row)
  : list string :=
  map letter_name (seq 0 (length (values row0))).

(** What the constructor stores for an explicit sequence of row names. *)
Definition stored_row_names (l : list value) : option (list value) :=
  match l with
  | [] => None
  | _ :: _ => Some l
  end.

(** The row names of [t'] are the slice [s] of those of [self]. *)
Definition row_names_sliced (s : slice) (self t' : Table) : Prop :=
  match _row_names self with
  | Some names =>
      exists l, py_slice s names = Ok l /\ _row_names t' = stored_row_names l
  | None => _row_names t' = None
  end.

(** The event is a warning. *)
Definition is_warning (ev : event) : Prop :=
  match ev with
  | Warn _ => True
  | _ => False
  end.

(** A method call that leaves [out] created a Table with the attributes
    computed by [val], or raised what [val] raises: when it returns, the
    store is the one before the call followed by one new object, whose
    reference is returned; when it raises, the store is as before, but for
    an object that was created and never initialised. *)
Definition returns_new (h : store) (out : result ref * store * list event)
    (val : result Table * list event) : Prop :=
  match val with
  | (Ok t', tr') => out = (Ok (length h), h ++ [Some t'], tr')
  | (Raise e, tr') =>
      out = (Raise e, h, tr') \/ out = (Raise e, h ++ [None], tr')
  end.

(** The log [tr'] extends [tr] by warnings only: no cast call and no
    tester run. *)
Definition warnings_only (tr tr' : list event) : Prop :=
  exists ws, tr' = tr ++ ws /\ Forall is_warning ws.

(** The operator goes through [_fork] whatever its arguments are: all but
    [rename] with column names. *)
Definition always_forks (op : operator) : Prop :=
  match op with
  | Rename (Some _) _ => False
  | _ => True
  end.

(** The function that computes the key of a row for a key of [distinct]
    that is not a sequence of column names. *)
Inductive key_function : row_key -> (Row -> result value) -> Prop :=
| key_by_name s : key_function (ByName s) (fun row => row_get row s)
| key_by_function f : key_function (ByFunction f) f
| key_by_none : key_function ByNone (fun row => Ok (VTuple (values row))).

(** Position [i] holds the first occurrence of its key among [ks]. *)
Definition is_first (ks : list value) (i : nat) : bool :=
  match nth_error ks i with
  | Some k => negb (py_in k (firstn i ks))
  | None => false
  end.



(** The operators that select or rearrange rows and leave the columns
    alone. *)
Definition keeps_columns (op : operator) : Prop :=
  match op with
  | Where _ | OrderBy _ _ | Limit _ _ _ | Distinct _ => True
  | _ => False
  end.

(** The new name a dict argument of [rename] gives to a column name: the
    one it is mapped to, or the name itself when the dict does not have it. *)
Definition renamed (d : list (string * name_arg)) (n : string) : name_arg :=
  match assoc n d with
  | Some n' => n'
  | None => NameStr n
  end.

(** [test(row)] returns true. *)
Definition passes (test : Row -> result bool) (row : Row) : bool :=
  match test row with
  | Ok true => true
  | _ => false
  end.

(** The name a supplied column name stands for before duplicates are
    resolved: itself, or the placeholder of its position. *)
Definition requested_name (letter_name : nat -> string) (i : nat)
    (column_name : name_arg) : option string :=
  match column_name with
  | NameStr s => Some s
  | NameNone => Some (letter_name i)
  | NameOther => None
  end.

(* ------------------------------------------------------------------ *)
(** ** Properties *)

Ltac run := unfold bind, ret, raise, lift, emit in *; simpl in *.

(** *** Facts about [==] and [<] *)

Lemma py_eq_tuple_cons x xs y ys :
  py_eq (VTuple (x :: xs)) (VTuple (y :: ys))
  = py_eq x y && py_eq (VTuple xs) (VTuple ys).
Proof. reflexivity. Qed.


Lemma py_eq_true_iff a b : py_eq a b = true <-> a = b.
Proof.
  revert b. induction a as [ | z | s | items IH] using value_ind'; intros b.
  - destruct b; simpl; split; congruence.
  - destruct b; simpl; split; try congruence.
    + intros H. apply Z.eqb_eq in H. congruence.
    + intros H. inversion H. apply Z.eqb_refl.
  - destruct b; simpl; split; try congruence.
    + intros H. apply String.eqb_eq in H. congruence.
    + intros H. inversion H. apply String.eqb_refl.
  - destruct b as [ | | | ys]; try (simpl; split; congruence).
    revert ys. induction IH as [ | x xs Hx Hxs IHxs]; intros ys.
    + destruct ys; simpl; split; congruence.
    + destruct ys as [ | y ys]; [simpl; split; congruence | ].
      rewrite py_eq_tuple_cons, andb_true_iff, Hx, IHxs.
      split.
      * intros [-> H]. inversion H. reflexivity.
      * intros H. inversion H. split; reflexivity.
Qed.

Lemma py_eq_refl a : py_eq a a = true.
Proof. apply py_eq_true_iff. reflexivity. Qed.


Lemma py_in_true_iff v l : py_in v l = true <-> In v l.
Proof.
  unfold py_in. rewrite existsb_exists. split.
  - intros [x [Hin Heq]]. apply py_eq_true_iff in Heq. subst. assumption.
  - intros Hin. exists v. split; [assumption | apply py_eq_refl].
Qed.

Lemma str_in_true_iff s l : str_in s l = true <-> In s l.
Proof.
  unfold str_in. rewrite existsb_exists. split.
  - intros [x [Hin Heq]]. apply String.eqb_eq in Heq. subst. assumption.
  - intros Hin. exists s. split; [assumption | apply String.eqb_refl].
Qed.

Lemma str_in_false_iff s l : str_in s l = false <-> ~ In s l.
Proof.
  rewrite <- str_in_true_iff. destruct (str_in s l); split; congruence.
Qed.







Lemma bind_Ok {A B} (c : M A) (k : A -> M B) tr b tr' :
  bind c k tr = (Ok b, tr') ->
  exists a tr1, c tr = (Ok a, tr1) /\ k a tr1 = (Ok b, tr').
Proof.
  unfold bind. destruct (c tr) as [[a | e] tr1]; [eauto | discriminate].
Qed.

Lemma rbind_Ok {A B} (c : result A) (k : A -> result B) b :
  rbind c k = Ok b -> exists a, c = Ok a /\ k a = Ok b.
Proof. destruct c as [a | e]; simpl; [eauto | discriminate]. Qed.

Lemma lift_Ok {A} (c : result A) tr a tr' :
  lift c tr = (Ok a, tr') -> c = Ok a /\ tr' = tr.
Proof. unfold lift. intros H. inversion H. auto. Qed.

Lemma ret_Ok {A} (x : A) tr a tr' :
  ret x tr = (Ok a, tr') -> a = x /\ tr' = tr.
Proof. unfold ret. intros H. inversion H. auto. Qed.

(** *** Strings and the duplicate-name loop *)

Lemma string_length_append (a b : string) :
  String.length (a ++ b)%string = String.length a + String.length b.
Proof. induction a as [ | c a IH]; simpl; [reflexivity | now rewrite IH]. Qed.

Lemma string_append_inj (a b c : string) :
  (a ++ b)%string = (a ++ c)%string -> b = c.
Proof.
  induction a as [ | ch a IH]; simpl; intros H; [assumption | ].
  inversion H. auto.
Qed.

Lemma str_inj n m : str n = str m -> n = m.
Proof.
  unfold str. intros H.
  apply Unsigned.to_uint_inj.
  assert (E : NilEmpty.uint_of_string (NilEmpty.string_of_uint (Nat.to_uint n))
              = NilEmpty.uint_of_string (NilEmpty.string_of_uint (Nat.to_uint m)))
    by (rewrite H; reflexivity).
  rewrite !NilEmpty.usu in E. now inversion E.
Qed.

Lemma candidate_inj n a b : candidate n a = candidate n b -> a = b.
Proof.
  destruct a as [ | a], b as [ | b]; simpl; intros H; try reflexivity.
  - apply (f_equal String.length) in H.
    rewrite string_length_append in H. simpl in H. lia.
  - apply (f_equal String.length) in H.
    rewrite string_length_append in H. simpl in H. lia.
  - apply string_append_inj in H. inversion H as [H'].
    apply str_inj in H'. lia.
Qed.

Lemma candidate_succ n d :
  candidate n (d + 1) = (n ++ "_" ++ str (d + 2))%string.
Proof.
  rewrite Nat.add_1_r. simpl. do 3 f_equal. lia.
Qed.

Lemma candidates_NoDup n d : NoDup (map (candidate n) (seq 0 d)).
Proof.
  apply NoDup_map_NoDup_ForallPairs; [ | apply seq_NoDup].
  intros a b _ _. apply candidate_inj.
Qed.

Lemma dedup_loop_exit_from new_column_name final_column_names :
  forall fuel d,
    (forall k, k < d -> In (candidate new_column_name k) final_column_names) ->
    length final_column_names <= d + fuel ->
    str_in (fst (dedup_loop fuel new_column_name
                   (candidate new_column_name d) d final_column_names))
           final_column_names = false.
Proof.
  induction fuel as [ | fuel IH]; intros d Htried Hlen; simpl;
    destruct (str_in (candidate new_column_name d) final_column_names) eqn:E;
    try (simpl; exact E).
  - exfalso.
    assert (Hincl : incl (map (candidate new_column_name) (seq 0 (S d)))
                         final_column_names).
    { intros s Hs. apply in_map_iff in Hs. destruct Hs as [k [<- Hk]].
      apply in_seq in Hk. destruct (Nat.eq_dec k d) as [-> | Hne].
      - now apply str_in_true_iff.
      - apply Htried. lia. }
    apply NoDup_incl_length in Hincl; [ | apply candidates_NoDup].
    rewrite length_map, length_seq in Hincl. lia.
  - pose proof (IH (d + 1)) as IH'.
    rewrite candidate_succ in IH'. apply IH'; [ | lia].
    intros k Hk. destruct (Nat.eq_dec k d) as [-> | Hne].
    + now apply str_in_true_iff.
    + apply Htried. lia.
Qed.

(** The loop always leaves through its condition: the name it ends with is
    not among the names taken so far. *)
Lemma dedup_loop_exit new_column_name final_column_names :
  str_in (fst (dedup_loop (length final_column_names) new_column_name
                 new_column_name 0 final_column_names))
         final_column_names = false.
Proof.
  apply (dedup_loop_exit_from new_column_name final_column_names
           (length final_column_names) 0); [intros k Hk; lia | lia].
Qed.

Lemma dedup_loop_fresh fuel n final_column_names :
  str_in n final_column_names = false ->
  dedup_loop fuel n n 0 final_column_names = (n, 0).
Proof. intros H. destruct fuel; simpl; rewrite H; reflexivity. Qed.

(** *** Lists: results of [rmap], positions, and relative order *)

Lemma rmap_length {A B} (f : A -> result B) l r :
  rmap f l = Ok r -> length r = length l.
Proof.
  revert r. induction l as [ | x l IH]; simpl; intros r H.
  - now inversion H.
  - apply rbind_Ok in H. destruct H as (y & _ & H).
    apply rbind_Ok in H. destruct H as (ys & Hys & H).
    inversion H. simpl. f_equal. auto.
Qed.

Lemma rmap_nth_error {A B} (f : A -> result B) l r i x :
  rmap f l = Ok r -> nth_error l i = Some x ->
  exists y, f x = Ok y /\ nth_error r i = Some y.
Proof.
  revert r i. induction l as [ | a l IH]; simpl; intros r i H Hi.
  - destruct i; discriminate.
  - apply rbind_Ok in H. destruct H as (y & Hy & H).
    apply rbind_Ok in H. destruct H as (ys & Hys & H).
    inversion H; subst r. destruct i as [ | i]; simpl in *.
    + inversion Hi; subst. eauto.
    + eauto.
Qed.

Lemma rmap_ext_in {A B} (f g : A -> result B) l :
  (forall x, In x l -> f x = g x) -> rmap f l = rmap g l.
Proof.
  induction l as [ | a l IH]; simpl; intros H; [reflexivity | ].
  rewrite (H a) by auto. rewrite IH by auto. reflexivity.
Qed.

Lemma rmap_Ok_map {A B} (f : A -> B) l :
  rmap (fun x => Ok (f x)) l = Ok (map f l).
Proof.
  induction l as [ | a l IH]; simpl; [reflexivity | now rewrite IH].
Qed.

Lemma rmap_keyed_snd {A K} (key : A -> result K) items keyed :
  rmap (fun x => let? k := key x in Ok (k, x)) items = Ok keyed ->
  map snd keyed = items.
Proof.
  revert keyed. induction items as [ | a l IH]; simpl; intros keyed H.
  - now inversion H.
  - apply rbind_Ok in H. destruct H as (y & Hy & H).
    apply rbind_Ok in Hy. destruct Hy as (k & _ & Hy). inversion Hy; subst y.
    apply rbind_Ok in H. destruct H as (ys & Hys & H).
    inversion H. simpl. f_equal. auto.
Qed.

Lemma nth_error_enumerate_from {A} (l : list A) i x start :
  nth_error l i = Some x ->
  nth_error (combine (seq start (length l)) l) i = Some (start + i, x).
Proof.
  revert i start. induction l as [ | a l IH]; intros i start H.
  - destruct i; discriminate.
  - destruct i as [ | i]; simpl in *.
    + inversion H. now rewrite Nat.add_0_r.
    + rewrite (IH i (S start) H). do 2 f_equal. lia.
Qed.

Lemma nth_error_enumerate {A} (l : list A) i x :
  nth_error l i = Some x -> nth_error (enumerate l) i = Some (i, x).
Proof. apply (nth_error_enumerate_from l i x 0). Qed.

Lemma in_enumerate_from {A} (l : list A) i x start :
  In (i, x) (combine (seq start (length l)) l) ->
  start <= i /\ nth_error l (i - start) = Some x.
Proof.
  revert start. induction l as [ | a l IH]; simpl; intros start H; [easy | ].
  destruct H as [H | H].
  - inversion H; subst. rewrite Nat.sub_diag. auto.
  - apply IH in H. destruct H as [Hle H]. split; [lia | ].
    replace (i - start) with (S (i - S start)) by lia. exact H.
Qed.

Lemma in_enumerate {A} (l : list A) i x :
  In (i, x) (enumerate l) -> nth_error l i = Some x.
Proof.
  intros H. apply in_enumerate_from in H. now rewrite Nat.sub_0_r in H.
Qed.



Lemma before_app_r {A} (a b : A) l1 l2 : before a b l2 -> before a b (l1 ++ l2).
Proof.
  intros H. induction l1; simpl; [assumption | now apply before_later].
Qed.


Lemma before_In {A} (a b : A) l : before a b l -> In a l /\ In b l.
Proof.
  induction 1 as [l H | x l H [IHa IHb]]; simpl; auto.
Qed.





Lemma rmap_nth_error_inv {A B} (f : A -> result B) l r i y :
  rmap f l = Ok r -> nth_error r i = Some y ->
  exists x, nth_error l i = Some x /\ f x = Ok y.
Proof.
  revert r i. induction l as [ | a l IH]; simpl; intros r i H Hi.
  - inversion H; subst. destruct i; discriminate.
  - apply rbind_Ok in H. destruct H as (b & Hb & H).
    apply rbind_Ok in H. destruct H as (ys & Hys & H).
    inversion H; subst r. destruct i as [ | i]; simpl in *.
    + inversion Hi; subst. eauto.
    + eauto.
Qed.





Lemma nth_error_combine {A B} (l : list A) (l' : list B) i :
  nth_error (combine l l') i =
  match nth_error l i, nth_error l' i with
  | Some a, Some b => Some (a, b)
  | _, _ => None
  end.
Proof.
  revert l' i. induction l as [ | a l IH]; intros l' i.
  - destruct i; reflexivity.
  - destruct l' as [ | b l'].
    + destruct i; simpl; [reflexivity | ]. now destruct (nth_error l i).
    + destruct i; simpl; [reflexivity | apply IH].
Qed.

(** With distinct keys, looking up the key at position [i] finds the value
    at position [i]. *)
Lemma assoc_combine_nth {A} (ks : list string) (vs : list A) i k v :
  NoDup ks -> nth_error ks i = Some k -> nth_error vs i = Some v ->
  assoc k (combine ks vs) = Some v.
Proof.
  revert vs i. induction ks as [ | k0 ks IH]; intros vs i Hnd Hk Hv.
  - destruct i; discriminate.
  - destruct vs as [ | v0 vs]; [destruct i; discriminate | ].
    inversion Hnd as [ | ? ? Hnotin Hnd']; subst.
    destruct i as [ | i]; simpl in *.
    + inversion Hk; inversion Hv; subst. now rewrite String.eqb_refl.
    + destruct (String.eqb k k0) eqn:E.
      * apply String.eqb_eq in E. subst k0. apply nth_error_In in Hk.
        contradiction.
      * eapply IH; eassumption.
Qed.

Lemma nth_error_build_columns names types rows rn i :
  nth_error (build_columns names types rows rn) i =
  match nth_error names i, nth_error types i with
  | Some n, Some ty => Some (mkColumn i n ty rows rn)
  | _, _ => None
  end.
Proof.
  unfold build_columns. rewrite nth_error_map.
  destruct (nth_error (combine names types) i) as [[n ty] | ] eqn:E.
  - rewrite (nth_error_enumerate _ _ _ E). simpl.
    rewrite nth_error_combine in E.
    destruct (nth_error names i), (nth_error types i); try discriminate.
    now inversion E.
  - assert (Hn : nth_error (enumerate (combine names types)) i = None).
    { apply nth_error_None. apply nth_error_None in E. unfold enumerate.
      rewrite length_combine, length_seq. lia. }
    rewrite Hn. simpl. rewrite nth_error_combine in E.
    destruct (nth_error names i), (nth_error types i); try discriminate;
      reflexivity.
Qed.

Lemma length_build_columns names types rows rn :
  length names = length types ->
  length (build_columns names types rows rn) = length names.
Proof.
  intros H. unfold build_columns, enumerate.
  rewrite length_map, length_combine, length_seq, length_combine. lia.
Qed.

(** *** Slices *)

Lemma rmap_map {A B C} (f : B -> result C) (g : A -> B) l :
  rmap f (map g l) = rmap (fun x => f (g x)) l.
Proof.
  induction l as [ | a l IH]; simpl; [reflexivity | now rewrite IH].
Qed.

Lemma rmap_nth_seq {A} (l : list A) m :
  m <= length l ->
  rmap (fun k => match nth_error l k with
                 | Some x => Ok x
                 | None => Raise IndexError
                 end) (seq 0 m)
  = Ok (firstn m l).
Proof.
  revert m. induction l as [ | a l IH]; intros m Hm.
  - simpl in Hm. replace m with 0 by lia. reflexivity.
  - destruct m as [ | m]; [reflexivity | ].
    cbn [seq rmap nth_error rbind firstn].
    rewrite <- seq_shift, rmap_map. cbn [nth_error].
    rewrite IH by (simpl in Hm; lia). reflexivity.
Qed.

(** [l[:n]] for a natural number [n] is the first [n] items of [l]. *)
Lemma py_slice_stop_firstn {A} (l : list A) n :
  py_slice (mkSlice None (Some (Z.of_nat n)) None) l = Ok (firstn n l).
Proof.
  unfold py_slice, slice_indices, clip_bound. cbn [slice_step slice_start slice_stop].
  cbn [Z.eqb Z.ltb Z.compare rbind].
  destruct (Z.ltb_spec (Z.of_nat n) 0) as [Hneg | _]; [lia | ].
  unfold py_range, range_len. cbn [Z.ltb Z.compare].
  set (m := Z.min (Z.of_nat n) (Z.of_nat (length l))).
  assert (Hlen : (if (0 <? m)%Z then Z.to_nat ((m - 0 - 1) / 1 + 1) else 0)
                 = Nat.min n (length l)).
  { destruct (Z.ltb_spec 0 m) as [Hpos | Hzero].
    - rewrite Z.div_1_r. unfold m. lia.
    - unfold m in *. lia. }
  rewrite Hlen, rmap_map.
  rewrite (rmap_ext_in _ (fun k => match nth_error l k with
                                   | Some x => Ok x
                                   | None => Raise IndexError
                                   end)).
  - rewrite rmap_nth_seq by lia.
    destruct (Nat.le_ge_cases n (length l)) as [H | H].
    + now rewrite Nat.min_l.
    + rewrite Nat.min_r by assumption.
      now rewrite !firstn_all2 by lia.
  - intros k _. replace (Z.to_nat (0 + Z.of_nat k * 1)) with k by lia.
    reflexivity.
Qed.

(** *** The sort *)



Section Sorting.

Variable A : Type.

Lemma insort_perm (x : sort_key_value * A) s r :
  insort x s = Ok r -> Permutation (x :: s) r.
Proof.
  revert r. induction s as [ | y s IH]; simpl; intros r H.
  - inversion H. apply Permutation_refl.
  - apply rbind_Ok in H. destruct H as ([] & _ & H).
    + apply rbind_Ok in H. destruct H as (r' & Hr' & H). inversion H.
      eapply perm_trans; [apply perm_swap | ]. apply perm_skip. auto.
    + inversion H. apply Permutation_refl.
Qed.

Lemma stable_sort_perm (l r : list (sort_key_value * A)) :
  stable_sort l = Ok r -> Permutation l r.
Proof.
  revert r. induction l as [ | x l IH]; simpl; intros r H.
  - inversion H. apply perm_nil.
  - apply rbind_Ok in H. destruct H as (s & Hs & H).
    apply insort_perm in H. eapply perm_trans; [ | exact H].
    apply perm_skip. auto.
Qed.








End Sorting.

Lemma sorted_inv {A} (items : list A) key reverse res :
  sorted items key reverse = Ok res ->
  exists keyed r,
    rmap (fun x => let? k := key x in Ok (k, x)) items = Ok keyed
    /\ stable_sort (if reverse then rev keyed else keyed) = Ok r
    /\ res = map snd (if reverse then rev r else r).
Proof.
  unfold sorted. intros H.
  apply rbind_Ok in H. destruct H as (keyed & Hk & H).
  apply rbind_Ok in H. destruct H as (out & Hout & H). inversion H.
  exists keyed. destruct reverse.
  - apply rbind_Ok in Hout. destruct Hout as (r & Hr & Hout).
    inversion Hout. eauto.
  - eauto.
Qed.






Lemma check_types_ok types :
  rmap check_type (map IsDataType types) = Ok types.
Proof.
  induction types as [ | ty types IH]; simpl; [reflexivity | now rewrite IH].
Qed.

(** *** The casting loop *)

Lemma padded_length n row :
  length (values row) <= n -> length (padded n row) = n.
Proof.
  intros H. unfold padded. rewrite length_app, repeat_length. lia.
Qed.

Lemma padded_cells n row :
  Nat.ltb n (length (values row)) = false ->
  (if Nat.ltb (length (values row)) n
   then values row ++ repeat VNone (n - length (values row))
   else values row) = padded n row.
Proof.
  intros H. apply Nat.ltb_ge in H. unfold padded.
  destruct (Nat.ltb (length (values row)) n) eqn:E; [reflexivity | ].
  apply Nat.ltb_ge in E. replace (n - length (values row)) with 0 by lia.
  simpl. now rewrite app_nil_r.
Qed.

Lemma cast_cells_Ok cast_funcs cells :
  forall i tr vs tr',
    cast_cells cast_funcs i cells tr = (Ok vs, tr') ->
    cast_all cast_funcs i cells = Ok vs /\ tr' = tr ++ cast_events i cells.
Proof.
  induction cells as [ | d cells IH]; simpl; intros i tr vs tr' H.
  - apply ret_Ok in H. destruct H as [-> ->]. now rewrite app_nil_r.
  - destruct (nth_error cast_funcs i) as [c | ]; [ | discriminate].
    apply bind_Ok in H. destruct H as ([] & tr1 & He & H).
    unfold emit in He. inversion He; subst tr1.
    apply bind_Ok in H. destruct H as (v & tr2 & Hv & H).
    apply lift_Ok in Hv. destruct Hv as [Hv ->].
    apply bind_Ok in H. destruct H as (vs' & tr3 & Hvs & H).
    apply ret_Ok in H. destruct H as [-> ->].
    apply IH in Hvs. destruct Hvs as [Hvs ->].
    rewrite Hv, Hvs. split; [reflexivity | ].
    unfold cast_events. simpl. now rewrite <- app_assoc.
Qed.

Lemma cast_cells_run cast_funcs cells :
  forall i tr vs,
    cast_all cast_funcs i cells = Ok vs ->
    cast_cells cast_funcs i cells tr = (Ok vs, tr ++ cast_events i cells).
Proof.
  induction cells as [ | d cells IH]; simpl; intros i tr vs H.
  - inversion H. unfold ret. now rewrite app_nil_r.
  - destruct (nth_error cast_funcs i) as [c | ]; [ | discriminate].
    apply rbind_Ok in H. destruct H as (v & Hv & H).
    apply rbind_Ok in H. destruct H as (vs' & Hvs & H). inversion H; subst vs.
    unfold bind, emit, lift. rewrite Hv, (IH _ _ _ Hvs). unfold ret.
    unfold cast_events. simpl. now rewrite <- app_assoc.
Qed.

Lemma cast_all_pointwise cast_funcs cells :
  forall i vs,
    cast_all cast_funcs i cells = Ok vs ->
    length vs = length cells
    /\ forall j d, nth_error cells j = Some d ->
         exists c v, nth_error cast_funcs (i + j) = Some c
                     /\ cast c d = Ok v /\ nth_error vs j = Some v.
Proof.
  induction cells as [ | d0 cells IH]; simpl; intros i vs H.
  - inversion H. split; [reflexivity | ]. intros j d Hj. destruct j; discriminate.
  - destruct (nth_error cast_funcs i) as [c | ] eqn:Ec; [ | discriminate].
    apply rbind_Ok in H. destruct H as (v & Hv & H).
    apply rbind_Ok in H. destruct H as (vs' & Hvs & H). inversion H; subst vs.
    apply IH in Hvs. destruct Hvs as [Hlen Hpt]. split; [simpl; lia | ].
    intros j d Hj. destruct j as [ | j]; simpl in *.
    + inversion Hj; subst d0. exists c, v. rewrite Nat.add_0_r. auto.
    + destruct (Hpt j d Hj) as (c' & v' & Hc' & Hv' & Hn).
      exists c', v'. rewrite <- Nat.add_succ_comm. auto.
Qed.

Lemma cast_all_succeeds cast_funcs cells :
  forall i,
    i + length cells <= length cast_funcs ->
    (forall j d c, nth_error cells j = Some d ->
       nth_error cast_funcs (i + j) = Some c -> exists v, cast c d = Ok v) ->
    exists vs, cast_all cast_funcs i cells = Ok vs.
Proof.
  induction cells as [ | d cells IH]; simpl; intros i Hlen H.
  - eauto.
  - destruct (nth_error cast_funcs i) as [c | ] eqn:Ec.
    + destruct (H 0 d c eq_refl) as [v Hv]; [now rewrite Nat.add_0_r | ].
      destruct (IH (S i)) as [vs Hvs]; [lia | | ].
      * intros j d' c' Hj Hc'. apply (H (S j) d' c' Hj).
        now rewrite Nat.add_succ_r.
      * rewrite Hv, Hvs. simpl. eauto.
    + apply nth_error_None in Ec. lia.
Qed.

Lemma cast_rows_Ok cast_funcs column_names rows :
  forall i tr new_rows tr',
    cast_rows cast_funcs column_names i rows tr = (Ok new_rows, tr') ->
    length new_rows = length rows
    /\ tr' = tr ++ casting_events (length column_names) rows
    /\ forall k row, nth_error rows k = Some row ->
         length (values row) <= length column_names
         /\ exists vs,
              cast_all cast_funcs 0 (padded (length column_names) row) = Ok vs
              /\ nth_error new_rows k = Some (mkRow vs column_names).
Proof.
  induction rows as [ | row0 rows IH]; simpl; intros i tr new_rows tr' H.
  - apply ret_Ok in H. destruct H as [-> ->].
    rewrite app_nil_r. split; [reflexivity | ]. split; [reflexivity | ].
    intros k row Hk. destruct k; discriminate.
  - destruct (Nat.ltb (length column_names) (length (values row0))) eqn:E;
      [discriminate | ].
    rewrite (padded_cells _ _ E) in H. apply Nat.ltb_ge in E.
    apply bind_Ok in H. destruct H as (vs & tr1 & Hvs & H).
    apply cast_cells_Ok in Hvs. destruct Hvs as [Hvs ->].
    apply bind_Ok in H. destruct H as (rest & tr2 & Hrest & H).
    apply ret_Ok in H. destruct H as [-> ->].
    apply IH in Hrest. destruct Hrest as (Hlen & -> & Hpt).
    split; [simpl; lia | ]. split; [now rewrite <- app_assoc | ].
    intros k row Hk. destruct k as [ | k]; simpl in *.
    + inversion Hk; subst row0. split; [assumption | eauto].
    + auto.
Qed.

Lemma cast_rows_too_long cast_funcs column_names rows :
  forall i tr k row,
    nth_error rows k = Some row ->
    length column_names < length (values row) ->
    (forall j r, j < k -> nth_error rows j = Some r ->
       length (values r) <= length column_names
       /\ exists vs, cast_all cast_funcs 0 (padded (length column_names) r) = Ok vs) ->
    cast_rows cast_funcs column_names i rows tr
    = (Raise (ValueError (RowTooLong (i + k) (length (values row))
                            (length column_names))),
       tr ++ casting_events (length column_names) (firstn k rows)).
Proof.
  induction rows as [ | row0 rows IH]; intros i tr k row Hk Hlong Hbefore.
  - destruct k; discriminate.
  - destruct k as [ | k]; simpl in Hk.
    + inversion Hk; subst row0. simpl.
      apply Nat.ltb_lt in Hlong. rewrite Hlong. unfold raise.
      now rewrite Nat.add_0_r, app_nil_r.
    + destruct (Hbefore 0 row0) as [Hle [vs Hvs]]; [lia | reflexivity | ].
      cbn [cast_rows].
      assert (E : Nat.ltb (length column_names) (length (values row0)) = false)
        by (apply Nat.ltb_ge; assumption).
      rewrite E, (padded_cells _ _ E). unfold bind at 1.
      rewrite (cast_cells_run _ _ _ _ _ Hvs). unfold bind at 1.
      rewrite (IH (S i) _ k row Hk Hlong).
      * rewrite <- Nat.add_succ_comm. simpl. unfold casting_events. simpl.
        now rewrite <- app_assoc.
      * intros j r Hj Hr. apply (Hbefore (S j) r); [lia | assumption].
Qed.

Lemma cast_rows_total cast_funcs column_names rows :
  forall i tr,
    (forall k row, nth_error rows k = Some row ->
       length (values row) <= length column_names
       /\ exists vs,
            cast_all cast_funcs 0 (padded (length column_names) row) = Ok vs) ->
    exists new_rows,
      cast_rows cast_funcs column_names i rows tr
      = (Ok new_rows, tr ++ casting_events (length column_names) rows).
Proof.
  induction rows as [ | row0 rows IH]; intros i tr Hrows.
  - exists []. simpl. unfold ret. now rewrite app_nil_r.
  - destruct (Hrows 0 row0 eq_refl) as [Hle [vs Hvs]].
    destruct (IH (S i)
                (tr ++ cast_events 0 (padded (length column_names) row0)))
      as [new_rows Hnew].
    { intros k row Hk. apply (Hrows (S k) row Hk). }
    exists (mkRow vs column_names :: new_rows). cbn [cast_rows].
    assert (E : Nat.ltb (length column_names) (length (values row0)) = false)
      by (apply Nat.ltb_ge; assumption).
    rewrite E, (padded_cells _ _ E). unfold bind at 1.
    rewrite (cast_cells_run _ _ _ _ _ Hvs). unfold bind at 1.
    rewrite Hnew. unfold ret, casting_events. simpl.
    now rewrite <- app_assoc.
Qed.

Section Properties.

Variable letter_name : nat -> string.
Variable default_tester : TypeTester.
Variable forced_tester : list (string * DataType) -> TypeTester.


(** *** Column names *)

Lemma validate_column_names_fresh names :
  forall final i tr,
    NoDup (final ++ names) ->
    validate_column_names letter_name i (map NameStr names) final tr
    = (Ok (final ++ names), tr).
Proof.
  induction names as [ | n names IH]; intros final i tr Hnd; simpl.
  - now rewrite app_nil_r.
  - assert (Hn : str_in n final = false).
    { apply str_in_false_iff. intros Hin.
      apply NoDup_remove_2 in Hnd. apply Hnd. apply in_or_app. now left. }
    run. rewrite (dedup_loop_fresh _ _ _ Hn). simpl.
    rewrite IH; rewrite <- app_assoc; simpl; [reflexivity | assumption].
Qed.

Lemma validate_column_names_NoDup names :
  forall final i tr out tr',
    validate_column_names letter_name i names final tr = (Ok out, tr') ->
    NoDup final -> NoDup out.
Proof.
  induction names as [ | n names IH]; intros final i tr out tr' H Hnd.
  - run. now inversion H; subst.
  - simpl in H. apply bind_Ok in H. destruct H as (new & tr1 & En & H).
    pose proof (dedup_loop_exit new final) as Hexit.
    destruct (dedup_loop (length final) new new 0 final) as [fin dup].
    simpl in Hexit. apply bind_Ok in H. destruct H as ([] & tr2 & _ & H).
    apply IH in H; [assumption | ].
    apply NoDup_app; repeat split; auto.
    + constructor; [intros [] | constructor].
    + intros x Hx [<- | []]. apply str_in_false_iff in Hexit. contradiction.
Qed.

(** *** The constructor, step by step *)

Lemma Table_init_inv rows cn ct rn fork tr t tr' :
  Table_init letter_name default_tester forced_tester
    (RowsSeq rows) cn ct rn fork tr = (Ok t, tr') ->
  exists names types new_rows computed tr1 tr2,
    resolve_column_names letter_name cn rows tr = (Ok names, tr1)
    /\ resolve_column_types default_tester forced_tester ct rows names tr1
       = (Ok types, tr2)
    /\ length names = length types
    /\ (if fork then ret rows else cast_rows types names 0 rows) tr2
       = (Ok new_rows, tr')
    /\ compute_row_names rn new_rows = Ok computed
    /\ t = mkTable names types computed new_rows
             (build_columns names types new_rows computed).
Proof.
  unfold Table_init. intros H.
  apply bind_Ok in H. destruct H as (names & tr1 & Hn & H).
  apply bind_Ok in H. destruct H as (types & tr2 & Ht & H).
  destruct (Nat.eqb (length names) (length types)) eqn:El; simpl in H;
    [ | discriminate].
  apply Nat.eqb_eq in El.
  apply bind_Ok in H. destruct H as (new_rows & tr3 & Hr & H).
  apply bind_Ok in H. destruct H as (computed & tr4 & Hc & H).
  apply lift_Ok in Hc. destruct Hc as [Hc ->].
  apply ret_Ok in H. destruct H as [-> ->].
  exists names, types, new_rows, computed, tr1, tr2. auto 10.
Qed.

Lemma compute_row_names_seq l rows computed :
  compute_row_names (RowNamesSeq l) rows = Ok computed ->
  computed = stored_row_names l /\ existsb is_int l = false.
Proof.
  unfold compute_row_names. destruct l as [ | v l]; simpl.
  - intros H. inversion H. auto.
  - destruct (is_int v || existsb is_int l); [discriminate | ].
    intros H. inversion H. auto.
Qed.

Lemma fork_inv self rows cn ct rn tr t' tr' :
  _fork letter_name default_tester forced_tester self rows cn ct rn tr = (Ok t', tr') ->
  _rows t' = rows
  /\ _row_names t' =
     match rn with
     | Some l => stored_row_names l
     | None => match _row_names self with
               | Some l => stored_row_names l
               | None => None
               end
     end.
Proof.
  unfold _fork. intros H. apply Table_init_inv in H.
  destruct H as (names & types & new_rows & computed & tr1 & tr2
                 & _ & _ & _ & Hr & Hc & ->).
  apply ret_Ok in Hr. destruct Hr as [-> ->]. simpl. split; [reflexivity | ].
  destruct rn as [l | ].
  - now apply compute_row_names_seq in Hc.
  - destruct (_row_names self) as [l | ].
    + now apply compute_row_names_seq in Hc.
    + unfold compute_row_names in Hc. simpl in Hc. now inversion Hc.
Qed.

(** *** C9 *)

(** C9: when the rows argument of the constructor is a string, construction
    raises [ValueError] at once: whatever the other arguments are, the
    result is that error and the event log is the one the call started
    with, so no warning was issued, no type tester was run and no cell was
    cast. *)
Theorem string_rows_rejected_first s column_names column_types row_names
    is_fork tr :
  Table_init letter_name default_tester forced_tester
    (RowsString s) column_names column_types row_names is_fork tr
  = (Raise (ValueError RowsIsString), tr).
Proof. reflexivity. Qed.

(** *** C1 *)

Lemma update_app_last {A} (h : list A) (x y : A) :
  update (length h) x (h ++ [y]) = h ++ [x].
Proof. induction h as [ | z h IH]; simpl; [reflexivity | now rewrite IH]. Qed.

Lemma getattrs_step {A} h self t (k : Table -> Method A) tr :
  nth_error h self = Some (Some t) ->
  (let! t0 := getattrs self in k t0) h tr = k t h tr.
Proof. intros Hself. unfold mbind, getattrs. now rewrite Hself. Qed.

Lemma returns_new_step {A} (c : result A) (k : A -> Method ref)
    (k' : A -> M Table) h tr :
  (forall a, returns_new h (k a h tr) (k' a tr)) ->
  returns_new h ((let! a := compute (lift c) in k a) h tr)
    ((let* a := lift c in k' a) tr).
Proof.
  intros Hk. unfold mbind, compute, bind, lift. destruct c as [a | e].
  - apply Hk.
  - left. reflexivity.
Qed.

Lemma new_returns_new rows cn ct rn fork h tr :
  returns_new h
    (Obj.new letter_name default_tester forced_tester rows cn ct rn fork h tr)
    (Table_init letter_name default_tester forced_tester rows cn ct rn fork tr).
Proof.
  unfold Obj.new, Obj.init, mbind, new_object, compute, setattrs, mret.
  destruct (Table_init letter_name default_tester forced_tester rows cn ct rn
              fork tr) as [[t | e] tr']; simpl.
  - now rewrite update_app_last.
  - right. reflexivity.
Qed.

Lemma fork_returns_new h self t rows cn ct rn tr :
  nth_error h self = Some (Some t) ->
  returns_new h
    (Obj._fork letter_name default_tester forced_tester self rows cn ct rn h tr)
    (_fork letter_name default_tester forced_tester t rows cn ct rn tr).
Proof.
  intros Hself. unfold Obj._fork. rewrite (getattrs_step h self t _ tr Hself).
  apply new_returns_new.
Qed.

Lemma select_returns_new h self t key tr :
  nth_error h self = Some (Some t) ->
  returns_new h
    (Obj.select letter_name default_tester forced_tester self key h tr)
    (select letter_name default_tester forced_tester t key tr).
Proof.
  intros Hself. unfold Obj.select, select.
  rewrite (getattrs_step h self t _ tr Hself).
  apply returns_new_step. intros column_types.
  apply returns_new_step. intros new_rows.
  now apply fork_returns_new.
Qed.

Lemma row_names_step (c : option (result (list value)))
    (k : option (list value) -> Method ref)
    (k' : option (list value) -> M Table) h tr :
  (forall a, returns_new h (k a h tr) (k' a tr)) ->
  returns_new h
    ((let! a := match c with
                | Some r => let! l := compute (lift r) in mret (Some l)
                | None => mret None
                end in k a) h tr)
    ((let* a := match c with
                | Some r => let* l := lift r in ret (Some l)
                | None => ret None
                end in k' a) tr).
Proof.
  intros Hk. destruct c as [[l | e] | ];
    unfold mbind, compute, bind, lift, mret, ret; simpl.
  - apply Hk.
  - left. reflexivity.
  - apply Hk.
Qed.

(** Every operator on objects does what the operator on attributes
    computes, and stores the result in an object of its own. *)
Lemma apply_operator_returns_new h self t op tr :
  nth_error h self = Some (Some t) ->
  returns_new h
    (Obj.apply_operator letter_name default_tester forced_tester op self h tr)
    (apply_operator letter_name default_tester forced_tester op t tr).
Proof.
  intros Hself. destruct op as [key | key | test | key reverse | a b c | key
                                | cn rn]; simpl.
  - now apply select_returns_new.
  - unfold Obj.exclude, exclude.
    rewrite (getattrs_step h self t _ tr Hself).
    now apply select_returns_new.
  - unfold Obj.where_, where_.
    rewrite (getattrs_step h self t _ tr Hself).
    apply returns_new_step. intros out. now apply fork_returns_new.
  - unfold Obj.order_by, order_by.
    rewrite (getattrs_step h self t _ tr Hself).
    destruct (Nat.eqb (length (_rows t)) 0); [now apply fork_returns_new | ].
    apply returns_new_step. intros results.
    destruct (_row_names t) as [names | ].
    + apply (row_names_step
               (Some (rmap (row_name_at names) (map fst results)))).
      intros row_names. now apply fork_returns_new.
    + apply (row_names_step None).
      intros row_names. now apply fork_returns_new.
  - unfold Obj.limit, limit.
    rewrite (getattrs_step h self t _ tr Hself).
    apply returns_new_step. intros rows.
    destruct (_row_names t) as [names | ].
    + apply (row_names_step (Some (py_slice _ names))).
      intros row_names. now apply fork_returns_new.
    + apply (row_names_step None).
      intros row_names. now apply fork_returns_new.
  - unfold Obj.distinct, distinct.
    rewrite (getattrs_step h self t _ tr Hself).
    apply returns_new_step. intros out. now apply fork_returns_new.
  - unfold Obj.rename, rename.
    rewrite (getattrs_step h self t _ tr Hself).
    assert (Hrest : forall cn' row_names,
      returns_new h
        (match cn' with
         | Some (is_tuple, l) =>
             if negb (is_tuple && names_eqb l (_column_names t)) then
               Obj.new letter_name default_tester forced_tester
                 (RowsSeq (_rows t)) (Some l)
                 (TypesSeq (map IsDataType (_column_types t)))
                 (match match row_names with
                        | None => _row_names t
                        | Some l0 => Some l0
                        end with
                  | None => RowNamesNone
                  | Some l0 => RowNamesSeq l0
                  end) false
             else
               Obj._fork letter_name default_tester forced_tester self
                 (_rows t) (Some l)
                 (Some (map IsDataType (_column_types t))) row_names
         | None =>
             Obj._fork letter_name default_tester forced_tester self (_rows t)
               None (Some (map IsDataType (_column_types t))) row_names
         end h tr)
        (match cn' with
         | Some (is_tuple, l) =>
             if negb (is_tuple && names_eqb l (_column_names t)) then
               Table_init letter_name default_tester forced_tester
                 (RowsSeq (_rows t)) (Some l)
                 (TypesSeq (map IsDataType (_column_types t)))
                 (match match row_names with
                        | None => _row_names t
                        | Some l0 => Some l0
                        end with
                  | None => RowNamesNone
                  | Some l0 => RowNamesSeq l0
                  end) false
             else
               _fork letter_name default_tester forced_tester t (_rows t)
                 (Some l) (Some (map IsDataType (_column_types t))) row_names
         | None =>
             _fork letter_name default_tester forced_tester t (_rows t) None
               (Some (map IsDataType (_column_types t))) row_names
         end tr)).
    { intros [[is_tuple l] | ] row_names.
      - destruct (negb (is_tuple && names_eqb l (_column_names t))).
        + apply new_returns_new.
        + now apply fork_returns_new.
      - now apply fork_returns_new. }
    destruct rn as [[is_tuple l | d] | ].
    + apply Hrest.
    + destruct (_row_names t) as [names | ] eqn:Ern.
      * unfold mbind, bind, mret, ret.
        apply (Hrest _ (Some (map (fun n => match value_assoc n d with
                                            | Some n' => n'
                                            | None => n
                                            end) names))).
      * left. reflexivity.
    + apply Hrest.
Qed.

(** C1: a call of any transformation operator (select, exclude, where,
    order_by, limit, distinct, rename) on a Table object leaves that
    object, and every object that existed before the call, as it was: after
    the call the receiver's column names, column types, rows, columns and
    row names are the ones it had before, whether the call returns or
    raises.  When the call returns, it returns a reference to a new object,
    different from the receiver and from every object that existed before
    the call, whose attributes are the ones the operator computes from the
    receiver's; when it raises, it raises what that computation raises. *)
Theorem operators_do_not_mutate h self t op tr res h' tr' :
  nth_error h self = Some (Some t) ->
  Obj.apply_operator letter_name default_tester forced_tester op self h tr
  = (res, h', tr') ->
  (forall r, r < length h -> nth_error h' r = nth_error h r)
  /\ (exists t1,
        nth_error h' self = Some (Some t1)
        /\ _column_names t1 = _column_names t
        /\ _column_types t1 = _column_types t
        /\ _rows t1 = _rows t
        /\ _columns t1 = _columns t
        /\ _row_names t1 = _row_names t)
  /\ (forall r, res = Ok r ->
        r <> self /\ nth_error h r = None
        /\ exists t', nth_error h' r = Some (Some t')
             /\ apply_operator letter_name default_tester forced_tester
                  op t tr = (Ok t', tr'))
  /\ (forall e, res = Raise e ->
        apply_operator letter_name default_tester forced_tester op t tr
        = (Raise e, tr')).
Proof.
  intros Hself Hcall.
  assert (Hlt : self < length h) by (apply nth_error_Some; congruence).
  pose proof (apply_operator_returns_new h self t op tr Hself) as Hnew.
  rewrite Hcall in Hnew. unfold returns_new in Hnew.
  destruct (apply_operator letter_name default_tester forced_tester op t tr)
    as [[t' | e] tr1].
  - inversion Hnew; subst res h' tr'. split; [ | split; [ | split]].
    + intros r Hr. now rewrite nth_error_app1.
    + exists t. rewrite nth_error_app1 by assumption. auto 10.
    + intros r Hr. inversion Hr; subst r. split; [lia | ]. split.
      * apply nth_error_None. lia.
      * exists t'. rewrite nth_error_app2, Nat.sub_diag by lia. auto.
    + intros e Hr. discriminate.
  - assert (Hout : res = Raise e /\ tr' = tr1
                   /\ (h' = h \/ h' = h ++ [None])).
    { destruct Hnew as [Hnew | Hnew]; inversion Hnew; auto. }
    destruct Hout as (-> & -> & Hh'). split; [ | split; [ | split]].
    + intros r Hr. destruct Hh' as [-> | ->]; [reflexivity | ].
      now rewrite nth_error_app1.
    + exists t. split; [ | auto 10].
      destruct Hh' as [-> | ->]; [assumption | ].
      now rewrite nth_error_app1.
    + intros r Hr. discriminate.
    + intros e0 Hr. now inversion Hr.
Qed.

(** *** C2 *)

Lemma limit_inv self a b c tr t' tr' :
  limit letter_name default_tester forced_tester self a b c tr = (Ok t', tr') ->
  let s := if truthy b || truthy c then mkSlice a b c else slice1 a in
  py_slice s (_rows self) = Ok (_rows t') /\ row_names_sliced s self t'.
Proof.
  unfold limit. intros H.
  apply bind_Ok in H. destruct H as (rows & tr1 & Hr & H).
  apply lift_Ok in Hr. destruct Hr as [Hr ->].
  apply bind_Ok in H. destruct H as (rn & tr2 & Hn & H).
  apply fork_inv in H. destruct H as [Hrows Hnames].
  simpl. rewrite Hrows. split; [assumption | ].
  unfold row_names_sliced. destruct (_row_names self) as [names | ].
  - apply bind_Ok in Hn. destruct Hn as (l & tr3 & Hl & Hn).
    apply lift_Ok in Hl. destruct Hl as [Hl ->].
    apply ret_Ok in Hn. destruct Hn as [-> ->].
    exists l. auto.
  - apply ret_Ok in Hn. destruct Hn as [-> ->]. assumption.
Qed.

(** C2, amended: when [stop] or [step] is given and is not zero,
    [limit(a, b, c)] has the rows [rows[a:b:c]]; when neither is given,
    [limit(a)] has the rows [rows[:a]], the single argument being the stop
    bound: for a natural number [a], the first [a] rows.  In both cases the
    same slice is taken of the row names when the table has them (an empty
    slice leaves the new table without row names). *)
Theorem limit_slice_parity self a b c tr t' tr' :
  limit letter_name default_tester forced_tester self a b c tr = (Ok t', tr') ->
  (truthy b || truthy c = true ->
     py_slice (mkSlice a b c) (_rows self) = Ok (_rows t')
     /\ row_names_sliced (mkSlice a b c) self t')
  /\ (b = None -> c = None ->
      py_slice (mkSlice None a None) (_rows self) = Ok (_rows t')
      /\ row_names_sliced (mkSlice None a None) self t'
      /\ forall n, a = Some (Z.of_nat n) -> _rows t' = firstn n (_rows self)).
Proof.
  intros H. apply limit_inv in H. split.
  - intros Hbc. rewrite Hbc in H. exact H.
  - intros -> ->. destruct H as [Hrows Hnames].
    split; [exact Hrows | ]. split; [exact Hnames | ].
    intros n ->. simpl in Hrows. unfold slice1 in Hrows.
    rewrite py_slice_stop_firstn in Hrows. now inversion Hrows.
Qed.

(** *** C7 *)



(** *** C8 *)

Lemma resolve_column_names_kept names rows tr :
  NoDup names ->
  (forall row, In row rows -> length (values row) = length names) ->
  exists tr1,
    resolve_column_names letter_name (Some (map NameStr names)) rows tr
    = (Ok names, tr1).
Proof.
  intros Hnd Hrows. destruct names as [ | n names].
  - simpl. destruct rows as [ | row0 rows].
    + eexists. reflexivity.
    + rewrite (Hrows row0) by now left. simpl. eexists. reflexivity.
  - exists tr.
    apply (validate_column_names_fresh (n :: names) [] 0 tr Hnd).
Qed.

(** The fork path of the constructor, given the names and types of a
    table and rows of its shape, stores exactly what it is given. *)
Lemma Table_init_fork_ok names types rows rn computed tr :
  NoDup names -> length names = length types ->
  (forall row, In row rows -> length (values row) = length names) ->
  compute_row_names rn rows = Ok computed ->
  exists tr1,
    Table_init letter_name default_tester forced_tester
      (RowsSeq rows) (Some (map NameStr names))
      (TypesSeq (map IsDataType types)) rn true tr
    = (Ok (mkTable names types computed rows
             (build_columns names types rows computed)), tr1).
Proof.
  intros Hnd Hlen Hrows Hc.
  destruct (resolve_column_names_kept names rows tr Hnd Hrows) as [tr1 Hn].
  exists tr1. unfold Table_init, bind. rewrite Hn.
  unfold resolve_column_types, lift. rewrite check_types_ok.
  rewrite Hlen, Nat.eqb_refl. simpl. unfold ret. rewrite Hc. reflexivity.
Qed.

Lemma compute_row_names_of_table t rows :
  table_invariant t ->
  compute_row_names (match _row_names t with
                     | Some l => RowNamesSeq l
                     | None => RowNamesNone
                     end) rows
  = Ok (match _row_names t with
        | Some l => stored_row_names l
        | None => None
        end).
Proof.
  intros Hinv. destruct (_row_names t) as [l | ] eqn:E; [ | reflexivity].
  pose proof (inv_row_names t Hinv l E) as Hint.
  unfold compute_row_names. destruct l as [ | v l]; [reflexivity | ].
  cbn [row_names_truthy length Nat.eqb negb rbind]. now rewrite Hint.
Qed.




(** *** C6 *)

Lemma Table_init_casting rows cn ct rn tr names types tr1 tr2 :
  resolve_column_names letter_name cn rows tr = (Ok names, tr1) ->
  resolve_column_types default_tester forced_tester ct rows names tr1
  = (Ok types, tr2) ->
  length names = length types ->
  Table_init letter_name default_tester forced_tester
    (RowsSeq rows) cn ct rn false tr
  = (let* new_rows := cast_rows types names 0 rows in
     let* computed := lift (compute_row_names rn new_rows) in
     ret (mkTable names types computed new_rows
            (build_columns names types new_rows computed))) tr2.
Proof.
  intros Hn Ht Hlen. unfold Table_init. unfold bind at 1. rewrite Hn.
  unfold bind at 1. rewrite Ht. rewrite Hlen, Nat.eqb_refl. reflexivity.
Qed.

Lemma casts_succeed_cast_all types n r :
  n = length types -> length (values r) <= n ->
  casts_succeed types (padded n r) ->
  exists vs, cast_all types 0 (padded n r) = Ok vs.
Proof.
  intros Hn Hle Hc. apply cast_all_succeeds.
  - rewrite padded_length by assumption. simpl. lia.
  - intros j d c Hj Hcj. apply (Hc j d c Hj Hcj).
Qed.

Lemma Table_init_too_long rows cn ct rn tr names types tr1 tr2 :
  resolve_column_names letter_name cn rows tr = (Ok names, tr1) ->
  resolve_column_types default_tester forced_tester ct rows names tr1
  = (Ok types, tr2) ->
  length names = length types ->
  forall k row,
    nth_error rows k = Some row ->
    length names < length (values row) ->
    (forall j r, j < k -> nth_error rows j = Some r ->
       length (values r) <= length names
       /\ casts_succeed types (padded (length names) r)) ->
    Table_init letter_name default_tester forced_tester
      (RowsSeq rows) cn ct rn false tr
    = (Raise (ValueError (RowTooLong k (length (values row)) (length names))),
       tr2 ++ casting_events (length names) (firstn k rows)).
Proof.
  intros Hn Ht Hlen k row Hk Hlong Hbefore.
  rewrite (Table_init_casting rows cn ct rn tr names types tr1 tr2 Hn Ht Hlen).
  unfold bind at 1.
  rewrite (cast_rows_too_long types names rows 0 tr2 k row Hk Hlong);
    [reflexivity | ].
  intros j r Hj Hr. destruct (Hbefore j r Hj Hr) as [Hle Hc].
  split; [assumption | ].
  now apply casts_succeed_cast_all.
Qed.

Lemma Table_init_cast_stored rows cn ct rn tr names types tr1 tr2 :
  resolve_column_names letter_name cn rows tr = (Ok names, tr1) ->
  resolve_column_types default_tester forced_tester ct rows names tr1
  = (Ok types, tr2) ->
  length names = length types ->
  forall t tr',
    Table_init letter_name default_tester forced_tester
      (RowsSeq rows) cn ct rn false tr = (Ok t, tr') ->
    _column_names t = names /\ _column_types t = types
    /\ length (_rows t) = length rows
    /\ tr' = tr2 ++ casting_events (length names) rows
    /\ forall k row,
         nth_error rows k = Some row ->
         length (values row) <= length names
         /\ exists stored,
              nth_error (_rows t) k = Some stored
              /\ keys stored = names
              /\ length (values stored) = length names
              /\ forall j d,
                   nth_error (padded (length names) row) j = Some d ->
                   exists c v,
                     nth_error types j = Some c /\ cast c d = Ok v
                     /\ nth_error (values stored) j = Some v.
Proof.
  intros Hn Ht Hlen t tr' H.
  rewrite (Table_init_casting rows cn ct rn tr names types tr1 tr2 Hn Ht Hlen)
    in H.
  apply bind_Ok in H. destruct H as (new_rows & tr3 & Hrows & H).
  apply bind_Ok in H. destruct H as (computed & tr4 & Hc & H).
  apply lift_Ok in Hc. destruct Hc as [Hc ->].
  apply ret_Ok in H. destruct H as [-> ->]. simpl.
  apply cast_rows_Ok in Hrows. destruct Hrows as (Hl & -> & Hpt).
  repeat (split; [reflexivity || assumption | ]).
  intros k row Hk. destruct (Hpt k row Hk) as (Hle & vs & Hvs & Hst).
  split; [assumption | ]. exists (mkRow vs names).
  apply cast_all_pointwise in Hvs. destruct Hvs as [Hlvs Hcells].
  rewrite padded_length in Hlvs by assumption.
  repeat (split; [reflexivity || assumption | ]).
  intros j d Hj. apply (Hcells j d Hj).
Qed.

(** The casting loop runs to its end when no row is too long and every
    cast returns; construction then returns a table unless the row names
    are rejected. *)
Lemma Table_init_cast_total rows cn ct rn tr names types tr1 tr2 :
  resolve_column_names letter_name cn rows tr = (Ok names, tr1) ->
  resolve_column_types default_tester forced_tester ct rows names tr1
  = (Ok types, tr2) ->
  length names = length types ->
  (forall k row,
      nth_error rows k = Some row ->
      length (values row) <= length names
      /\ casts_succeed types (padded (length names) row)) ->
  exists new_rows,
    length new_rows = length rows
    /\ Table_init letter_name default_tester forced_tester
         (RowsSeq rows) cn ct rn false tr
       = match compute_row_names rn new_rows with
         | Ok computed =>
             (Ok (mkTable names types computed new_rows
                    (build_columns names types new_rows computed)),
              tr2 ++ casting_events (length names) rows)
         | Raise e => (Raise e, tr2 ++ casting_events (length names) rows)
         end.
Proof.
  intros Hn Ht Hlen Hrows.
  rewrite (Table_init_casting rows cn ct rn tr names types tr1 tr2 Hn Ht Hlen).
  destruct (cast_rows_total types names rows 0 tr2) as [new_rows Hnew].
  { intros k row Hk. destruct (Hrows k row Hk) as [Hle Hc].
    split; [assumption | ]. now apply casts_succeed_cast_all. }
  exists new_rows. split.
  - apply cast_rows_Ok in Hnew. now destruct Hnew as [Hl _].
  - unfold bind at 1. rewrite Hnew. unfold bind, lift, ret.
    now destruct (compute_row_names rn new_rows).
Qed.

(** C6: in validated construction, once the column names and types are
    resolved, the casting loop treats every row as follows.  A row with
    more values than columns, reached after rows that were cast without
    error, makes construction fail with the [ValueError] that carries the
    position of that row.  When construction succeeds, no row has more
    values than columns, and the row stored at each position holds, for
    every cell of the input row filled out with nulls to the column count,
    the result of the cast of that cell's column; the log shows exactly one
    cast call per such cell, row by row and cell by cell.  And construction
    does get that far: when no row has more values than columns and every
    cast of a cell of a filled-out row returns, the loop produces one row
    per input row, and construction returns the table of these rows unless
    the row names are rejected. *)
Theorem casting_loop rows cn ct rn tr names types tr1 tr2 :
  resolve_column_names letter_name cn rows tr = (Ok names, tr1) ->
  resolve_column_types default_tester forced_tester ct rows names tr1
  = (Ok types, tr2) ->
  length names = length types ->
  (forall k row,
      nth_error rows k = Some row ->
      length names < length (values row) ->
      (forall j r, j < k -> nth_error rows j = Some r ->
         length (values r) <= length names
         /\ casts_succeed types (padded (length names) r)) ->
      Table_init letter_name default_tester forced_tester
        (RowsSeq rows) cn ct rn false tr
      = (Raise (ValueError (RowTooLong k (length (values row)) (length names))),
         tr2 ++ casting_events (length names) (firstn k rows)))
  /\ (forall t tr',
        Table_init letter_name default_tester forced_tester
          (RowsSeq rows) cn ct rn false tr = (Ok t, tr') ->
        _column_names t = names /\ _column_types t = types
        /\ length (_rows t) = length rows
        /\ tr' = tr2 ++ casting_events (length names) rows
        /\ forall k row,
             nth_error rows k = Some row ->
             length (values row) <= length names
             /\ exists stored,
                  nth_error (_rows t) k = Some stored
                  /\ keys stored = names
                  /\ length (values stored) = length names
                  /\ forall j d,
                       nth_error (padded (length names) row) j = Some d ->
                       exists c v,
                         nth_error types j = Some c /\ cast c d = Ok v
                         /\ nth_error (values stored) j = Some v)
  /\ ((forall k row,
         nth_error rows k = Some row ->
         length (values row) <= length names
         /\ casts_succeed types (padded (length names) row)) ->
      exists new_rows,
        length new_rows = length rows
        /\ Table_init letter_name default_tester forced_tester
             (RowsSeq rows) cn ct rn false tr
           = match compute_row_names rn new_rows with
             | Ok computed =>
                 (Ok (mkTable names types computed new_rows
                        (build_columns names types new_rows computed)),
                  tr2 ++ casting_events (length names) rows)
             | Raise e =>
                 (Raise e, tr2 ++ casting_events (length names) rows)
             end).
Proof.
  intros Hn Ht Hlen. split; [ | split].
  - now apply (Table_init_too_long rows cn ct rn tr names types tr1 tr2).
  - now apply (Table_init_cast_stored rows cn ct rn tr names types tr1 tr2).
  - now apply (Table_init_cast_total rows cn ct rn tr names types tr1 tr2).
Qed.

(** Validated construction establishes the invariants of a Table.  When
    no column names are supplied the placeholder names must be distinct,
    which is a property of [letter_name]. *)
Lemma validated_table_invariant rows cn ct rn tr t tr' :
  (forall i j, letter_name i = letter_name j -> i = j) ->
  Table_init letter_name default_tester forced_tester (RowsSeq rows) cn ct rn
    false tr = (Ok t, tr') ->
  table_invariant t.
Proof.
  intros Hinj H. apply Table_init_inv in H.
  destruct H as (names & types & new_rows & computed & tr1 & tr2
                 & Hn & _ & Hl & Hr & Hc & ->).
  constructor; simpl.
  - assert (Hletters : forall n, NoDup (map letter_name (seq 0 n))).
    { intros n. apply NoDup_map_NoDup_ForallPairs; [ | apply seq_NoDup].
      intros a b _ _. apply Hinj. }
    unfold resolve_column_names in Hn.
    destruct cn as [[ | n l] | ].
    + destruct rows as [ | row0 rows].
      * apply ret_Ok in Hn. destruct Hn as [-> _]. constructor.
      * apply bind_Ok in Hn. destruct Hn as ([] & tr3 & _ & Hn).
        apply ret_Ok in Hn. destruct Hn as [-> _]. apply Hletters.
    + eapply validate_column_names_NoDup; [exact Hn | constructor].
    + destruct rows as [ | row0 rows].
      * apply ret_Ok in Hn. destruct Hn as [-> _]. constructor.
      * apply bind_Ok in Hn. destruct Hn as ([] & tr3 & _ & Hn).
        apply ret_Ok in Hn. destruct Hn as [-> _]. apply Hletters.
  - exact Hl.
  - reflexivity.
  - intros row Hrow. apply cast_rows_Ok in Hr. destruct Hr as (Hlen & _ & Hpt).
    apply In_nth_error in Hrow. destruct Hrow as [k Hk].
    destruct (nth_error rows k) as [row_in | ] eqn:Ein.
    + destruct (Hpt k row_in Ein) as (Hle & vs & Hvs & Hst).
      rewrite Hk in Hst. inversion Hst; subst row. simpl.
      split; [reflexivity | ].
      apply cast_all_pointwise in Hvs. destruct Hvs as [Hlvs _].
      now rewrite Hlvs, padded_length.
    + apply nth_error_None in Ein.
      assert (k < length new_rows) by (apply nth_error_Some; congruence). lia.
  - intros rnames ->. unfold compute_row_names in Hc.
    destruct (row_names_truthy rn); [ | discriminate].
    apply rbind_Ok in Hc. destruct Hc as (computed & _ & Hc).
    destruct (existsb is_int computed) eqn:E; [discriminate | ].
    inversion Hc; subst. exact E.
Qed.

(** *** C10 *)

(** C10: when no column names are supplied (none at all, or an empty
    sequence) and there is at least one row, the column names are the
    placeholder names of the positions of the first row, as many as it has
    values.  So a table that is constructed has that many columns, none of
    its rows had more values than the first one, and each stored row has
    that many values, those beyond the ones supplied being the casts of
    null; a later row with more values than the first, reached after
    rows that were cast without error, makes construction fail with the
    [ValueError] carrying that row's position; and when no row has more
    values than the first and every cast of a cell of a filled-out row
    returns, construction returns the table of the filled-out and cast
    rows unless the row names are rejected. *)
Theorem placeholder_names_from_first_row row0 rest cn ct rn tr :
  cn = None \/ cn = Some [] ->
  resolve_column_names letter_name cn (row0 :: rest) tr
  = (Ok (placeholder_names letter_name row0),
     tr ++ [Warn (NoColumnNames (placeholder_names letter_name row0))])
  /\ length (placeholder_names letter_name row0) = length (values row0)
  /\ (forall t tr',
        Table_init letter_name default_tester forced_tester
          (RowsSeq (row0 :: rest)) cn ct rn false tr = (Ok t, tr') ->
        _column_names t = placeholder_names letter_name row0
        /\ length (_column_types t) = length (values row0)
        /\ forall k row,
             nth_error (row0 :: rest) k = Some row ->
             length (values row) <= length (values row0)
             /\ exists stored,
                  nth_error (_rows t) k = Some stored
                  /\ length (values stored) = length (values row0)
                  /\ forall j,
                       length (values row) <= j ->
                       j < length (values row0) ->
                       exists c v,
                         nth_error (_column_types t) j = Some c
                         /\ cast c VNone = Ok v
                         /\ nth_error (values stored) j = Some v)
  /\ (forall types tr2 k row,
        resolve_column_types default_tester forced_tester ct (row0 :: rest)
          (placeholder_names letter_name row0)
          (tr ++ [Warn (NoColumnNames (placeholder_names letter_name row0))])
        = (Ok types, tr2) ->
        length types = length (values row0) ->
        nth_error (row0 :: rest) k = Some row ->
        length (values row0) < length (values row) ->
        (forall j r, j < k -> nth_error (row0 :: rest) j = Some r ->
           length (values r) <= length (values row0)
           /\ casts_succeed types (padded (length (values row0)) r)) ->
        Table_init letter_name default_tester forced_tester
          (RowsSeq (row0 :: rest)) cn ct rn false tr
        = (Raise (ValueError (RowTooLong k (length (values row))
                                (length (values row0)))),
           tr2 ++ casting_events (length (values row0))
                    (firstn k (row0 :: rest))))
  /\ (forall types tr2,
        resolve_column_types default_tester forced_tester ct (row0 :: rest)
          (placeholder_names letter_name row0)
          (tr ++ [Warn (NoColumnNames (placeholder_names letter_name row0))])
        = (Ok types, tr2) ->
        length types = length (values row0) ->
        (forall k row, nth_error (row0 :: rest) k = Some row ->
           length (values row) <= length (values row0)
           /\ casts_succeed types (padded (length (values row0)) row)) ->
        exists new_rows,
          length new_rows = length (row0 :: rest)
          /\ Table_init letter_name default_tester forced_tester
               (RowsSeq (row0 :: rest)) cn ct rn false tr
             = match compute_row_names rn new_rows with
               | Ok computed =>
                   (Ok (mkTable (placeholder_names letter_name row0) types
                          computed new_rows
                          (build_columns (placeholder_names letter_name row0)
                             types new_rows computed)),
                    tr2 ++ casting_events (length (values row0))
                             (row0 :: rest))
               | Raise e =>
                   (Raise e,
                    tr2 ++ casting_events (length (values row0))
                             (row0 :: rest))
               end).
Proof.
  intros Hcn.
  set (rows := row0 :: rest). set (n := length (values row0)).
  set (names := placeholder_names letter_name row0).
  set (tr1 := tr ++ [Warn (NoColumnNames names)]).
  assert (Hnames : resolve_column_names letter_name cn rows tr = (Ok names, tr1))
    by (destruct Hcn as [-> | ->]; reflexivity).
  assert (Hlen : length names = n)
    by (unfold names, placeholder_names; now rewrite length_map, length_seq).
  split; [exact Hnames | ]. split; [exact Hlen | ]. split; [ | split].
  - intros t tr' H.
    destruct (Table_init_inv _ _ _ _ _ _ _ _ H)
      as (names' & types & new_rows & computed & tr1' & tr2
          & Hn' & Ht & Hl & _ & _ & Ht').
    rewrite Hnames in Hn'. inversion Hn'; subst names' tr1'.
    destruct (Table_init_cast_stored rows cn ct rn tr names types tr1 tr2
                Hnames Ht Hl t tr' H) as (Hcn' & Hct' & _ & _ & Hrows).
    split; [assumption | ]. split; [rewrite Hct'; lia | ].
    intros k row Hk.
    destruct (Hrows k row Hk) as (Hle & stored & Hst & _ & Hls & Hcells).
    rewrite Hlen in *. split; [assumption | ]. exists stored.
    split; [assumption | ]. split; [assumption | ].
    intros j Hj1 Hj2. rewrite Hct'. apply Hcells. unfold padded.
    rewrite nth_error_app2 by assumption.
    rewrite nth_error_repeat by lia. reflexivity.
  - intros types tr2 k row Ht Hlt Hk Hlong Hbefore.
    assert (Hl : length names = length types) by lia.
    pose proof (Table_init_too_long rows cn ct rn tr names types tr1 tr2
                  Hnames Ht Hl k row Hk) as Hfail.
    rewrite Hlen in Hfail. apply Hfail; assumption.
  - intros types tr2 Ht Hlt Hrows.
    assert (Hl : length names = length types) by lia.
    pose proof (Table_init_cast_total rows cn ct rn tr names types tr1 tr2
                  Hnames Ht Hl) as Htotal.
    rewrite Hlen in Htotal. apply Htotal. assumption.
Qed.

(** *** C5 *)



End Properties.

(* ------------------------------------------------------------------ *)
(** ** The properties at the sample data *)

Lemma operators_do_not_mutate_witness :
  nth_error [Some sample_table] 0 = Some (Some sample_table)
  /\ exists t',
       Obj.apply_operator sample_letter_name sample_tester
         sample_forced_tester (Select (OneName "name")) 0
         [Some sample_table] []
       = (Ok 1, [Some sample_table; Some t'], [])
       /\ map values (_rows t') = [[VStr "a"]; [VStr "b"]; [VStr "a"]]
       /\ (forall r, r < 1 ->
             nth_error [Some sample_table; Some t'] r
             = nth_error [Some sample_table] r)
       /\ (forall r, Ok 1 = Ok r ->
             r <> 0 /\ nth_error [Some sample_table] r = None
             /\ exists t'',
                  nth_error [Some sample_table; Some t'] r = Some (Some t'')
                  /\ apply_operator sample_letter_name sample_tester
                       sample_forced_tester (Select (OneName "name"))
                       sample_table [] = (Ok t'', [])).
Proof.
  split; [reflexivity | ].
  eexists.
  lazymatch goal with
  | |- ?run = ?out /\ _ =>
      assert (Hrun : run = out) by (vm_compute; reflexivity)
  end.
  split; [exact Hrun | ]. split; [reflexivity | ].
  destruct (operators_do_not_mutate sample_letter_name sample_tester
              sample_forced_tester [Some sample_table] 0 sample_table
              (Select (OneName "name")) [] _ _ _ eq_refl Hrun)
    as (Hframe & _ & Hnew & _).
  split; [exact Hframe | exact Hnew].
Defined.

(** C2 as stated fails: [limit(1)] of the three sample rows is the first
    row, while [rows[1:None:None]] is the last two. *)
Lemma limit_single_argument_is_stop :
  exists t',
    limit sample_letter_name sample_tester sample_forced_tester
      sample_table (Some 1%Z) None None [] = (Ok t', [])
    /\ map values (_rows t') = [[VInt 1; VStr "a"]]
    /\ option_map (map values)
         (match py_slice (mkSlice (Some 1%Z) None None) (_rows sample_table) with
          | Ok l => Some l
          | Raise _ => None
          end)
       = Some [[VInt 2; VStr "b"]; [VInt 3; VStr "a"]]
    /\ py_slice (mkSlice (Some 1%Z) None None) (_rows sample_table)
       <> Ok (_rows t').
Proof.
  eexists. split; [reflexivity | ]. split; [reflexivity | ].
  split; [reflexivity | ]. vm_compute. discriminate.
Qed.

Lemma limit_slice_parity_witness :
  exists t',
    limit sample_letter_name sample_tester sample_forced_tester
      sample_named_table (Some 1%Z) (Some 3%Z) None [] = (Ok t', [])
    /\ (truthy (Some 3%Z) || truthy None = true ->
          py_slice (mkSlice (Some 1%Z) (Some 3%Z) None) (_rows sample_named_table)
          = Ok (_rows t')
          /\ row_names_sliced (mkSlice (Some 1%Z) (Some 3%Z) None)
               sample_named_table t').
Proof.
  eexists. split; [reflexivity | ].
  eapply (limit_slice_parity sample_letter_name sample_tester
            sample_forced_tester sample_named_table (Some 1%Z) (Some 3%Z) None
            []).
  reflexivity.
Defined.

(** C3: the composite key of a row with a null cell is the tuple as it is,
    not the null-ordering sentinel, and comparing it with the key of a row
    that differs only in that cell compares [None] with a value: [order_by]
    raises [TypeError], with [reverse] and without. *)
Theorem composite_key_null_raises :
  order_by sample_letter_name sample_tester sample_forced_tester null_table
    (ByNames ["id"%string; "name"%string]) false []
  = (Raise TypeError, [])
  /\ order_by sample_letter_name sample_tester sample_forced_tester null_table
       (ByNames ["id"%string; "name"%string]) true []
     = (Raise TypeError, [])
  /\ sort_key (ByNames ["id"%string; "name"%string])
       (1, sample_row [VInt 1; VNone])
     = Ok (Key (VTuple [VInt 1; VNone])).
Proof. repeat split. Qed.

(** The single-column path does replace a null key by the sentinel: the row
    with the null name sorts first, and last with [reverse]. *)
Example single_key_null_sorts_first :
  exists t1 t2,
    order_by sample_letter_name sample_tester sample_forced_tester null_table
      (ByName "name") false [] = (Ok t1, [])
    /\ map values (_rows t1) = [[VInt 1; VNone]; [VInt 1; VStr "a"]]
    /\ order_by sample_letter_name sample_tester sample_forced_tester
         null_table (ByName "name") true [] = (Ok t2, [])
    /\ map values (_rows t2) = [[VInt 1; VStr "a"]; [VInt 1; VNone]].
Proof. do 2 eexists. repeat split. Qed.

(** C4: with a sequence of column names as key, [distinct] compares
    generator objects, which are all different: the three sample rows are
    all kept although the first and the third have the same name.  With the
    column name itself as key the third row is dropped. *)
Theorem distinct_sequence_key_keeps_duplicates :
  exists t1 t2,
    distinct sample_letter_name sample_tester sample_forced_tester
      sample_table (ByNames ["name"%string]) [] = (Ok t1, [])
    /\ map values (_rows t1)
       = [[VInt 1; VStr "a"]; [VInt 2; VStr "b"]; [VInt 3; VStr "a"]]
    /\ distinct sample_letter_name sample_tester sample_forced_tester
         sample_table (ByName "name") [] = (Ok t2, [])
    /\ map values (_rows t2) = [[VInt 1; VStr "a"]; [VInt 2; VStr "b"]].
Proof. do 2 eexists. repeat split. Qed.



Lemma sample_casts_succeed cells : casts_succeed [Text; Nullable] cells.
Proof.
  intros j d c Hd Hc. destruct j as [ | [ | j]]; simpl in Hc.
  - inversion Hc; subst c. eexists. reflexivity.
  - inversion Hc; subst c. simpl. destruct d; try (eexists; reflexivity).
    destruct (String.eqb s ""); eexists; reflexivity.
  - destruct j; discriminate.
Defined.

Lemma raw_rows_fit k row :
  nth_error raw_rows k = Some row ->
  length (values row) <= 2
  /\ casts_succeed [Text; Nullable] (padded 2 row).
Proof.
  intros Hk. split; [ | apply sample_casts_succeed].
  destruct k as [ | [ | k]]; simpl in Hk;
    [ | | destruct k; discriminate]; inversion Hk; subst row; simpl; lia.
Defined.

Lemma casting_loop_witness :
  resolve_column_names sample_letter_name sample_names raw_rows []
  = (Ok ["id"%string; "name"%string], [])
  /\ resolve_column_types sample_tester sample_forced_tester sample_types
       raw_rows ["id"%string; "name"%string] []
     = (Ok [Text; Nullable], [])
  /\ length ["id"%string; "name"%string] = length [Text; Nullable]
  /\ (exists t,
        Table_init sample_letter_name sample_tester sample_forced_tester
          (RowsSeq raw_rows) sample_names sample_types RowNamesNone false []
        = (Ok t, [CastCall 0 (VStr "x"); CastCall 1 (VStr "");
                  CastCall 0 (VStr "y"); CastCall 1 VNone])
        /\ map values (_rows t) = [[VStr "x"; VNone]; [VStr "y"; VNone]]
        /\ _column_names t = ["id"%string; "name"%string]
        /\ length (_rows t) = length raw_rows)
  /\ (exists new_rows,
        length new_rows = length raw_rows
        /\ Table_init sample_letter_name sample_tester sample_forced_tester
             (RowsSeq raw_rows) sample_names sample_types RowNamesNone false
             []
           = (Ok (mkTable ["id"%string; "name"%string] [Text; Nullable] None
                    new_rows
                    (build_columns ["id"%string; "name"%string]
                       [Text; Nullable] new_rows None)),
              [] ++ casting_events 2 raw_rows))
  /\ Table_init sample_letter_name sample_tester sample_forced_tester
       (RowsSeq raw_rows_long) sample_names sample_types RowNamesNone false []
     = (Raise (ValueError (RowTooLong 1 3 2)),
        [CastCall 0 (VStr "x"); CastCall 1 (VStr "")]).
Proof.
  split; [reflexivity | ]. split; [reflexivity | ]. split; [reflexivity | ].
  destruct (casting_loop sample_letter_name sample_tester
              sample_forced_tester raw_rows sample_names sample_types
              RowNamesNone [] ["id"%string; "name"%string] [Text; Nullable]
              [] [] eq_refl eq_refl eq_refl) as (_ & Hok & Htotal).
  split; [ | split].
  - eexists.
    lazymatch goal with
    | |- ?run = ?out /\ _ =>
        assert (Hrun : run = out) by (vm_compute; reflexivity)
    end.
    split; [exact Hrun | ]. split; [reflexivity | ].
    destruct (Hok _ _ Hrun) as (Hcn & _ & Hl & _). split; assumption.
  - exact (Htotal raw_rows_fit).
  - destruct (casting_loop sample_letter_name sample_tester
                sample_forced_tester raw_rows_long sample_names sample_types
                RowNamesNone [] ["id"%string; "name"%string] [Text; Nullable]
                [] [] eq_refl eq_refl eq_refl) as (Hfail & _).
    apply (Hfail 1 (raw [VStr "y"; VStr "z"; VStr "w"]) eq_refl).
    + simpl. lia.
    + intros j r Hj Hr. destruct j as [ | j]; [ | lia].
      simpl in Hr. inversion Hr; subst r. split; [simpl; lia | ].
      apply sample_casts_succeed.
Defined.


Lemma sample_named_table_invariant : table_invariant sample_named_table.
Proof.
  constructor.
  - simpl. repeat constructor; simpl; intuition discriminate.
  - reflexivity.
  - reflexivity.
  - intros row Hrow. simpl in Hrow.
    destruct Hrow as [<- | [<- | [<- | []]]]; split; reflexivity.
  - intros names H. simpl in H. inversion H. reflexivity.
Defined.



Lemma placeholder_names_from_first_row_witness :
  (@None (list name_arg) = None \/ @None (list name_arg) = Some [])
  /\ resolve_column_names sample_letter_name None raw_rows []
     = (Ok ["a"%string; "b"%string],
        [Warn (NoColumnNames ["a"%string; "b"%string])])
  /\ (exists t tr',
        Table_init sample_letter_name sample_tester sample_forced_tester
          (RowsSeq raw_rows) None sample_types RowNamesNone false []
        = (Ok t, tr')
        /\ map values (_rows t) = [[VStr "x"; VNone]; [VStr "y"; VNone]]
        /\ _column_names t = ["a"%string; "b"%string]
        /\ length (_column_types t) = 2)
  /\ (exists new_rows,
        length new_rows = length raw_rows
        /\ Table_init sample_letter_name sample_tester sample_forced_tester
             (RowsSeq raw_rows) None sample_types RowNamesNone false []
           = (Ok (mkTable ["a"%string; "b"%string] [Text; Nullable] None
                    new_rows
                    (build_columns ["a"%string; "b"%string]
                       [Text; Nullable] new_rows None)),
              [Warn (NoColumnNames ["a"%string; "b"%string])]
              ++ casting_events 2 raw_rows))
  /\ Table_init sample_letter_name sample_tester sample_forced_tester
       (RowsSeq raw_rows_long) None sample_types RowNamesNone false []
     = (Raise (ValueError (RowTooLong 1 3 2)),
        [Warn (NoColumnNames ["a"%string; "b"%string]);
         CastCall 0 (VStr "x"); CastCall 1 (VStr "")]).
Proof.
  split; [left; reflexivity | ].
  destruct (placeholder_names_from_first_row sample_letter_name sample_tester
              sample_forced_tester (raw [VStr "x"; VStr ""]) [raw [VStr "y"]]
              None sample_types RowNamesNone [] (or_introl eq_refl))
    as (Hnames & _ & Hok & _ & Htotal).
  split; [exact Hnames | ]. split; [ | split].
  - do 2 eexists.
    lazymatch goal with
    | |- ?run = ?out /\ _ =>
        assert (Hrun : run = out) by (vm_compute; reflexivity)
    end.
    split; [exact Hrun | ]. split; [reflexivity | ].
    destruct (Hok _ _ Hrun) as (Hcn & Hct & _). split; assumption.
  - exact (Htotal [Text; Nullable] _ eq_refl eq_refl raw_rows_fit).
  - destruct (placeholder_names_from_first_row sample_letter_name
                sample_tester sample_forced_tester (raw [VStr "x"; VStr ""])
                [raw [VStr "y"; VStr "z"; VStr "w"]]
                None sample_types RowNamesNone [] (or_introl eq_refl))
      as (_ & _ & _ & Hfail & _).
    apply (Hfail [Text; Nullable] _ 1 (raw [VStr "y"; VStr "z"; VStr "w"])
             eq_refl eq_refl eq_refl).
    + simpl. lia.
    + intros j r Hj Hr. destruct j as [ | j]; [ | lia].
      simpl in Hr. inversion Hr; subst r. split; [simpl; lia | ].
      apply sample_casts_succeed.
Defined.

(* ------------------------------------------------------------------ *)
(** ** Further properties of the constructor and the operators *)

Lemma bind_inv {A B} (c : M A) (k : A -> M B) tr res tr' :
  bind c k tr = (res, tr') ->
  (exists a tr1, c tr = (Ok a, tr1) /\ k a tr1 = (res, tr'))
  \/ (exists e, c tr = (Raise e, tr') /\ res = Raise e).
Proof.
  unfold bind. destruct (c tr) as [[a | e] tr1]; intros H.
  - left. eauto.
  - right. inversion H. eauto.
Qed.

(** *** Column names *)

Lemma dedup_loop_least_from new_column_name final_column_names :
  forall fuel d0,
    (forall k, k < d0 -> In (candidate new_column_name k) final_column_names) ->
    length final_column_names <= d0 + fuel ->
    exists d,
      dedup_loop fuel new_column_name (candidate new_column_name d0) d0
        final_column_names = (candidate new_column_name d, d)
      /\ ~ In (candidate new_column_name d) final_column_names
      /\ forall k, k < d -> In (candidate new_column_name k) final_column_names.
Proof.
  induction fuel as [ | fuel IH]; intros d0 Htried Hlen; simpl;
    destruct (str_in (candidate new_column_name d0) final_column_names) eqn:E.
  - exfalso.
    assert (Hincl : incl (map (candidate new_column_name) (seq 0 (S d0)))
                         final_column_names).
    { intros s Hs. apply in_map_iff in Hs. destruct Hs as [k [<- Hk]].
      apply in_seq in Hk. destruct (Nat.eq_dec k d0) as [-> | Hne].
      - now apply str_in_true_iff.
      - apply Htried. lia. }
    apply NoDup_incl_length in Hincl; [ | apply candidates_NoDup].
    rewrite length_map, length_seq in Hincl. lia.
  - exists d0. split; [reflexivity | ]. split; [ | assumption].
    now apply str_in_false_iff.
  - destruct (IH (d0 + 1)) as (d & Hd & Hfree & Hbelow); [ | lia | ].
    + intros k Hk. destruct (Nat.eq_dec k d0) as [-> | Hne].
      * now apply str_in_true_iff.
      * apply Htried. lia.
    + rewrite candidate_succ in Hd. exists d. auto.
  - exists d0. split; [reflexivity | ]. split; [ | assumption].
    now apply str_in_false_iff.
Qed.

Lemma dedup_loop_least new_column_name final_column_names :
  exists d,
    dedup_loop (length final_column_names) new_column_name new_column_name 0
      final_column_names = (candidate new_column_name d, d)
    /\ ~ In (candidate new_column_name d) final_column_names
    /\ forall k, k < d -> In (candidate new_column_name k) final_column_names.
Proof.
  apply (dedup_loop_least_from new_column_name final_column_names
           (length final_column_names) 0); [intros k Hk; lia | lia].
Qed.

Section Further.

Variable letter_name : nat -> string.
Variable default_tester : TypeTester.
Variable forced_tester : list (string * DataType) -> TypeTester.

Lemma requested_name_Ok i a tr new tr1 :
  match a with
  | NameStr s => ret s
  | NameNone =>
      let* _ := emit (Warn (UnnamedColumn (letter_name i))) in
      ret (letter_name i)
  | NameOther => raise (ValueError BadColumnName)
  end tr = (Ok new, tr1) ->
  requested_name letter_name i a = Some new.
Proof.
  destruct a; simpl; unfold ret, raise, bind, emit; intros H; inversion H;
    reflexivity.
Qed.

Lemma validate_column_names_spec cn :
  forall final i tr out tr',
    validate_column_names letter_name i cn final tr = (Ok out, tr') ->
    exists more,
      out = final ++ more /\ length more = length cn
      /\ forall j a,
           nth_error cn j = Some a ->
           exists s d,
             requested_name letter_name (i + j) a = Some s
             /\ nth_error more j = Some (candidate s d)
             /\ ~ In (candidate s d) (final ++ firstn j more)
             /\ forall k, k < d -> In (candidate s k) (final ++ firstn j more).
Proof.
  induction cn as [ | a cn IH]; intros final i tr out tr' H.
  - simpl in H. apply ret_Ok in H. destruct H as [-> _]. exists [].
    rewrite app_nil_r. repeat split. intros j a Hj. destruct j; discriminate.
  - simpl in H. apply bind_Ok in H. destruct H as (new & tr1 & En & H).
    apply requested_name_Ok in En.
    destruct (dedup_loop_least new final) as (d & Hd & Hfree & Hbelow).
    rewrite Hd in H. apply bind_Ok in H. destruct H as ([] & tr2 & _ & H).
    apply IH in H. destruct H as (more & -> & Hlen & Hrest).
    exists (candidate new d :: more). rewrite <- app_assoc. simpl.
    split; [reflexivity | ]. split; [lia | ].
    intros j b Hj. destruct j as [ | j]; simpl in Hj.
    + inversion Hj; subst b. exists new, d. rewrite Nat.add_0_r.
      simpl. rewrite app_nil_r. auto.
    + destruct (Hrest j b Hj) as (s & d' & Hs & Hn & Hf & Hb).
      exists s, d'. rewrite <- Nat.add_succ_comm. simpl.
      rewrite <- app_assoc in Hf, Hb. simpl in Hf, Hb. auto.
Qed.

Lemma Table_init_names_inv rows n l ct rn fork tr t tr' :
  Table_init letter_name default_tester forced_tester (RowsSeq rows)
    (Some (n :: l)) ct rn fork tr = (Ok t, tr') ->
  exists tr1,
    validate_column_names letter_name 0 (n :: l) [] tr
    = (Ok (_column_names t), tr1)
    /\ length (_column_names t) = length (_column_types t).
Proof.
  intros H. apply Table_init_inv in H.
  destruct H as (names & types & new_rows & computed & tr1 & tr2
                 & Hn & _ & Hl & _ & _ & ->).
  exists tr1. simpl. auto.
Qed.

(** Whatever column names are supplied, the names of a constructed table
    are pairwise distinct, and there is one name and one type per supplied
    name. *)
Theorem supplied_column_names_made_distinct rows n l ct rn fork tr t tr' :
  Table_init letter_name default_tester forced_tester (RowsSeq rows)
    (Some (n :: l)) ct rn fork tr = (Ok t, tr') ->
  NoDup (_column_names t)
  /\ length (_column_names t) = length (n :: l)
  /\ length (_column_types t) = length (n :: l).
Proof.
  intros H. apply Table_init_names_inv in H. destruct H as (tr1 & Hv & Hl).
  split; [eapply validate_column_names_NoDup; [exact Hv | constructor] | ].
  apply validate_column_names_spec in Hv.
  destruct Hv as (more & Hout & Hlen & _). simpl in Hout. subst more.
  split; [assumption | congruence].
Qed.

(** The rule by which duplicates are renamed: the name stored at a position
    is the supplied name (the placeholder of the position for [None])
    itself if no earlier position stores it, and otherwise that name
    followed by the first of the suffixes _2, _3, ... that makes a name not
    stored at an earlier position. *)
Theorem duplicate_column_names_take_first_free_suffix
    rows n l ct rn fork tr t tr' :
  Table_init letter_name default_tester forced_tester (RowsSeq rows)
    (Some (n :: l)) ct rn fork tr = (Ok t, tr') ->
  forall j a,
    nth_error (n :: l) j = Some a ->
    exists s d,
      requested_name letter_name j a = Some s
      /\ nth_error (_column_names t) j = Some (candidate s d)
      /\ ~ In (candidate s d) (firstn j (_column_names t))
      /\ forall k, k < d -> In (candidate s k) (firstn j (_column_names t)).
Proof.
  intros H j a Hj. apply Table_init_names_inv in H.
  destruct H as (tr1 & Hv & _). apply validate_column_names_spec in Hv.
  destruct Hv as (more & Hout & _ & Hspec). simpl in Hout. subst more.
  destruct (Hspec j a Hj) as (s & d & Hs & Hn & Hf & Hb).
  exists s, d. simpl in Hs, Hf, Hb. auto.
Qed.

Lemma validate_column_names_bad cn :
  forall final i tr,
    In NameOther cn ->
    exists tr',
      validate_column_names letter_name i cn final tr
      = (Raise (ValueError BadColumnName), tr').
Proof.
  induction cn as [ | a cn IH]; intros final i tr Hin; [easy | ].
  destruct a.
  - destruct Hin as [Hin | Hin]; [discriminate | ].
    simpl. unfold bind at 1. unfold ret at 1.
    destruct (dedup_loop (length final) s s 0 final) as [f dup].
    unfold bind at 1.
    destruct (Nat.ltb 0 dup); unfold emit, ret; apply IH; assumption.
  - destruct Hin as [Hin | Hin]; [discriminate | ].
    simpl. unfold bind at 1. unfold bind at 1. unfold emit, ret at 1.
    destruct (dedup_loop (length final) (letter_name i) (letter_name i) 0 final)
      as [f dup].
    unfold bind at 1.
    destruct (Nat.ltb 0 dup); unfold emit, ret; apply IH; assumption.
  - simpl. unfold bind, raise. eauto.
Qed.

(** A supplied column name that is neither a string nor [None] makes
    construction fail with [ValueError], whatever the other names, the rows,
    the types and the row names are. *)
Theorem bad_column_name_rejected rows n l ct rn fork tr :
  In NameOther (n :: l) ->
  exists tr',
    Table_init letter_name default_tester forced_tester (RowsSeq rows)
      (Some (n :: l)) ct rn fork tr
    = (Raise (ValueError BadColumnName), tr').
Proof.
  intros Hin.
  destruct (validate_column_names_bad (n :: l) [] 0 tr Hin) as [tr' H].
  exists tr'. unfold Table_init, resolve_column_names, bind. now rewrite H.
Qed.

(** *** Row names *)

(** No constructed table, validated or forked, has an integer among its
    row names. *)
Theorem row_names_never_int rows cn ct rn fork tr t tr' names :
  Table_init letter_name default_tester forced_tester (RowsSeq rows) cn ct rn
    fork tr = (Ok t, tr') ->
  _row_names t = Some names ->
  existsb is_int names = false.
Proof.
  intros H Hnames. apply Table_init_inv in H.
  destruct H as (cnames & types & new_rows & computed & tr1 & tr2
                 & _ & _ & _ & _ & Hc & ->).
  simpl in Hnames. subst computed. unfold compute_row_names in Hc.
  destruct (row_names_truthy rn); [ | discriminate].
  apply rbind_Ok in Hc. destruct Hc as (computed & _ & Hc).
  destruct (existsb is_int computed) eqn:E; [discriminate | ].
  inversion Hc; subst computed. exact E.
Qed.

(** Row names given as a column name: the name of each row is the value
    the stored (cast) row has in that column, one name per row, also for a
    table without rows; the empty string counts as no row names. *)
Theorem row_names_from_column rows cn ct s fork tr t tr' :
  Table_init letter_name default_tester forced_tester (RowsSeq rows) cn ct
    (RowNamesColumn s) fork tr = (Ok t, tr') ->
  (s = EmptyString -> _row_names t = None)
  /\ (s <> EmptyString ->
      exists names,
        _row_names t = Some names
        /\ length names = length (_rows t)
        /\ forall i row,
             nth_error (_rows t) i = Some row ->
             exists v, row_get row s = Ok v /\ nth_error names i = Some v).
Proof.
  intros H. apply Table_init_inv in H.
  destruct H as (cnames & types & new_rows & computed & tr1 & tr2
                 & _ & _ & _ & _ & Hc & ->).
  simpl. unfold compute_row_names in Hc. simpl in Hc. split.
  - intros ->. simpl in Hc. now inversion Hc.
  - intros Hs. apply String.eqb_neq in Hs. rewrite Hs in Hc. simpl in Hc.
    apply rbind_Ok in Hc. destruct Hc as (names & Hn & Hc).
    destruct (existsb is_int names); [discriminate | ].
    inversion Hc; subst computed. exists names.
    split; [reflexivity | ]. split; [now apply rmap_length in Hn | ].
    intros i row Hi. apply (rmap_nth_error _ _ _ i row Hn Hi).
Qed.

Lemma assoc_not_in {B} (s : string) (ks : list string) (vs : list B) :
  ~ In s ks -> assoc s (combine ks vs) = None.
Proof.
  revert vs. induction ks as [ | k ks IH]; intros vs Hnin; [reflexivity | ].
  destruct vs as [ | v vs]; [reflexivity | ]. simpl.
  destruct (String.eqb s k) eqn:E.
  - apply String.eqb_eq in E. subst k. elim Hnin. now left.
  - apply IH. intros Hin. apply Hnin. now right.
Qed.

(** Row names given as the name of a column the table does not have: when
    there is at least one row, validated construction casts all the rows and
    then fails with [KeyError]. *)
Theorem row_names_from_missing_column rows cn ct s tr names types tr1 tr2
    new_rows tr3 :
  resolve_column_names letter_name cn rows tr = (Ok names, tr1) ->
  resolve_column_types default_tester forced_tester ct rows names tr1
  = (Ok types, tr2) ->
  length names = length types ->
  cast_rows types names 0 rows tr2 = (Ok new_rows, tr3) ->
  rows <> [] ->
  s <> EmptyString -> ~ In s names ->
  Table_init letter_name default_tester forced_tester (RowsSeq rows) cn ct
    (RowNamesColumn s) false tr = (Raise (KeyError (VStr s)), tr3).
Proof.
  intros Hn Ht Hl Hcast Hrows Hs Hnotin. unfold Table_init, bind.
  rewrite Hn, Ht. rewrite Hl, Nat.eqb_refl. simpl. rewrite Hcast.
  unfold lift, compute_row_names. simpl.
  apply String.eqb_neq in Hs. rewrite Hs. simpl.
  destruct rows as [ | row0 rest]; [now elim Hrows | ].
  apply cast_rows_Ok in Hcast. destruct Hcast as (_ & _ & Hpt).
  destruct (Hpt 0 row0 eq_refl) as (_ & vs & _ & Hfirst).
  destruct new_rows as [ | new0 new_rest]; [discriminate | ].
  simpl in Hfirst. inversion Hfirst; subst new0. simpl.
  unfold row_get. simpl. rewrite (assoc_not_in s names vs Hnotin). reflexivity.
Qed.

(** *** What the operators never do *)

Lemma warnings_only_refl tr : warnings_only tr tr.
Proof. exists []. now rewrite app_nil_r. Qed.

Lemma warnings_only_trans tr1 tr2 tr3 :
  warnings_only tr1 tr2 -> warnings_only tr2 tr3 -> warnings_only tr1 tr3.
Proof.
  intros (ws1 & -> & H1) (ws2 & -> & H2). exists (ws1 ++ ws2).
  rewrite app_assoc. split; [reflexivity | now apply Forall_app].
Qed.

Lemma warnings_only_emit tr w : warnings_only tr (tr ++ [Warn w]).
Proof. exists [Warn w]. split; [reflexivity | ]. repeat constructor. Qed.

Lemma validate_column_names_warns cn :
  forall final i tr res tr',
    validate_column_names letter_name i cn final tr = (res, tr') ->
    warnings_only tr tr'.
Proof.
  induction cn as [ | a cn IH]; intros final i tr res tr' H.
  - simpl in H. unfold ret in H. inversion H. apply warnings_only_refl.
  - simpl in H. apply bind_inv in H.
    destruct H as [(new & tr1 & En & H) | (e & En & _)].
    + assert (H1 : warnings_only tr tr1).
      { destruct a; simpl in En; unfold ret, raise, bind, emit in En;
          inversion En; [apply warnings_only_refl | apply warnings_only_emit]. }
      destruct (dedup_loop (length final) new new 0 final) as [f dup].
      apply bind_inv in H.
      destruct H as [([] & tr2 & Ew & H) | (e & Ew & _)].
      * assert (H2 : warnings_only tr1 tr2).
        { destruct (Nat.ltb 0 dup); unfold emit, ret in Ew; inversion Ew;
            [apply warnings_only_emit | apply warnings_only_refl]. }
        apply IH in H.
        eapply warnings_only_trans; [exact H1 | ].
        eapply warnings_only_trans; [exact H2 | exact H].
      * destruct (Nat.ltb 0 dup); unfold emit, ret in Ew; discriminate.
    + destruct a; simpl in En; unfold ret, raise, bind, emit in En;
        inversion En. apply warnings_only_refl.
Qed.

Lemma resolve_column_names_warns cn rows tr res tr' :
  resolve_column_names letter_name cn rows tr = (res, tr') ->
  warnings_only tr tr'.
Proof.
  unfold resolve_column_names. intros H.
  assert (Hrows : forall res tr',
             match rows with
             | [] => ret []
             | row0 :: _ =>
                 let* _ := emit (Warn (NoColumnNames
                                         (map letter_name
                                            (seq 0 (length (values row0)))))) in
                 ret (map letter_name (seq 0 (length (values row0))))
             end tr = (res, tr') -> warnings_only tr tr').
  { intros res0 tr0 H0. destruct rows as [ | row0 rows].
    - unfold ret in H0. inversion H0. apply warnings_only_refl.
    - unfold bind, emit, ret in H0. inversion H0. apply warnings_only_emit. }
  destruct cn as [[ | n l] | ]; try (eapply Hrows; exact H).
  eapply validate_column_names_warns; exact H.
Qed.

(** The fork path of the constructor logs nothing but warnings. *)
Lemma Table_init_fork_warns rows cn l rn tr res tr' :
  Table_init letter_name default_tester forced_tester (RowsSeq rows) cn
    (TypesSeq l) rn true tr = (res, tr') ->
  warnings_only tr tr'.
Proof.
  unfold Table_init. intros H. apply bind_inv in H.
  destruct H as [(names & tr1 & Hn & H) | (e & Hn & _)];
    [ | eapply resolve_column_names_warns; exact Hn].
  apply resolve_column_names_warns in Hn.
  eapply warnings_only_trans; [exact Hn | ].
  unfold resolve_column_types, bind, lift, ret, raise in H.
  destruct (rmap check_type l) as [types | e].
  - destruct (negb (Nat.eqb (length names) (length types)));
      [inversion H; apply warnings_only_refl | ].
    destruct (compute_row_names rn rows); inversion H;
      apply warnings_only_refl.
  - inversion H. apply warnings_only_refl.
Qed.

Lemma fork_warns self rows cn ct rn tr res tr' :
  _fork letter_name default_tester forced_tester self rows cn ct rn tr
  = (res, tr') ->
  warnings_only tr tr'.
Proof. unfold _fork. apply Table_init_fork_warns. Qed.

Lemma lift_fork_warns {B} (c : result B) (k : B -> M Table) tr res tr' :
  (forall b tr0 res0 tr0', k b tr0 = (res0, tr0') -> warnings_only tr0 tr0') ->
  bind (lift c) k tr = (res, tr') -> warnings_only tr tr'.
Proof.
  intros Hk H. unfold bind, lift in H. destruct c as [b | e].
  - eapply Hk. exact H.
  - inversion H. apply warnings_only_refl.
Qed.

Lemma select_warns self key tr res tr' :
  select letter_name default_tester forced_tester self key tr = (res, tr') ->
  warnings_only tr tr'.
Proof.
  unfold select. apply lift_fork_warns. intros types tr0 res0 tr0'.
  apply lift_fork_warns. intros new_rows tr1 res1 tr1'. apply fork_warns.
Qed.

(** select, exclude, where, order_by, limit, distinct and rename without
    column names never cast a cell and never run a type tester, whether
    they return a table or raise: all they may log are warnings. *)
Theorem forking_operators_never_cast op self tr res tr' :
  always_forks op ->
  apply_operator letter_name default_tester forced_tester op self tr
  = (res, tr') ->
  warnings_only tr tr'.
Proof.
  intros Hop H. destruct op; simpl in H.
  - eapply select_warns; exact H.
  - unfold exclude in H. eapply select_warns; exact H.
  - unfold where_ in H. revert H. apply lift_fork_warns.
    intros out tr0 res0 tr0'. apply fork_warns.
  - unfold order_by in H.
    destruct (Nat.eqb (length (_rows self)) 0);
      [eapply fork_warns; exact H | ].
    revert H. apply lift_fork_warns. intros results tr0 res0 tr0' H.
    apply bind_inv in H.
    destruct H as [(rn & tr1 & Hn & H) | (e & Hn & _)].
    + apply fork_warns in H.
      destruct (_row_names self) as [names | ].
      * unfold bind, lift, ret in Hn.
        destruct (rmap (row_name_at names) (map fst results));
          inversion Hn; subst; exact H.
      * unfold ret in Hn. inversion Hn; subst. exact H.
    + destruct (_row_names self) as [names | ].
      * unfold bind, lift, ret in Hn.
        destruct (rmap (row_name_at names) (map fst results));
          inversion Hn. apply warnings_only_refl.
      * unfold ret in Hn. discriminate.
  - unfold limit in H. revert H. apply lift_fork_warns.
    intros rows tr0 res0 tr0' H. apply bind_inv in H.
    destruct H as [(rn & tr1 & Hn & H) | (e & Hn & _)].
    + apply fork_warns in H.
      destruct (_row_names self) as [names | ].
      * unfold bind, lift, ret in Hn.
        destruct (py_slice _ names); inversion Hn; subst; exact H.
      * unfold ret in Hn. inversion Hn; subst. exact H.
    + destruct (_row_names self) as [names | ].
      * unfold bind, lift, ret in Hn.
        destruct (py_slice _ names); inversion Hn. apply warnings_only_refl.
      * unfold ret in Hn. discriminate.
  - unfold distinct in H. revert H. apply lift_fork_warns.
    intros out tr0 res0 tr0'. apply fork_warns.
  - destruct column_names as [c | ]; [now elim Hop | ].
    unfold rename in H. apply bind_inv in H.
    destruct H as [(rn & tr1 & Hn & H) | (e & Hn & _)].
    + apply fork_warns in H.
      assert (tr1 = tr).
      { destruct row_names as [[is_tuple l | d] | ];
          try (unfold ret in Hn; now inversion Hn).
        destruct (_row_names self); unfold ret, raise in Hn; now inversion Hn. }
      subst tr1. exact H.
    + destruct row_names as [[is_tuple l | d] | ];
        try (unfold ret in Hn; discriminate).
      destruct (_row_names self); unfold ret, raise in Hn; inversion Hn.
      apply warnings_only_refl.
Qed.

(** *** where and find *)

Lemma where_loop_spec self test items :
  forall rows rn out,
    where_loop self test items rows rn = Ok out ->
    (forall x, In x items -> exists b, test (snd x) = Ok b)
    /\ fst out = rows ++ map snd (filter (fun x => passes test (snd x)) items)
    /\ match _row_names self, rn with
       | Some names, Some acc =>
           exists l,
             snd out = Some (acc ++ l)
             /\ map Some l
                = map (nth_error names)
                    (map fst (filter (fun x => passes test (snd x)) items))
       | _, _ => snd out = rn
       end.
Proof.
  induction items as [ | [i row] items IH]; intros rows rn out H.
  - simpl in H. inversion H; subst out. simpl. split; [easy | ].
    split; [now rewrite app_nil_r | ].
    destruct (_row_names self), rn; try reflexivity.
    exists []. now rewrite app_nil_r.
  - simpl in H. apply rbind_Ok in H. destruct H as (keep & Hkeep & H).
    assert (Hpass : passes test row = keep)
      by (unfold passes; rewrite Hkeep; now destruct keep).
    cbn [filter snd]. rewrite Hpass. destruct keep.
    + apply rbind_Ok in H. destruct H as (rn' & Hrn & H).
      apply IH in H. destruct H as (Htests & Hrows & Hnames).
      split; [intros x [<- | Hx]; simpl; eauto | ].
      split; [rewrite Hrows, <- app_assoc; reflexivity | ].
      destruct (_row_names self) as [names | ]; [ | now inversion Hrn; subst].
      destruct rn as [acc | ]; [ | now inversion Hrn; subst].
      apply rbind_Ok in Hrn. destruct Hrn as (n & Hn & Hrn).
      inversion Hrn; subst rn'. destruct Hnames as (l & Hout & Hl).
      exists (n :: l). rewrite <- app_assoc in Hout. split; [exact Hout | ].
      simpl. rewrite Hl. f_equal. unfold row_name_at in Hn.
      destruct (nth_error names i); [now inversion Hn | discriminate].
    + apply IH in H. destruct H as (Htests & Hrows & Hnames).
      split; [intros x [<- | Hx]; simpl; eauto | ]. split; assumption.
Qed.

Lemma filter_enumerate_snd {B} (p : B -> bool) (l : list B) :
  map snd (filter (fun x => p (snd x)) (enumerate l)) = filter p l.
Proof.
  unfold enumerate. generalize 0.
  induction l as [ | a l IH]; intros n; [reflexivity | ].
  simpl. destruct (p a); simpl; now rewrite IH.
Qed.

Lemma where_inv self test tr t' tr' :
  where_ letter_name default_tester forced_tester self test tr = (Ok t', tr') ->
  (forall row, In row (_rows self) -> exists b, test row = Ok b)
  /\ _rows t' = filter (passes test) (_rows self)
  /\ forall names,
       _row_names self = Some names ->
       exists l,
         _row_names t' = stored_row_names l
         /\ map Some l
            = map (nth_error names)
                (map fst (filter (fun x => passes test (snd x))
                            (enumerate (_rows self)))).
Proof.
  unfold where_. intros H.
  apply bind_Ok in H. destruct H as (out & tr1 & Hloop & H).
  apply lift_Ok in Hloop. destruct Hloop as [Hloop ->].
  apply where_loop_spec in Hloop. destruct Hloop as (Htests & Hrows & Hnames).
  apply fork_inv in H. destruct H as [Hr Hn]. split; [ | split].
  - intros row Hrow. apply In_nth_error in Hrow. destruct Hrow as [i Hi].
    apply nth_error_enumerate in Hi. apply nth_error_In in Hi.
    apply (Htests (i, row) Hi).
  - rewrite Hr, Hrows. simpl. apply filter_enumerate_snd.
  - intros names Hself. rewrite Hself in Hnames.
    destruct Hnames as (l & Hout & Hl). exists l.
    rewrite Hn, Hout. simpl. auto.
Qed.

(** [where] keeps exactly the rows for which the test returns true, in
    their order, and with each of them the row name of its position; the
    test was called, without raising, on every row. *)
Theorem where_filters_rows self test tr t' tr' :
  where_ letter_name default_tester forced_tester self test tr = (Ok t', tr') ->
  (forall row, In row (_rows self) -> exists b, test row = Ok b)
  /\ _rows t' = filter (passes test) (_rows self)
  /\ forall names,
       _row_names self = Some names ->
       exists l,
         _row_names t' = stored_row_names l
         /\ map Some l
            = map (nth_error names)
                (map fst (filter (fun x => passes test (snd x))
                            (enumerate (_rows self)))).
Proof. apply where_inv. Qed.

(** Filtering twice is filtering once with both tests: the rows of
    [where(test1).where(test2)] are the rows that pass both. *)
Theorem where_twice self test1 test2 tr t1 tr1 tr0 t2 tr2 :
  where_ letter_name default_tester forced_tester self test1 tr = (Ok t1, tr1) ->
  where_ letter_name default_tester forced_tester t1 test2 tr0 = (Ok t2, tr2) ->
  _rows t2
  = filter (fun row => passes test1 row && passes test2 row) (_rows self).
Proof.
  intros H1 H2. apply where_inv in H1. apply where_inv in H2.
  destruct H1 as (_ & Hr1 & _). destruct H2 as (_ & Hr2 & _).
  rewrite Hr2, Hr1. clear. induction (_rows self) as [ | row rows IH];
    [reflexivity | ].
  simpl. destruct (passes test1 row); simpl; [ | exact IH].
  destruct (passes test2 row); simpl; now rewrite IH.
Qed.

Lemma find_loop_spec test rows :
  forall found,
    find_loop test rows = Ok found ->
    match found with
    | Some row =>
        exists i,
          nth_error rows i = Some row /\ test row = Ok true
          /\ forall j r, j < i -> nth_error rows j = Some r -> test r = Ok false
    | None => forall r, In r rows -> test r = Ok false
    end.
Proof.
  induction rows as [ | row rows IH]; intros found H.
  - simpl in H. inversion H. intros r [].
  - simpl in H. apply rbind_Ok in H. destruct H as ([] & Ht & H).
    + inversion H; subst found. exists 0. split; [reflexivity | ].
      split; [assumption | ]. intros j r Hj. lia.
    + apply IH in H. destruct found as [r0 | ].
      * destruct H as (i & Hi & Hr0 & Hbefore). exists (S i).
        split; [assumption | ]. split; [assumption | ].
        intros j r Hj Hr. destruct j as [ | j]; simpl in Hr.
        -- now inversion Hr; subst.
        -- apply (Hbefore j r); [lia | assumption].
      * intros r [<- | Hr]; auto.
Qed.

Lemma find_loop_first test pre row post :
  (forall r, In r pre -> test r = Ok false) ->
  find_loop test (pre ++ row :: post)
  = (let? found := test row in
     if found then Ok (Some row) else find_loop test post).
Proof.
  induction pre as [ | r0 pre IH]; intros Hpre; [reflexivity | ].
  simpl. rewrite (Hpre r0 (or_introl eq_refl)). simpl.
  apply IH. intros r Hr. apply Hpre. now right.
Qed.

Lemma find_loop_none test rows :
  (forall r, In r rows -> test r = Ok false) ->
  find_loop test rows = Ok None.
Proof.
  induction rows as [ | r0 rows IH]; intros Hrows; [reflexivity | ].
  simpl. rewrite (Hrows r0 (or_introl eq_refl)). simpl.
  apply IH. intros r Hr. apply Hrows. now right.
Qed.

(** [find] calls the test on the rows in order and stops at the first row
    for which the test does not return false: it returns that row when the
    test returns true for it and raises what the test raises for it,
    whatever the test would do on the rows behind it, which are not tested;
    it returns [None] when the test returns false for every row.  So a row
    that [find] returns is the first one for which the test returns true,
    the test having returned false for every row in front of it. *)
Theorem find_first_match self test :
  (forall pre row post,
      _rows self = pre ++ row :: post ->
      (forall r, In r pre -> test r = Ok false) ->
      test row = Ok true ->
      find self test = Ok (Some row))
  /\ (forall pre row post e,
        _rows self = pre ++ row :: post ->
        (forall r, In r pre -> test r = Ok false) ->
        test row = Raise e ->
        find self test = Raise e)
  /\ ((forall r, In r (_rows self) -> test r = Ok false) ->
      find self test = Ok None)
  /\ (forall found,
        find self test = Ok found ->
        match found with
        | Some row =>
            exists i,
              nth_error (_rows self) i = Some row /\ test row = Ok true
              /\ forall j r, j < i -> nth_error (_rows self) j = Some r ->
                   test r = Ok false
        | None => forall r, In r (_rows self) -> test r = Ok false
        end).
Proof.
  unfold find. split; [ | split; [ | split]].
  - intros pre row post -> Hpre Hrow.
    rewrite (find_loop_first test pre row post Hpre), Hrow. reflexivity.
  - intros pre row post e -> Hpre Hrow.
    rewrite (find_loop_first test pre row post Hpre), Hrow. reflexivity.
  - apply find_loop_none.
  - apply find_loop_spec.
Qed.

Lemma find_loop_filter test rows :
  (forall row, In row rows -> exists b, test row = Ok b) ->
  find_loop test rows = Ok (hd_error (filter (passes test) rows)).
Proof.
  induction rows as [ | row rows IH]; intros Htests; [reflexivity | ].
  simpl. destruct (Htests row (or_introl eq_refl)) as [b Hb].
  unfold passes at 1. rewrite Hb. simpl. destruct b; [reflexivity | ].
  apply IH. intros r Hr. apply Htests. now right.
Qed.

(** Whenever [where(test)] returns a table, [find(test)] returns its first
    row, and [None] when it has no rows. *)
Theorem find_is_first_of_where self test tr t' tr' :
  where_ letter_name default_tester forced_tester self test tr = (Ok t', tr') ->
  find self test = Ok (hd_error (_rows t')).
Proof.
  intros H. apply where_inv in H. destruct H as (Htests & Hr & _).
  rewrite Hr. unfold find. now apply find_loop_filter.
Qed.

(** *** distinct *)

Lemma distinct_key_of_function key kf i row :
  key_function key kf ->
  match key with
  | ByFunction f => let? v := f row in Ok (Val v)
  | ByNames _ => Ok (Generator i)
  | ByNone => Ok (Val (VTuple (values row)))
  | ByName s => let? v := row_get row s in Ok (Val v)
  end = let? v := kf row in Ok (Val v).
Proof. intros H. destruct H; reflexivity. Qed.

Lemma is_first_at ksp v kss :
  is_first (ksp ++ v :: kss) (length ksp) = negb (py_in v ksp).
Proof.
  unfold is_first. rewrite nth_error_app2, Nat.sub_diag by lia. simpl.
  rewrite firstn_app, Nat.sub_diag, firstn_all. simpl.
  now rewrite app_nil_r.
Qed.

Lemma distinct_loop_spec self key kf suffix :
  key_function key kf ->
  forall ksp uniques rows rn out,
    (forall v, existsb (distinct_key_eq (Val v)) uniques = py_in v ksp) ->
    distinct_loop self key (combine (seq (length ksp) (length suffix)) suffix)
      uniques rows rn = Ok out ->
    exists kss,
      rmap kf suffix = Ok kss
      /\ fst out
         = rows ++ map snd (filter (fun x => is_first (ksp ++ kss) (fst x))
                              (combine (seq (length ksp) (length suffix)) suffix))
      /\ match _row_names self, rn with
         | Some names, Some acc =>
             exists l,
               snd out = Some (acc ++ l)
               /\ map Some l
                  = map (nth_error names)
                      (map fst (filter (fun x => is_first (ksp ++ kss) (fst x))
                                  (combine (seq (length ksp) (length suffix))
                                     suffix)))
         | _, _ => snd out = rn
         end.
Proof.
  intros Hkey. induction suffix as [ | row suffix IH];
    intros ksp uniques rows rn out Huniq H.
  - simpl in H. inversion H; subst out. exists []. simpl.
    split; [reflexivity | ]. split; [now rewrite app_nil_r | ].
    destruct (_row_names self), rn; try reflexivity.
    exists []. now rewrite app_nil_r.
  - cbn [length seq combine distinct_loop] in H.
    rewrite (distinct_key_of_function key kf _ row Hkey) in H.
    apply rbind_Ok in H. destruct H as (k & Hk & H).
    apply rbind_Ok in Hk. destruct Hk as (v & Hv & Hk). inversion Hk; subst k.
    rewrite Huniq in H.
    assert (Hlen : S (length ksp) = length (ksp ++ [v]))
      by (rewrite length_app; simpl; lia).
    assert (Hshape : forall kss, ksp ++ v :: kss = (ksp ++ [v]) ++ kss)
      by (intros kss; now rewrite <- app_assoc).
    destruct (py_in v ksp) eqn:Ein; cbn [negb] in H.
    + rewrite Hlen in H. apply IH in H.
      * destruct H as (kss & Hkss & Hrows & Hnames).
        exists (v :: kss). cbn [rmap]. rewrite Hv, Hkss. cbn [rbind].
        split; [reflexivity | ].
        cbn [length seq combine filter fst]. rewrite is_first_at, Ein.
        cbn [negb]. rewrite Hlen, Hshape. split; assumption.
      * intros v'. unfold py_in. rewrite existsb_app. simpl.
        rewrite orb_false_r. fold (py_in v' ksp).
        rewrite Huniq. destruct (py_eq v' v) eqn:E; [ | now rewrite orb_false_r].
        apply py_eq_true_iff in E. subst v'. rewrite Ein. reflexivity.
    + apply rbind_Ok in H. destruct H as (rn' & Hrn & H).
      rewrite Hlen in H. apply IH in H.
      * destruct H as (kss & Hkss & Hrows & Hnames).
        exists (v :: kss). cbn [rmap]. rewrite Hv, Hkss. cbn [rbind].
        split; [reflexivity | ].
        cbn [length seq combine filter fst]. rewrite is_first_at, Ein.
        cbn [negb map snd fst]. rewrite Hlen, Hshape.
        split; [rewrite Hrows, <- app_assoc; reflexivity | ].
        destruct (_row_names self) as [names | ]; [ | now inversion Hrn; subst].
        destruct rn as [acc | ]; [ | now inversion Hrn; subst].
        apply rbind_Ok in Hrn. destruct Hrn as (n & Hn & Hrn).
        inversion Hrn; subst rn'. destruct Hnames as (l & Hout & Hl).
        exists (n :: l). rewrite <- app_assoc in Hout. split; [exact Hout | ].
        simpl. rewrite Hl. f_equal. unfold row_name_at in Hn.
        destruct (nth_error names (length ksp)); [now inversion Hn | discriminate].
      * intros v'. rewrite existsb_app. simpl. rewrite orb_false_r.
        rewrite Huniq. unfold py_in. rewrite existsb_app. simpl.
        now rewrite orb_false_r.
Qed.

Lemma distinct_inv self key kf tr t' tr' :
  key_function key kf ->
  distinct letter_name default_tester forced_tester self key tr = (Ok t', tr') ->
  exists ks,
    rmap kf (_rows self) = Ok ks
    /\ _rows t'
       = map snd (filter (fun x => is_first ks (fst x)) (enumerate (_rows self)))
    /\ forall names,
         _row_names self = Some names ->
         exists l,
           _row_names t' = stored_row_names l
           /\ map Some l
              = map (nth_error names)
                  (map fst (filter (fun x => is_first ks (fst x))
                              (enumerate (_rows self)))).
Proof.
  intros Hkey. unfold distinct. intros H.
  apply bind_Ok in H. destruct H as (out & tr1 & Hloop & H).
  apply lift_Ok in Hloop. destruct Hloop as [Hloop ->].
  apply (distinct_loop_spec self key kf (_rows self) Hkey [] [] []) in Hloop;
    [ | reflexivity].
  destruct Hloop as (ks & Hks & Hrows & Hnames).
  apply fork_inv in H. destruct H as [Hr Hn].
  exists ks. split; [assumption | ]. split.
  - rewrite Hr, Hrows. reflexivity.
  - intros names Hself. rewrite Hself in Hnames.
    destruct Hnames as (l & Hout & Hl). exists l.
    rewrite Hn, Hout. simpl. auto.
Qed.


(** *** order_by: the result is sorted *)








Lemma sort_key_position key i j row : sort_key key (i, row) = sort_key key (j, row).
Proof. reflexivity. Qed.




(** *** Invariants kept by the operators on rows *)

Lemma rmap_incl {B C} (f : B -> result C) (g : C -> B) l r :
  (forall x y, f x = Ok y -> g y = x) ->
  rmap f l = Ok r -> map g r = l.
Proof.
  intros Hfg. revert r. induction l as [ | a l IH]; simpl; intros r H.
  - now inversion H.
  - apply rbind_Ok in H. destruct H as (y & Hy & H).
    apply rbind_Ok in H. destruct H as (ys & Hys & H). inversion H.
    simpl. f_equal; auto.
Qed.

Lemma py_slice_incl {B} (s : slice) (l r : list B) :
  py_slice s l = Ok r -> incl r l.
Proof.
  unfold py_slice. intros H. apply rbind_Ok in H.
  destruct H as ([[start stop] step] & _ & H).
  intros x Hx. apply In_nth_error in Hx. destruct Hx as [i Hi].
  destruct (rmap_nth_error_inv _ _ _ i x H Hi) as (z & _ & Hz).
  destruct (nth_error l (Z.to_nat z)) as [y | ] eqn:E; [ | discriminate].
  inversion Hz; subst y. eapply nth_error_In; exact E.
Qed.

Lemma sorted_Permutation {B} (items : list B) key reverse res :
  sorted items key reverse = Ok res -> Permutation items res.
Proof.
  intros H. apply sorted_inv in H. destruct H as (keyed & r & Hk & Hsort & ->).
  rewrite <- (rmap_keyed_snd _ _ _ Hk). apply Permutation_map.
  apply stable_sort_perm in Hsort. destruct reverse.
  - eapply perm_trans; [apply Permutation_rev | ].
    eapply perm_trans; [exact Hsort | apply Permutation_rev].
  - exact Hsort.
Qed.

Lemma distinct_loop_incl self key items :
  forall uniques rows rn out,
    distinct_loop self key items uniques rows rn = Ok out ->
    incl (fst out) (rows ++ map snd items).
Proof.
  induction items as [ | [i row] items IH]; intros uniques rows rn out H.
  - simpl in H. inversion H. simpl. rewrite app_nil_r. apply incl_refl.
  - simpl in H. apply rbind_Ok in H. destruct H as (k & _ & H).
    destruct (negb (existsb (distinct_key_eq k) uniques)).
    + apply rbind_Ok in H. destruct H as (rn' & _ & H). apply IH in H.
      simpl. rewrite <- app_assoc in H. exact H.
    + apply IH in H. intros x Hx. apply H in Hx. apply in_app_or in Hx.
      apply in_or_app. destruct Hx as [Hx | Hx]; [now left | right; now right].
Qed.

Lemma map_snd_enumerate {B} (l : list B) : map snd (enumerate l) = l.
Proof.
  unfold enumerate. generalize 0.
  induction l as [ | a l IH]; intros n; simpl; [reflexivity | now rewrite IH].
Qed.

(** A fork with the names and types of an invariant table and rows taken
    from it is an invariant table with the same names and types. *)
Lemma fork_keeps_invariant self rows rn tr t' tr' :
  table_invariant self ->
  incl rows (_rows self) ->
  _fork letter_name default_tester forced_tester self rows None None rn tr
  = (Ok t', tr') ->
  table_invariant t'
  /\ _column_names t' = _column_names self
  /\ _column_types t' = _column_types self
  /\ _rows t' = rows.
Proof.
  intros Hinv Hincl H. unfold _fork in H.
  pose proof H as H0. apply Table_init_inv in H0.
  destruct H0 as (names & types & new_rows & computed & tr1 & tr2
                  & _ & _ & _ & Hr & Hc & _).
  apply ret_Ok in Hr. destruct Hr as [-> _].
  assert (Hshape : forall row, In row rows ->
                     length (values row) = length (_column_names self))
    by (intros row Hrow; apply (inv_rows self Hinv), Hincl, Hrow).
  destruct (Table_init_fork_ok letter_name default_tester forced_tester
              (_column_names self) (_column_types self) rows _ computed tr
              (inv_names self Hinv) (inv_types self Hinv) Hshape Hc)
    as [tr1' Hok].
  rewrite Hok in H. inversion H; subst t'. simpl.
  split; [ | auto]. constructor; simpl.
  - apply (inv_names self Hinv).
  - apply (inv_types self Hinv).
  - reflexivity.
  - intros row Hrow. apply (inv_rows self Hinv), Hincl, Hrow.
  - intros rnames ->. unfold compute_row_names in Hc.
    destruct (row_names_truthy _); [ | discriminate].
    apply rbind_Ok in Hc. destruct Hc as (c & _ & Hc).
    destruct (existsb is_int c) eqn:E; [discriminate | ].
    inversion Hc; subst. exact E.
Qed.

(** where, order_by, limit and distinct keep the shape of a table: the
    result has the column names and column types of the receiver, its rows
    are rows of the receiver, and it satisfies the table invariants when
    the receiver does. *)
Theorem row_operators_keep_shape op self tr t' tr' :
  keeps_columns op ->
  table_invariant self ->
  apply_operator letter_name default_tester forced_tester op self tr
  = (Ok t', tr') ->
  table_invariant t'
  /\ _column_names t' = _column_names self
  /\ _column_types t' = _column_types self
  /\ incl (_rows t') (_rows self).
Proof.
  intros Hop Hinv H.
  assert (Hfork : forall rows rn tr0,
             incl rows (_rows self) ->
             _fork letter_name default_tester forced_tester self rows None
               None rn tr0 = (Ok t', tr') ->
             table_invariant t'
             /\ _column_names t' = _column_names self
             /\ _column_types t' = _column_types self
             /\ incl (_rows t') (_rows self)).
  { intros rows rn tr0 Hincl Hf.
    destruct (fork_keeps_invariant self rows rn tr0 t' tr' Hinv Hincl Hf)
      as (H1 & H2 & H3 & H4).
    rewrite H4. auto. }
  destruct op; try (now elim Hop); simpl in H.
  - unfold where_ in H.
    apply bind_Ok in H. destruct H as (out & tr1 & Hloop & H).
    apply lift_Ok in Hloop. destruct Hloop as [Hloop ->].
    apply where_loop_spec in Hloop. destruct Hloop as (_ & Hrows & _).
    eapply Hfork; [ | exact H]. rewrite Hrows. simpl.
    rewrite filter_enumerate_snd. intros x Hx. now apply filter_In in Hx.
  - unfold order_by in H.
    destruct (Nat.eqb (length (_rows self)) 0).
    + eapply Hfork; [ | exact H]. apply incl_refl.
    + apply bind_Ok in H. destruct H as (results & tr1 & Hs & H).
      apply lift_Ok in Hs. destruct Hs as [Hs ->].
      apply bind_Ok in H. destruct H as (rn & tr2 & _ & H).
      eapply Hfork; [ | exact H].
      apply sorted_Permutation in Hs.
      apply (Permutation_map snd) in Hs. rewrite map_snd_enumerate in Hs.
      intros x Hx. eapply Permutation_in; [ | exact Hx].
      now apply Permutation_sym.
  - unfold limit in H.
    apply bind_Ok in H. destruct H as (rows & tr1 & Hs & H).
    apply lift_Ok in Hs. destruct Hs as [Hs ->].
    apply bind_Ok in H. destruct H as (rn & tr2 & _ & H).
    eapply Hfork; [ | exact H]. eapply py_slice_incl; exact Hs.
  - unfold distinct in H.
    apply bind_Ok in H. destruct H as (out & tr1 & Hloop & H).
    apply lift_Ok in Hloop. destruct Hloop as [Hloop ->].
    apply distinct_loop_incl in Hloop. simpl in Hloop.
    rewrite map_snd_enumerate in Hloop.
    eapply Hfork; [ | exact H]. exact Hloop.
Qed.

(** *** select and exclude *)

Lemma rmap_succeeds {B C} (f : B -> result C) l :
  (forall x, In x l -> exists y, f x = Ok y) -> exists r, rmap f l = Ok r.
Proof.
  induction l as [ | a l IH]; intros H; [now exists [] | ].
  destruct (H a (or_introl eq_refl)) as [y Hy].
  destruct IH as [r Hr]; [intros x Hx; apply H; now right | ].
  exists (y :: r). simpl. now rewrite Hy, Hr.
Qed.

Lemma rmap_fails_at {B C} (f : B -> result C) pre x post e :
  (forall y, In y pre -> exists z, f y = Ok z) ->
  f x = Raise e ->
  rmap f (pre ++ x :: post) = Raise e.
Proof.
  intros Hpre Hx. induction pre as [ | a pre IH]; simpl.
  - now rewrite Hx.
  - destruct (Hpre a (or_introl eq_refl)) as [z Hz]. rewrite Hz. simpl.
    rewrite IH; [reflexivity | ]. intros y Hy. apply Hpre. now right.
Qed.

Lemma row_get_nth t row i n :
  table_invariant t -> In row (_rows t) ->
  nth_error (_column_names t) i = Some n ->
  exists v, nth_error (values row) i = Some v /\ row_get row n = Ok v.
Proof.
  intros Hinv Hrow Hn. destruct (inv_rows t Hinv row Hrow) as [Hk Hl].
  destruct (nth_error (values row) i) as [v | ] eqn:Ev.
  - exists v. split; [reflexivity | ]. unfold row_get. rewrite Hk.
    now rewrite (assoc_combine_nth _ _ i n v (inv_names t Hinv) Hn Ev).
  - apply nth_error_None in Ev.
    assert (i < length (_column_names t)) by (apply nth_error_Some; congruence).
    lia.
Qed.

Lemma columns_get_nth t i n :
  table_invariant t ->
  nth_error (_column_names t) i = Some n ->
  exists ty,
    nth_error (_column_types t) i = Some ty
    /\ columns_get t n = Ok (mkColumn i n ty (_rows t) (_row_names t)).
Proof.
  intros Hinv Hn.
  destruct (nth_error (_column_types t) i) as [ty | ] eqn:Ety.
  - exists ty. split; [reflexivity | ]. unfold columns_get.
    rewrite (assoc_combine_nth _ _ i n
               (mkColumn i n ty (_rows t) (_row_names t))
               (inv_names t Hinv) Hn); [reflexivity | ].
    rewrite (inv_columns t Hinv), nth_error_build_columns, Hn, Ety.
    reflexivity.
  - apply nth_error_None in Ety. pose proof (inv_types t Hinv).
    assert (i < length (_column_names t)) by (apply nth_error_Some; congruence).
    lia.
Qed.

Lemma columns_get_missing t n :
  ~ In n (_column_names t) -> columns_get t n = Raise (KeyError (VStr n)).
Proof.
  intros H. unfold columns_get. now rewrite (assoc_not_in n _ _ H).
Qed.

(** On an invariant table, [select] with distinct names of columns
    succeeds: the result has these names in the order given, for each the
    type and, in every row, the value of the column of that name; it has as
    many rows; and it is an invariant table. *)
Lemma select_projection t key tr :
  table_invariant t -> NoDup key -> incl key (_column_names t) ->
  exists t' tr',
    select letter_name default_tester forced_tester t (Names key) tr
    = (Ok t', tr')
    /\ table_invariant t'
    /\ _column_names t' = key
    /\ length (_rows t') = length (_rows t)
    /\ forall j n,
         nth_error key j = Some n ->
         exists i,
           nth_error (_column_names t) i = Some n
           /\ nth_error (_column_types t') j = nth_error (_column_types t) i
           /\ forall r row,
                nth_error (_rows t) r = Some row ->
                exists row',
                  nth_error (_rows t') r = Some row'
                  /\ nth_error (values row') j = nth_error (values row) i.
Proof.
  intros Hinv Hnd Hincl.
  assert (Hpos : forall n, In n key ->
                   exists i, nth_error (_column_names t) i = Some n)
    by (intros n Hn; apply In_nth_error, Hincl, Hn).
  destruct (rmap_succeeds
              (fun n => let? c := columns_get t n in Ok (_data_type c)) key)
    as [tys Htys].
  { intros n Hn. destruct (Hpos n Hn) as [i Hi].
    destruct (columns_get_nth t i n Hinv Hi) as (ty & _ & Hc).
    rewrite Hc. simpl. eauto. }
  destruct (rmap_succeeds
              (fun row => let? vs := rmap (row_get row) key in
                          Ok (mkRow vs key)) (_rows t))
    as [new_rows Hnew].
  { intros row Hrow.
    destruct (rmap_succeeds (row_get row) key) as [vs Hvs].
    - intros n Hn. destruct (Hpos n Hn) as [i Hi].
      destruct (row_get_nth t row i n Hinv Hrow Hi) as (v & _ & Hv). eauto.
    - rewrite Hvs. simpl. eauto. }
  assert (Hnew_rows : forall row', In row' new_rows ->
            exists row vs, In row (_rows t)
              /\ rmap (row_get row) key = Ok vs /\ row' = mkRow vs key).
  { intros row' Hrow'. apply In_nth_error in Hrow'. destruct Hrow' as [r Hr].
    destruct (rmap_nth_error_inv _ _ _ r row' Hnew Hr) as (row & Hrow & Hf).
    apply rbind_Ok in Hf. destruct Hf as (vs & Hvs & Hf). inversion Hf.
    exists row, vs. split; [eapply nth_error_In; exact Hrow | auto]. }
  assert (Hshape : forall row', In row' new_rows ->
                     length (values row') = length key).
  { intros row' Hrow'.
    destruct (Hnew_rows row' Hrow') as (row & vs & _ & Hvs & ->).
    simpl. now apply rmap_length in Hvs. }
  destruct (Table_init_fork_ok letter_name default_tester forced_tester
              key tys new_rows _ _ tr Hnd
              (eq_sym (rmap_length _ _ _ Htys)) Hshape
              (compute_row_names_of_table t new_rows Hinv)) as [tr1 Hok].
  eexists. exists tr1. split.
  { unfold select, key_list, bind, lift. rewrite Htys, Hnew. exact Hok. }
  simpl. split; [ | split; [reflexivity | split]].
  - constructor; simpl.
    + exact Hnd.
    + symmetry. eapply rmap_length; exact Htys.
    + reflexivity.
    + intros row' Hrow'. split; [ | now apply Hshape].
      destruct (Hnew_rows row' Hrow') as (row & vs & _ & _ & ->). reflexivity.
    + intros rnames Hr. destruct (_row_names t) as [l | ] eqn:El;
        [ | discriminate].
      destruct l as [ | v l]; [discriminate | ]. simpl in Hr.
      inversion Hr; subst rnames. apply (inv_row_names t Hinv _ El).
  - eapply rmap_length; exact Hnew.
  - intros j n Hj.
    destruct (Hpos n (nth_error_In _ _ Hj)) as [i Hi]. exists i.
    split; [assumption | ]. split.
    + destruct (rmap_nth_error _ _ _ j n Htys Hj) as (ty' & Hty' & Hn').
      destruct (columns_get_nth t i n Hinv Hi) as (ty & Hty & Hc).
      rewrite Hc in Hty'. simpl in Hty'. inversion Hty'; subst ty'.
      congruence.
    + intros r row Hrow.
      destruct (rmap_nth_error _ _ _ r row Hnew Hrow) as (row' & Hf & Hr').
      exists row'. split; [assumption | ].
      apply rbind_Ok in Hf. destruct Hf as (vs & Hvs & Hf).
      inversion Hf; subst row'. simpl.
      destruct (rmap_nth_error _ _ _ j n Hvs Hj) as (v' & Hv' & Hn').
      destruct (row_get_nth t row i n Hinv (nth_error_In _ _ Hrow) Hi)
        as (v & Hv & Hg).
      congruence.
Qed.

(** [select] of distinct column names projects: the result has exactly
    these names in the order given, for each of them the type and, row by
    row, the values of the column of that name; it has as many rows as the
    receiver and satisfies the table invariants. *)
Theorem select_projects_columns t key tr :
  table_invariant t -> NoDup key -> incl key (_column_names t) ->
  exists t' tr',
    select letter_name default_tester forced_tester t (Names key) tr
    = (Ok t', tr')
    /\ table_invariant t'
    /\ _column_names t' = key
    /\ length (_rows t') = length (_rows t)
    /\ forall j n,
         nth_error key j = Some n ->
         exists i,
           nth_error (_column_names t) i = Some n
           /\ nth_error (_column_types t') j = nth_error (_column_types t) i
           /\ forall r row,
                nth_error (_rows t) r = Some row ->
                exists row',
                  nth_error (_rows t') r = Some row'
                  /\ nth_error (values row') j = nth_error (values row) i.
Proof. apply select_projection. Qed.

(** [select] of a name that is not a column raises [KeyError] for the first
    such name, before any row is built and whatever follows it in the key. *)
Theorem select_unknown_column t pre n post tr :
  table_invariant t ->
  incl pre (_column_names t) -> ~ In n (_column_names t) ->
  select letter_name default_tester forced_tester t (Names (pre ++ n :: post)) tr
  = (Raise (KeyError (VStr n)), tr).
Proof.
  intros Hinv Hpre Hn. unfold select, key_list, bind, lift.
  rewrite (rmap_fails_at _ pre n post (KeyError (VStr n))); [reflexivity | | ].
  - intros m Hm. apply Hpre in Hm. apply In_nth_error in Hm.
    destruct Hm as [i Hi].
    destruct (columns_get_nth t i m Hinv Hi) as (ty & _ & Hc).
    rewrite Hc. simpl. eauto.
  - now rewrite (columns_get_missing t n Hn).
Qed.

(** [exclude] is [select] of the complement: on an invariant table it
    always succeeds, names in the key that are not columns being ignored,
    and the result has the column names of the receiver that are not in the
    key, in their order, with their types and values. *)
Theorem exclude_selects_complement t key tr :
  table_invariant t ->
  exists t' tr',
    exclude letter_name default_tester forced_tester t key tr = (Ok t', tr')
    /\ table_invariant t'
    /\ _column_names t'
       = filter (fun n => negb (str_in n (key_list key))) (_column_names t)
    /\ length (_rows t') = length (_rows t)
    /\ forall j n,
         nth_error (_column_names t') j = Some n ->
         exists i,
           nth_error (_column_names t) i = Some n
           /\ nth_error (_column_types t') j = nth_error (_column_types t) i
           /\ forall r row,
                nth_error (_rows t) r = Some row ->
                exists row',
                  nth_error (_rows t') r = Some row'
                  /\ nth_error (values row') j = nth_error (values row) i.
Proof.
  intros Hinv. unfold exclude.
  destruct (select_projection t
              (filter (fun n => negb (str_in n (key_list key)))
                 (_column_names t)) tr Hinv)
    as (t' & tr' & Hsel & Hinv' & Hnames & Hlen & Hcols).
  - apply NoDup_filter. apply (inv_names t Hinv).
  - intros n Hn. now apply filter_In in Hn.
  - exists t', tr'. split; [exact Hsel | ]. split; [exact Hinv' | ].
    split; [exact Hnames | ]. split; [exact Hlen | ].
    intros j n Hj. rewrite Hnames in Hj. apply (Hcols j n Hj).
Qed.

(** *** rename *)

(** [rename] with a dict gives every column the name the dict maps it to
    and leaves the other names; when the new names are distinct strings the
    column types stay, and the rows go through validated construction once
    more: every cell of every row is cast again, one cast call per cell in
    the log, and the stored rows hold the results under the new names. *)
Theorem rename_by_mapping_recasts t d new tr t' tr' :
  table_invariant t ->
  _column_names t <> [] ->
  map (renamed d) (_column_names t) = map NameStr new ->
  NoDup new ->
  rename letter_name default_tester forced_tester t (Some (RenameDict d)) None tr
  = (Ok t', tr') ->
  _column_names t' = new
  /\ _column_types t' = _column_types t
  /\ tr' = tr ++ casting_events (length new) (_rows t)
  /\ forall r row,
       nth_error (_rows t) r = Some row ->
       exists row',
         nth_error (_rows t') r = Some row'
         /\ keys row' = new
         /\ forall j d0,
              nth_error (values row) j = Some d0 ->
              exists c v,
                nth_error (_column_types t) j = Some c
                /\ cast c d0 = Ok v
                /\ nth_error (values row') j = Some v.
Proof.
  intros Hinv Hne Hmap Hnd H. unfold rename in H.
  apply bind_Ok in H. destruct H as (rn & tr0 & Hrn & H).
  apply ret_Ok in Hrn. destruct Hrn as [-> ->]. cbn [andb negb] in H.
  change (map (fun n => match assoc n d with
                        | Some n' => n'
                        | None => NameStr n
                        end) (_column_names t))
    with (map (renamed d) (_column_names t)) in H.
  rewrite Hmap in H.
  assert (Hlen : length new = length (_column_names t)).
  { apply (f_equal (@length name_arg)) in Hmap.
    rewrite !length_map in Hmap. lia. }
  apply Table_init_inv in H.
  destruct H as (names & types & new_rows & computed & tr1 & tr2
                 & Hn & Ht & Hl & Hr & Hc & ->).
  assert (Hn' : resolve_column_names letter_name (Some (map NameStr new))
                  (_rows t) tr = (Ok new, tr)).
  { destruct new as [ | n0 new0].
    - destruct (_column_names t); [now elim Hne | discriminate].
    - apply (validate_column_names_fresh letter_name (n0 :: new0) [] 0 tr Hnd). }
  rewrite Hn' in Hn. inversion Hn; subst names tr1.
  unfold resolve_column_types, lift in Ht. rewrite check_types_ok in Ht.
  inversion Ht; subst types tr2. simpl.
  apply cast_rows_Ok in Hr. destruct Hr as (_ & -> & Hpt).
  split; [reflexivity | ]. split; [reflexivity | ]. split; [reflexivity | ].
  intros r row Hrow. destruct (Hpt r row Hrow) as (Hle & vs & Hvs & Hst).
  exists (mkRow vs new). split; [assumption | ]. split; [reflexivity | ].
  apply cast_all_pointwise in Hvs. destruct Hvs as [_ Hcells].
  intros j d0 Hj. apply (Hcells j d0). unfold padded.
  destruct (inv_rows t Hinv row (nth_error_In _ _ Hrow)) as [_ Hrl].
  replace (length new - length (values row)) with 0 by lia.
  simpl. now rewrite app_nil_r.
Qed.

(** [rename] without arguments copies the table: on an invariant table it
    succeeds and returns a table with the same column names, column types
    and rows, and the same row names. *)
Theorem rename_without_arguments_copies t tr :
  table_invariant t ->
  exists t' tr',
    rename letter_name default_tester forced_tester t None None tr = (Ok t', tr')
    /\ _column_names t' = _column_names t
    /\ _column_types t' = _column_types t
    /\ _rows t' = _rows t
    /\ _row_names t' = match _row_names t with
                       | Some l => stored_row_names l
                       | None => None
                       end.
Proof.
  intros Hinv. unfold rename, bind, ret, _fork.
  destruct (Table_init_fork_ok letter_name default_tester forced_tester
              (_column_names t) (_column_types t) (_rows t) _ _ tr
              (inv_names t Hinv) (inv_types t Hinv)
              (fun row H => proj2 (inv_rows t Hinv row H))
              (compute_row_names_of_table t (_rows t) Hinv)) as [tr1 H].
  eexists. exists tr1. split; [exact H | ]. simpl. auto.
Qed.

(** *** limit with a start and a stop *)

Lemma map_add_seq s start cnt :
  map (fun k => s + k) (seq start cnt) = seq (s + start) cnt.
Proof.
  revert start. induction cnt as [ | cnt IH]; intros start; [reflexivity | ].
  simpl. f_equal. rewrite IH. now rewrite Nat.add_succ_r.
Qed.

Lemma rmap_nth_seq_from {B} (l : list B) s cnt :
  s + cnt <= length l ->
  rmap (fun k => match nth_error l k with
                 | Some x => Ok x
                 | None => Raise IndexError
                 end) (seq s cnt)
  = Ok (firstn cnt (skipn s l)).
Proof.
  intros H. rewrite <- (Nat.add_0_r s) at 1. rewrite <- map_add_seq.
  rewrite rmap_map.
  rewrite (rmap_ext_in _ (fun k => match nth_error (skipn s l) k with
                                   | Some x => Ok x
                                   | None => Raise IndexError
                                   end)).
  - apply rmap_nth_seq. rewrite length_skipn. lia.
  - intros k _. now rewrite nth_error_skipn.
Qed.

(** [l[a:b]] for natural numbers [a] and [b]. *)
Lemma py_slice_start_stop {B} (l : list B) a b :
  py_slice (mkSlice (Some (Z.of_nat a)) (Some (Z.of_nat b)) None) l
  = Ok (skipn a (firstn b l)).
Proof.
  unfold py_slice, slice_indices, clip_bound.
  cbn [slice_step slice_start slice_stop]. cbn [Z.eqb Z.ltb Z.compare rbind].
  destruct (Z.ltb_spec (Z.of_nat a) 0) as [Hneg | _]; [lia | ].
  destruct (Z.ltb_spec (Z.of_nat b) 0) as [Hneg | _]; [lia | ].
  unfold py_range, range_len. cbn [Z.ltb Z.compare].
  set (start := Z.min (Z.of_nat a) (Z.of_nat (length l))).
  set (stop := Z.min (Z.of_nat b) (Z.of_nat (length l))).
  assert (Hlen : (if (start <? stop)%Z
                  then Z.to_nat ((stop - start - 1) / 1 + 1) else 0)
                 = Nat.min b (length l) - Nat.min a (length l)).
  { destruct (Z.ltb_spec start stop) as [Hlt | Hge].
    - rewrite Z.div_1_r. unfold start, stop in *. lia.
    - unfold start, stop in *. lia. }
  rewrite Hlen, rmap_map.
  rewrite (rmap_ext_in _ (fun k => match nth_error l (Nat.min a (length l) + k) with
                                   | Some x => Ok x
                                   | None => Raise IndexError
                                   end)).
  - rewrite <- (rmap_map (fun k => match nth_error l k with
                                   | Some x => Ok x
                                   | None => Raise IndexError
                                   end) (fun k => Nat.min a (length l) + k)).
    rewrite map_add_seq, Nat.add_0_r, rmap_nth_seq_from by lia.
    f_equal. rewrite skipn_firstn_comm.
    destruct (Nat.le_gt_cases (length l) a) as [Ha | Ha].
    + rewrite (Nat.min_r a (length l)) by assumption.
      rewrite !skipn_all2 by lia. now rewrite !firstn_nil.
    + rewrite (Nat.min_l a (length l)) by lia.
      destruct (Nat.le_gt_cases b (length l)) as [Hb | Hb].
      * now rewrite (Nat.min_l b (length l)).
      * rewrite (Nat.min_r b (length l)) by lia.
        rewrite !firstn_all2; [reflexivity | | ]; rewrite length_skipn; lia.
  - intros k _.
    replace (Z.to_nat (start + Z.of_nat k * 1)) with (Nat.min a (length l) + k)
      by (unfold start; lia).
    reflexivity.
Qed.

(** [limit(a, b)] with natural numbers [a] and [b], [b] not zero, returns
    the rows at the positions from [a] up to, and without, [b], and with
    them the row names of the same positions. *)
Theorem limit_start_stop self a b tr t' tr' :
  b <> 0 ->
  limit letter_name default_tester forced_tester self
    (Some (Z.of_nat a)) (Some (Z.of_nat b)) None tr = (Ok t', tr') ->
  _rows t' = skipn a (firstn b (_rows self))
  /\ forall names,
       _row_names self = Some names ->
       _row_names t' = stored_row_names (skipn a (firstn b names)).
Proof.
  intros Hb H. apply limit_inv in H.
  assert (Htruthy : truthy (Some (Z.of_nat b)) || truthy None = true).
  { simpl. rewrite orb_false_r. apply negb_true_iff. apply Z.eqb_neq. lia. }
  rewrite Htruthy in H. destruct H as [Hrows Hnames].
  rewrite py_slice_start_stop in Hrows. inversion Hrows as [Hr].
  split; [reflexivity | ].
  intros names Hself. unfold row_names_sliced in Hnames. rewrite Hself in Hnames.
  destruct Hnames as (l & Hl & Hn). rewrite py_slice_start_stop in Hl.
  inversion Hl; subst l. exact Hn.
Qed.

(** *** More on the constructor *)

(** Distinct string names and a sequence of column types of another length:
    construction fails with [ValueError] before any row is looked at: the
    log is unchanged, nothing was cast. *)
Theorem column_types_length_mismatch rows n names types rn fork tr :
  NoDup (n :: names) ->
  length (n :: names) <> length types ->
  Table_init letter_name default_tester forced_tester (RowsSeq rows)
    (Some (map NameStr (n :: names))) (TypesSeq (map IsDataType types)) rn
    fork tr
  = (Raise (ValueError LengthMismatch), tr).
Proof.
  intros Hnd Hlen. unfold Table_init, bind.
  change (resolve_column_names letter_name (Some (map NameStr (n :: names)))
            rows tr)
    with (validate_column_names letter_name 0 (map NameStr (n :: names)) [] tr).
  rewrite (validate_column_names_fresh letter_name (n :: names) [] 0 tr Hnd).
  cbn [app]. unfold resolve_column_types, lift. rewrite check_types_ok.
  apply Nat.eqb_neq in Hlen. rewrite Hlen. reflexivity.
Qed.

(** The columns of a constructed table, validated or forked: one per column
    name, the column at each position carrying that position, the name and
    the type of that position, and referring to the rows and row names of
    the table. *)
Theorem columns_match_names_and_types rows cn ct rn fork tr t tr' :
  Table_init letter_name default_tester forced_tester (RowsSeq rows) cn ct rn
    fork tr = (Ok t, tr') ->
  length (_columns t) = length (_column_names t)
  /\ forall i c,
       nth_error (_columns t) i = Some c ->
       _index c = i
       /\ nth_error (_column_names t) i = Some (_name c)
       /\ nth_error (_column_types t) i = Some (_data_type c)
       /\ _column_rows c = _rows t
       /\ _column_row_names c = _row_names t.
Proof.
  intros H. apply Table_init_inv in H.
  destruct H as (names & types & new_rows & computed & tr1 & tr2
                 & _ & _ & Hl & _ & _ & ->). simpl.
  split; [now apply length_build_columns | ].
  intros i c Hc. rewrite nth_error_build_columns in Hc.
  destruct (nth_error names i) as [n | ]; [ | discriminate].
  destruct (nth_error types i) as [ty | ]; [ | discriminate].
  inversion Hc. simpl. auto.
Qed.

(** *** where returns whenever the test does *)

Lemma where_loop_total self test items :
  (forall x, In x items -> exists b, test (snd x) = Ok b) ->
  (forall names x, _row_names self = Some names -> In x items ->
     fst x < length names) ->
  forall rows rn, exists out, where_loop self test items rows rn = Ok out.
Proof.
  induction items as [ | [i row] items IH]; intros Htest Hidx rows rn.
  - simpl. eauto.
  - simpl. destruct (Htest (i, row) (or_introl eq_refl)) as [b Hb].
    simpl in Hb. rewrite Hb. simpl.
    assert (IH' : forall rows rn,
               exists out, where_loop self test items rows rn = Ok out).
    { apply IH.
      - intros x Hx. apply Htest. now right.
      - intros names x Hn Hx. apply (Hidx names x Hn). now right. }
    destruct b; [ | apply IH'].
    destruct (_row_names self) as [names | ] eqn:En; [ | simpl; apply IH'].
    destruct rn as [acc | ]; [ | simpl; apply IH'].
    assert (Hi : i < length names)
      by (apply (Hidx names (i, row) eq_refl); now left).
    unfold row_name_at. destruct (nth_error names i) eqn:E.
    + simpl. apply IH'.
    + apply nth_error_None in E. lia.
Qed.

Lemma existsb_is_int_sub names l indices :
  existsb is_int names = false ->
  map Some l = map (nth_error names) indices ->
  existsb is_int l = false.
Proof.
  intros Hint. revert indices. induction l as [ | v l IH]; intros indices H;
    [reflexivity | ].
  destruct indices as [ | i indices]; [discriminate | ].
  simpl in H. inversion H as [[Hv Hl]]. simpl.
  rewrite (IH indices Hl), orb_false_r.
  destruct (is_int v) eqn:E; [ | reflexivity].
  assert (Hin : In v names) by (eapply nth_error_In; symmetry; exact Hv).
  assert (Hex : existsb is_int names = true)
    by (apply existsb_exists; eauto).
  congruence.
Qed.

Lemma compute_row_names_seq_ok l rows :
  existsb is_int l = false ->
  compute_row_names (RowNamesSeq l) rows = Ok (stored_row_names l).
Proof.
  intros H. unfold compute_row_names. destruct l as [ | v l]; [reflexivity | ].
  cbn [row_names_truthy length Nat.eqb negb rbind]. now rewrite H.
Qed.

(** On an invariant table that has as many row names as rows (or none),
    [where] returns a table whenever the test returns for every row: it
    raises only what the test raises. *)
Theorem where_succeeds self test tr :
  table_invariant self ->
  (forall names, _row_names self = Some names ->
     length names = length (_rows self)) ->
  (forall row, In row (_rows self) -> exists b, test row = Ok b) ->
  exists t' tr',
    where_ letter_name default_tester forced_tester self test tr = (Ok t', tr')
    /\ _rows t' = filter (passes test) (_rows self).
Proof.
  intros Hinv Hnames Htest.
  destruct (where_loop_total self test (enumerate (_rows self))) with
    (rows := @nil Row)
    (rn := match _row_names self with
           | Some _ => Some (@nil value)
           | None => None
           end) as [out Hout].
  - intros [i row] Hx. apply in_enumerate in Hx. simpl.
    apply Htest. eapply nth_error_In; exact Hx.
  - intros names [i row] Hn Hx. apply in_enumerate in Hx. simpl.
    rewrite (Hnames names Hn). apply nth_error_Some. congruence.
  - pose proof (where_loop_spec self test _ _ _ _ Hout) as (_ & Hrows & Hrn).
    simpl in Hrows. rewrite filter_enumerate_snd in Hrows.
    assert (Hshape : forall row, In row (fst out) ->
                       length (values row) = length (_column_names self)).
    { intros row Hrow. rewrite Hrows in Hrow. apply filter_In in Hrow.
      apply (inv_rows self Hinv row (proj1 Hrow)). }
    assert (Hc : exists computed,
               compute_row_names
                 (match (match snd out with
                         | Some l => Some l
                         | None => _row_names self
                         end) with
                  | Some l => RowNamesSeq l
                  | None => RowNamesNone
                  end) (fst out) = Ok computed).
    { destruct (_row_names self) as [names | ] eqn:En.
      - destruct Hrn as (l & Hsnd & Hl). rewrite Hsnd. simpl.
        eexists. apply compute_row_names_seq_ok.
        eapply existsb_is_int_sub; [ | exact Hl].
        apply (inv_row_names self Hinv names En).
      - rewrite Hrn. eexists. reflexivity. }
    destruct Hc as [computed Hc].
    destruct (Table_init_fork_ok letter_name default_tester forced_tester
                (_column_names self) (_column_types self) (fst out) _ computed
                tr (inv_names self Hinv) (inv_types self Hinv) Hshape Hc)
      as [tr1 Hok].
    eexists. exists tr1. split.
    + unfold where_, bind, lift. rewrite Hout. unfold _fork. exact Hok.
    + simpl. exact Hrows.
Qed.

(** *** distinct twice *)

Lemma first_keys_NoDup ks suf :
  forall pre,
    ks = pre ++ suf ->
    NoDup (map snd (filter (fun x => is_first ks (fst x))
                      (combine (seq (length pre) (length suf)) suf)))
    /\ forall v,
         In v (map snd (filter (fun x => is_first ks (fst x))
                          (combine (seq (length pre) (length suf)) suf))) ->
         ~ In v pre.
Proof.
  induction suf as [ | v suf IH]; intros pre Hks.
  - simpl. split; [constructor | intros v []].
  - cbn [length seq combine filter fst].
    assert (Hks' : ks = (pre ++ [v]) ++ suf) by (now rewrite <- app_assoc).
    assert (Hlen : S (length pre) = length (pre ++ [v]))
      by (rewrite length_app; simpl; lia).
    destruct (IH (pre ++ [v]) Hks') as [Hnd Hnot].
    rewrite <- Hlen in Hnd, Hnot.
    assert (Hfirst : is_first ks (length pre) = negb (py_in v pre))
      by (rewrite Hks; apply is_first_at).
    rewrite Hfirst.
    destruct (py_in v pre) eqn:Ein; cbn [negb].
    + split; [exact Hnd | ]. intros w Hw Hpre.
      apply (Hnot w Hw). apply in_or_app. now left.
    + cbn [map snd]. split.
      * constructor; [ | exact Hnd]. intros Hv.
        apply (Hnot v Hv). apply in_or_app. right. now left.
      * intros w [<- | Hw] Hpre.
        -- apply py_in_true_iff in Hpre. congruence.
        -- apply (Hnot w Hw). apply in_or_app. now left.
Qed.

Lemma kept_keys {B} (kf : Row -> result B) (p : nat -> bool) rows :
  forall ks start,
    rmap kf rows = Ok ks ->
    rmap kf (map snd (filter (fun x => p (fst x))
                        (combine (seq start (length rows)) rows)))
    = Ok (map snd (filter (fun x => p (fst x))
                     (combine (seq start (length ks)) ks))).
Proof.
  induction rows as [ | row rows IH]; intros ks start H.
  - simpl in H. inversion H. reflexivity.
  - simpl in H. apply rbind_Ok in H. destruct H as (k & Hk & H).
    apply rbind_Ok in H. destruct H as (ks' & Hks' & H). inversion H; subst ks.
    cbn [length seq combine filter fst]. destruct (p start).
    + cbn [map snd rmap]. rewrite Hk, (IH ks' (S start) Hks'). reflexivity.
    + apply IH. exact Hks'.
Qed.

Lemma NoDup_all_first ks :
  NoDup ks -> forall i, i < length ks -> is_first ks i = true.
Proof.
  intros Hnd i Hi. unfold is_first.
  destruct (nth_error ks i) as [k | ] eqn:E;
    [ | apply nth_error_None in E; lia].
  apply negb_true_iff. destruct (py_in k (firstn i ks)) eqn:Ein;
    [ | reflexivity].
  apply py_in_true_iff in Ein. exfalso.
  apply nth_error_split in E. destruct E as (l1 & l2 & Hks & Hl1).
  subst ks i. rewrite firstn_app, Nat.sub_diag, firstn_all in Ein.
  simpl in Ein. rewrite app_nil_r in Ein.
  apply NoDup_remove_2 in Hnd. apply Hnd. apply in_or_app. now left.
Qed.

Lemma filter_enumerate_all {B} (p : nat -> bool) (l : list B) :
  (forall i, i < length l -> p i = true) ->
  map snd (filter (fun x => p (fst x)) (enumerate l)) = l.
Proof.
  intros H.
  assert (Hall : forall x, In x (enumerate l) -> p (fst x) = true).
  { intros [i x] Hx. apply in_enumerate in Hx. simpl. apply H.
    apply nth_error_Some. congruence. }
  rewrite forallb_filter_id.
  - apply map_snd_enumerate.
  - apply forallb_forall. exact Hall.
Qed.

(** [distinct] is idempotent for a key that is a column name, a function of
    the row or [None]: applied to its own result it keeps every row. *)
Theorem distinct_twice self key kf tr t1 tr1 tr0 t2 tr2 :
  key_function key kf ->
  distinct letter_name default_tester forced_tester self key tr = (Ok t1, tr1) ->
  distinct letter_name default_tester forced_tester t1 key tr0 = (Ok t2, tr2) ->
  _rows t2 = _rows t1.
Proof.
  intros Hkey H1 H2.
  destruct (distinct_inv self key kf tr t1 tr1 Hkey H1) as (ks & Hks & Hr1 & _).
  destruct (distinct_inv t1 key kf tr0 t2 tr2 Hkey H2) as (ks1 & Hks1 & Hr2 & _).
  rewrite Hr2. apply filter_enumerate_all. intros i Hi.
  apply NoDup_all_first; [ | rewrite (rmap_length _ _ _ Hks1); exact Hi].
  rewrite Hr1 in Hks1. unfold enumerate in Hks1.
  rewrite (kept_keys kf (is_first ks) (_rows self) ks 0 Hks) in Hks1.
  inversion Hks1. apply (first_keys_NoDup ks ks []). reflexivity.
Qed.

End Further.

(* ------------------------------------------------------------------ *)
(** ** The further properties at the sample data *)

Lemma supplied_column_names_made_distinct_witness :
  exists t tr',
    Table_init sample_letter_name sample_tester sample_forced_tester
      (RowsSeq raw_rows) (Some duplicate_names) TypesNone RowNamesNone false []
    = (Ok t, tr')
    /\ _column_names t = ["a"%string; "a_2"%string; "c"%string]
    /\ NoDup (_column_names t)
    /\ length (_column_names t) = 3
    /\ length (_column_types t) = 3.
Proof.
  do 2 eexists. split; [reflexivity | ]. split; [reflexivity | ].
  eapply (supplied_column_names_made_distinct sample_letter_name sample_tester
            sample_forced_tester raw_rows (NameStr "a")
            [NameStr "a"; NameNone] TypesNone RowNamesNone false []).
  reflexivity.
Defined.

Lemma duplicate_column_names_take_first_free_suffix_witness :
  exists t tr',
    Table_init sample_letter_name sample_tester sample_forced_tester
      (RowsSeq raw_rows) (Some duplicate_names) TypesNone RowNamesNone false []
    = (Ok t, tr')
    /\ nth_error duplicate_names 1 = Some (NameStr "a")
    /\ exists s d,
         requested_name sample_letter_name 1 (NameStr "a") = Some s
         /\ nth_error (_column_names t) 1 = Some (candidate s d)
         /\ ~ In (candidate s d) (firstn 1 (_column_names t))
         /\ forall k, k < d -> In (candidate s k) (firstn 1 (_column_names t)).
Proof.
  do 2 eexists. split; [reflexivity | ]. split; [reflexivity | ].
  eapply (duplicate_column_names_take_first_free_suffix sample_letter_name
            sample_tester sample_forced_tester raw_rows (NameStr "a")
            [NameStr "a"; NameNone] TypesNone RowNamesNone false []).
  - reflexivity.
  - reflexivity.
Defined.

Lemma bad_column_name_rejected_witness :
  In NameOther [NameStr "a"; NameOther]
  /\ exists tr',
       Table_init sample_letter_name sample_tester sample_forced_tester
         (RowsSeq raw_rows) (Some [NameStr "a"; NameOther]) TypesNone
         RowNamesNone false []
       = (Raise (ValueError BadColumnName), tr').
Proof.
  split; [simpl; auto | ].
  apply (bad_column_name_rejected sample_letter_name sample_tester
           sample_forced_tester raw_rows (NameStr "a") [NameOther] TypesNone
           RowNamesNone false []).
  simpl. auto.
Defined.

Lemma row_names_never_int_witness :
  exists t tr' names,
    Table_init sample_letter_name sample_tester sample_forced_tester
      (RowsSeq raw_rows) sample_names sample_types (RowNamesColumn "id")
      false [] = (Ok t, tr')
    /\ _row_names t = Some names
    /\ existsb is_int names = false.
Proof.
  do 3 eexists. split; [reflexivity | ]. split; [reflexivity | ].
  eapply (row_names_never_int sample_letter_name sample_tester
            sample_forced_tester raw_rows sample_names sample_types
            (RowNamesColumn "id") false []).
  - reflexivity.
  - reflexivity.
Defined.

Lemma row_names_from_column_witness :
  exists t tr',
    Table_init sample_letter_name sample_tester sample_forced_tester
      (RowsSeq raw_rows) sample_names sample_types (RowNamesColumn "id")
      false [] = (Ok t, tr')
    /\ "id"%string <> EmptyString
    /\ exists names,
         _row_names t = Some names
         /\ length names = length (_rows t)
         /\ forall i row,
              nth_error (_rows t) i = Some row ->
              exists v, row_get row "id" = Ok v /\ nth_error names i = Some v.
Proof.
  do 2 eexists. split; [reflexivity | ]. split; [discriminate | ].
  eapply (proj2 (row_names_from_column sample_letter_name sample_tester
                   sample_forced_tester raw_rows sample_names sample_types
                   "id" false [] _ _ eq_refl)).
  discriminate.
Defined.

Lemma row_names_from_missing_column_witness :
  raw_rows <> [] /\ "zip"%string <> EmptyString
  /\ ~ In "zip"%string ["id"%string; "name"%string]
  /\ Table_init sample_letter_name sample_tester sample_forced_tester
       (RowsSeq raw_rows) sample_names sample_types (RowNamesColumn "zip")
       false []
     = (Raise (KeyError (VStr "zip")),
        [CastCall 0 (VStr "x"); CastCall 1 (VStr "");
         CastCall 0 (VStr "y"); CastCall 1 VNone]).
Proof.
  split; [discriminate | ]. split; [discriminate | ].
  split; [simpl; intuition discriminate | ].
  eapply (row_names_from_missing_column sample_letter_name sample_tester
            sample_forced_tester raw_rows sample_names sample_types "zip" []
            ["id"%string; "name"%string] [Text; Nullable] [] []).
  - reflexivity.
  - reflexivity.
  - reflexivity.
  - vm_compute. reflexivity.
  - discriminate.
  - discriminate.
  - simpl. intuition discriminate.
Defined.

Lemma forking_operators_never_cast_witness :
  exists res tr',
    apply_operator sample_letter_name sample_tester sample_forced_tester
      (Select (OneName "name")) sample_table [] = (res, tr')
    /\ always_forks (Select (OneName "name"))
    /\ warnings_only [] tr'.
Proof.
  do 2 eexists. split; [reflexivity | ]. split; [exact I | ].
  eapply (forking_operators_never_cast sample_letter_name sample_tester
            sample_forced_tester (Select (OneName "name")) sample_table []).
  - exact I.
  - reflexivity.
Defined.

Lemma where_filters_rows_witness :
  exists t' tr',
    where_ sample_letter_name sample_tester sample_forced_tester
      sample_named_table id_above_one [] = (Ok t', tr')
    /\ map values (_rows t') = [[VInt 2; VStr "b"]; [VInt 3; VStr "a"]]
    /\ _row_names t' = Some [VStr "y"; VStr "z"]
    /\ _rows t' = filter (passes id_above_one) (_rows sample_named_table).
Proof.
  do 2 eexists. split; [reflexivity | ]. split; [reflexivity | ].
  split; [reflexivity | ].
  eapply (where_filters_rows sample_letter_name sample_tester
            sample_forced_tester sample_named_table id_above_one []).
  reflexivity.
Defined.

Lemma where_twice_witness :
  exists t1 tr1 t2 tr2,
    where_ sample_letter_name sample_tester sample_forced_tester
      sample_named_table id_above_one [] = (Ok t1, tr1)
    /\ where_ sample_letter_name sample_tester sample_forced_tester
         t1 name_is_a [] = (Ok t2, tr2)
    /\ map values (_rows t2) = [[VInt 3; VStr "a"]]
    /\ _rows t2
       = filter (fun row => passes id_above_one row && passes name_is_a row)
           (_rows sample_named_table).
Proof.
  do 4 eexists. split; [reflexivity | ]. split; [reflexivity | ].
  split; [reflexivity | ].
  eapply (where_twice sample_letter_name sample_tester sample_forced_tester
            sample_named_table id_above_one name_is_a [] _ _ []).
  - reflexivity.
  - reflexivity.
Defined.

Lemma find_first_match_witness :
  id_is_two (sample_row [VInt 3; VStr "a"]) = Raise (UserError 0)
  /\ where_ sample_letter_name sample_tester sample_forced_tester
       sample_table id_is_two [] = (Raise (UserError 0), [])
  /\ find sample_table id_is_two = Ok (Some (sample_row [VInt 2; VStr "b"])).
Proof.
  split; [reflexivity | ]. split; [reflexivity | ].
  destruct (find_first_match sample_table id_is_two) as (Hfirst & _).
  apply (Hfirst [sample_row [VInt 1; VStr "a"]]
           (sample_row [VInt 2; VStr "b"]) [sample_row [VInt 3; VStr "a"]]
           eq_refl).
  - intros r [<- | []]. reflexivity.
  - reflexivity.
Defined.

Lemma find_is_first_of_where_witness :
  exists t' tr',
    where_ sample_letter_name sample_tester sample_forced_tester
      sample_table id_above_one [] = (Ok t', tr')
    /\ find sample_table id_above_one = Ok (hd_error (_rows t')).
Proof.
  do 2 eexists. split; [reflexivity | ].
  eapply (find_is_first_of_where sample_letter_name sample_tester
            sample_forced_tester sample_table id_above_one []).
  reflexivity.
Defined.



Lemma row_operators_keep_shape_witness :
  keeps_columns (Where id_above_one)
  /\ table_invariant sample_named_table
  /\ exists t' tr',
       apply_operator sample_letter_name sample_tester sample_forced_tester
         (Where id_above_one) sample_named_table [] = (Ok t', tr')
       /\ table_invariant t'
       /\ _column_names t' = _column_names sample_named_table
       /\ _column_types t' = _column_types sample_named_table
       /\ incl (_rows t') (_rows sample_named_table).
Proof.
  split; [exact I | ]. split; [exact sample_named_table_invariant | ].
  do 2 eexists. split; [reflexivity | ].
  eapply (row_operators_keep_shape sample_letter_name sample_tester
            sample_forced_tester (Where id_above_one) sample_named_table []).
  - exact I.
  - exact sample_named_table_invariant.
  - reflexivity.
Defined.

Lemma select_projects_columns_witness :
  table_invariant sample_named_table
  /\ NoDup ["name"%string]
  /\ incl ["name"%string] (_column_names sample_named_table)
  /\ exists t' tr',
       select sample_letter_name sample_tester sample_forced_tester
         sample_named_table (Names ["name"%string]) [] = (Ok t', tr')
       /\ table_invariant t'
       /\ _column_names t' = ["name"%string]
       /\ length (_rows t') = length (_rows sample_named_table).
Proof.
  assert (Hnd : NoDup ["name"%string])
    by (repeat constructor; simpl; intuition).
  assert (Hincl : incl ["name"%string] (_column_names sample_named_table))
    by (intros n [<- | []]; simpl; auto).
  split; [exact sample_named_table_invariant | ]. split; [exact Hnd | ].
  split; [exact Hincl | ].
  destruct (select_projects_columns sample_letter_name sample_tester
              sample_forced_tester sample_named_table ["name"%string] []
              sample_named_table_invariant Hnd Hincl)
    as (t' & tr' & Hsel & Hinv & Hnames & Hlen & _).
  exists t', tr'. auto.
Defined.

Lemma select_unknown_column_witness :
  table_invariant sample_named_table
  /\ incl ["id"%string] (_column_names sample_named_table)
  /\ ~ In "zip"%string (_column_names sample_named_table)
  /\ select sample_letter_name sample_tester sample_forced_tester
       sample_named_table (Names (["id"%string] ++ "zip"%string :: [])) []
     = (Raise (KeyError (VStr "zip")), []).
Proof.
  assert (Hincl : incl ["id"%string] (_column_names sample_named_table))
    by (intros n [<- | []]; simpl; auto).
  assert (Hzip : ~ In "zip"%string (_column_names sample_named_table))
    by (simpl; intuition discriminate).
  split; [exact sample_named_table_invariant | ]. split; [exact Hincl | ].
  split; [exact Hzip | ].
  apply (select_unknown_column sample_letter_name sample_tester
           sample_forced_tester sample_named_table ["id"%string] "zip" [] []
           sample_named_table_invariant Hincl Hzip).
Defined.

Lemma exclude_selects_complement_witness :
  table_invariant sample_named_table
  /\ exists t' tr',
       exclude sample_letter_name sample_tester sample_forced_tester
         sample_named_table (OneName "id") [] = (Ok t', tr')
       /\ table_invariant t'
       /\ _column_names t'
          = filter (fun n => negb (str_in n (key_list (OneName "id"))))
              (_column_names sample_named_table).
Proof.
  split; [exact sample_named_table_invariant | ].
  destruct (exclude_selects_complement sample_letter_name sample_tester
              sample_forced_tester sample_named_table (OneName "id") []
              sample_named_table_invariant)
    as (t' & tr' & Hex & Hinv & Hnames & _).
  exists t', tr'. auto.
Defined.

Lemma rename_by_mapping_recasts_witness :
  table_invariant sample_named_table
  /\ _column_names sample_named_table <> []
  /\ map (renamed [("id"%string, NameStr "key")])
       (_column_names sample_named_table)
     = map NameStr ["key"%string; "name"%string]
  /\ NoDup ["key"%string; "name"%string]
  /\ exists t' tr',
       rename sample_letter_name sample_tester sample_forced_tester
         sample_named_table (Some (RenameDict [("id"%string, NameStr "key")]))
         None [] = (Ok t', tr')
       /\ _column_names t' = ["key"%string; "name"%string]
       /\ _column_types t' = _column_types sample_named_table
       /\ tr' = [] ++ casting_events 2 (_rows sample_named_table).
Proof.
  assert (Hnd : NoDup ["key"%string; "name"%string])
    by (repeat constructor; simpl; intuition discriminate).
  split; [exact sample_named_table_invariant | ]. split; [discriminate | ].
  split; [reflexivity | ]. split; [exact Hnd | ].
  do 2 eexists. split; [vm_compute; reflexivity | ].
  destruct (rename_by_mapping_recasts sample_letter_name sample_tester
              sample_forced_tester sample_named_table
              [("id"%string, NameStr "key")] ["key"%string; "name"%string] []
              _ _ sample_named_table_invariant
              ltac:(discriminate) eq_refl Hnd eq_refl)
    as (Hn & Ht & Htr & _).
  auto.
Defined.

Lemma rename_without_arguments_copies_witness :
  table_invariant sample_named_table
  /\ exists t' tr',
       rename sample_letter_name sample_tester sample_forced_tester
         sample_named_table None None [] = (Ok t', tr')
       /\ _column_names t' = _column_names sample_named_table
       /\ _column_types t' = _column_types sample_named_table
       /\ _rows t' = _rows sample_named_table
       /\ _row_names t' = match _row_names sample_named_table with
                          | Some l => stored_row_names l
                          | None => None
                          end.
Proof.
  split; [exact sample_named_table_invariant | ].
  apply (rename_without_arguments_copies sample_letter_name sample_tester
           sample_forced_tester sample_named_table []
           sample_named_table_invariant).
Defined.

Lemma limit_start_stop_witness :
  3 <> 0
  /\ exists t' tr',
       limit sample_letter_name sample_tester sample_forced_tester
         sample_named_table (Some (Z.of_nat 1)) (Some (Z.of_nat 3)) None []
       = (Ok t', tr')
       /\ _rows t' = skipn 1 (firstn 3 (_rows sample_named_table))
       /\ forall names,
            _row_names sample_named_table = Some names ->
            _row_names t' = stored_row_names (skipn 1 (firstn 3 names)).
Proof.
  split; [discriminate | ].
  do 2 eexists. split; [reflexivity | ].
  eapply (limit_start_stop sample_letter_name sample_tester
            sample_forced_tester sample_named_table 1 3 []).
  - discriminate.
  - reflexivity.
Defined.

Lemma validated_table_invariant_witness :
  (forall i j, str i = str j -> i = j)
  /\ exists t tr',
       Table_init str sample_tester sample_forced_tester (RowsSeq raw_rows)
         None sample_types RowNamesNone false [] = (Ok t, tr')
       /\ table_invariant t.
Proof.
  split; [exact str_inj | ].
  do 2 eexists. split; [reflexivity | ].
  eapply (validated_table_invariant str sample_tester sample_forced_tester
            raw_rows None sample_types RowNamesNone []).
  - exact str_inj.
  - reflexivity.
Defined.

Lemma column_types_length_mismatch_witness :
  NoDup ["id"%string; "name"%string]
  /\ length ["id"%string; "name"%string] <> length [Text]
  /\ Table_init sample_letter_name sample_tester sample_forced_tester
       (RowsSeq raw_rows) (Some (map NameStr ["id"%string; "name"%string]))
       (TypesSeq (map IsDataType [Text])) RowNamesNone false []
     = (Raise (ValueError LengthMismatch), []).
Proof.
  assert (Hnd : NoDup ["id"%string; "name"%string])
    by (repeat constructor; simpl; intuition discriminate).
  split; [exact Hnd | ]. split; [discriminate | ].
  apply (column_types_length_mismatch sample_letter_name sample_tester
           sample_forced_tester raw_rows "id" ["name"%string] [Text]
           RowNamesNone false [] Hnd).
  discriminate.
Defined.

Lemma columns_match_names_and_types_witness :
  exists t tr',
    Table_init sample_letter_name sample_tester sample_forced_tester
      (RowsSeq raw_rows) sample_names sample_types RowNamesNone false []
    = (Ok t, tr')
    /\ length (_columns t) = length (_column_names t)
    /\ forall i c,
         nth_error (_columns t) i = Some c ->
         _index c = i
         /\ nth_error (_column_names t) i = Some (_name c)
         /\ nth_error (_column_types t) i = Some (_data_type c)
         /\ _column_rows c = _rows t
         /\ _column_row_names c = _row_names t.
Proof.
  do 2 eexists. split; [reflexivity | ].
  eapply (columns_match_names_and_types sample_letter_name sample_tester
            sample_forced_tester raw_rows sample_names sample_types
            RowNamesNone false []).
  reflexivity.
Defined.

Lemma where_succeeds_witness :
  table_invariant sample_named_table
  /\ (forall names, _row_names sample_named_table = Some names ->
        length names = length (_rows sample_named_table))
  /\ (forall row, In row (_rows sample_named_table) ->
        exists b, id_above_one row = Ok b)
  /\ exists t' tr',
       where_ sample_letter_name sample_tester sample_forced_tester
         sample_named_table id_above_one [] = (Ok t', tr')
       /\ _rows t' = filter (passes id_above_one) (_rows sample_named_table).
Proof.
  assert (Hnames : forall names, _row_names sample_named_table = Some names ->
                     length names = length (_rows sample_named_table))
    by (intros names H; inversion H; reflexivity).
  assert (Htest : forall row, In row (_rows sample_named_table) ->
                    exists b, id_above_one row = Ok b)
    by (intros row [<- | [<- | [<- | []]]]; eexists; reflexivity).
  split; [exact sample_named_table_invariant | ]. split; [exact Hnames | ].
  split; [exact Htest | ].
  apply (where_succeeds sample_letter_name sample_tester sample_forced_tester
           sample_named_table id_above_one []
           sample_named_table_invariant Hnames Htest).
Defined.

Lemma distinct_twice_witness :
  key_function (ByName "name") (fun row => row_get row "name")
  /\ exists t1 tr1 t2 tr2,
       distinct sample_letter_name sample_tester sample_forced_tester
         sample_named_table (ByName "name") [] = (Ok t1, tr1)
       /\ distinct sample_letter_name sample_tester sample_forced_tester
            t1 (ByName "name") [] = (Ok t2, tr2)
       /\ _rows t2 = _rows t1.
Proof.
  split; [constructor | ].
  do 4 eexists. split; [reflexivity | ]. split; [reflexivity | ].
  eapply (distinct_twice sample_letter_name sample_tester sample_forced_tester
            sample_named_table (ByName "name") (fun row => row_get row "name")
            [] _ _ []).
  - constructor.
  - reflexivity.
  - reflexivity.
Defined.
